(** * BSocket: a shallow embedding of trunk/system/BSocket.c

    The non-blocking socket object of BadVPN, with its two event backends
    (readiness on POSIX, network events under BADVPN_USE_WINAPI), is modelled
    as pure functions over an explicit socket record threaded through a small
    state-and-abort monad.  Operating-system and reactor calls are answered by
    an environment function and recorded in a call log, so that statements of
    the form "the OS is not touched" can be written down. *)

From Stdlib Require Import ZArith List Bool Lia.
From Stdlib Require Import Strings.Byte.
Import ListNotations.
Local Open Scope Z_scope.

Set Implicit Arguments.

(** ** Build variant *)

(** The file is compiled either for POSIX or with BADVPN_USE_WINAPI defined;
    every [#ifdef BADVPN_USE_WINAPI] of the source is a [match] on this. *)
Inductive platform : Type := Posix | Winapi.

(** ** Constants of the headers *)

Module Consts.

(** Modelled from the spec: system/BSocket.h is absent; the four logical
    events are distinct one-bit flags of the [waitEvents] bitset. *)
Definition BSOCKET_READ : Z := 1.
Definition BSOCKET_WRITE : Z := 2.
Definition BSOCKET_ACCEPT : Z := 4.
Definition BSOCKET_CONNECT : Z := 8.

(** Modelled from the spec: system/BReactor.h is absent; the readiness mask
    of the reactor has a read bit and a write bit. *)
Definition BREACTOR_READ : Z := 1.
Definition BREACTOR_WRITE : Z := 2.

(** Winsock network-event bits (winsock2.h). *)
Definition FD_READ : Z := 1.
Definition FD_WRITE : Z := 2.
Definition FD_ACCEPT : Z := 8.
Definition FD_CONNECT : Z := 16.
Definition FD_CLOSE : Z := 32.

(** Address families and socket-option names of the system headers. *)
Definition AF_INET : Z := 2.
Definition AF_INET6 (p : platform) : Z :=
  match p with Posix => 10 | Winapi => 23 end.
Definition IPPROTO_IP : Z := 0.
Definition IPPROTO_IPV6 : Z := 41.
Definition IP_PKTINFO (p : platform) : Z :=
  match p with Posix => 8 | Winapi => 19 end.
Definition IPV6_PKTINFO (p : platform) : Z :=
  match p with Posix => 50 | Winapi => 19 end.
Definition IPV6_RECVPKTINFO : Z := 49.
Definition SOL_SOCKET (p : platform) : Z :=
  match p with Posix => 1 | Winapi => 65535 end.
Definition SO_REUSEADDR (p : platform) : Z :=
  match p with Posix => 2 | Winapi => 4 end.
Definition MSG_NOSIGNAL : Z := 16384.

(** [sizeof] of the socket-address structures. *)
Definition sizeof_sockaddr_in : Z := 16.
Definition sizeof_sockaddr_in6 : Z := 28.
(** [sizeof(sysaddr.addr)]: the union is as large as its largest member. *)
Definition sizeof_sockaddr_union : Z :=
  Z.max sizeof_sockaddr_in sizeof_sockaddr_in6.
Definition sizeof_in_pktinfo (p : platform) : Z :=
  match p with Posix => 12 | Winapi => 8 end.
Definition sizeof_in6_pktinfo : Z := 20.

(** [int] is 32 bits wide; [wrap_int] is what a 32-bit signed store keeps. *)
Definition INT_MAX : Z := 2147483647.
Definition wrap_int (z : Z) : Z := (z + 2 ^ 31) mod 2 ^ 32 - 2 ^ 31.

End Consts.
Import Consts.

(** ** The stable error taxonomy: the BSOCKET_ERROR constants *)

(** Modelled from the spec: the constants are defined in system/BSocket.h,
    which is absent; the kinds are those of the error taxonomy. *)
Inductive bsocket_error : Type :=
| BSOCKET_ERROR_NONE
| BSOCKET_ERROR_UNKNOWN
| BSOCKET_ERROR_LATER
| BSOCKET_ERROR_IN_PROGRESS
| BSOCKET_ERROR_ACCESS_DENIED
| BSOCKET_ERROR_ADDRESS_NOT_AVAILABLE
| BSOCKET_ERROR_ADDRESS_IN_USE
| BSOCKET_ERROR_CONNECTION_REFUSED
| BSOCKET_ERROR_CONNECTION_TIMED_OUT
| BSOCKET_ERROR_CONNECTION_RESET.

(** Error codes of the operating system, as the [switch] statements of the
    source name them.  Under [Winapi] a constructor stands for its WSA
    namesake ([EWOULDBLOCK] for WSAEWOULDBLOCK, [ECONNRESET] for
    WSAECONNRESET, ...); [E_ok] is the value 0 and [E_other] any code that no
    [switch] of the file mentions. *)
Inductive errno : Type :=
| E_ok
| EAGAIN
| EWOULDBLOCK
| EINPROGRESS
| ECONNREFUSED
| ECONNRESET
| ETIMEDOUT
| EADDRNOTAVAIL
| EADDRINUSE
| EACCES
| E_other (code : Z).

(** The two kinds of socket [BSocket_Init] accepts. *)
Inductive socket_type : Type := BSOCKET_TYPE_STREAM | BSOCKET_TYPE_DGRAM.

(** ** Addresses *)

(** Modelled from the spec: the address types are declared in an absent
    header.  [BAddr] is a tag and a union of an IPv4 and an IPv6 member;
    ports and IPv4 addresses are kept in network byte order and never
    converted here. *)
Inductive BAddr : Type :=
| BAddr_none
| BAddr_ipv4 (ip : Z) (port : Z)
| BAddr_ipv6 (ip : list byte) (port : Z).

(** Modelled from the spec: [BIPAddr], the address without a port, used as
    the local-address hint, and its three construction helpers. *)
Inductive BIPAddr : Type :=
| BIPAddr_none
| BIPAddr_ipv4 (ip : Z)
| BIPAddr_ipv6 (ip : list byte).

Definition BIPAddr_InitInvalid : BIPAddr := BIPAddr_none.
Definition BIPAddr_InitIPv4 (ip : Z) : BIPAddr := BIPAddr_ipv4 ip.
Definition BIPAddr_InitIPv6 (ip : list byte) : BIPAddr :=
  BIPAddr_ipv6 (firstn 16 ip).

Record sockaddr_in : Type := {
  sin_family : Z;
  sin_port : Z;
  sin_addr : Z
}.

Record sockaddr_in6 : Type := {
  sin6_family : Z;
  sin6_port : Z;
  sin6_flowinfo : Z;
  sin6_addr : list byte;
  sin6_scope_id : Z
}.

(** The union of [struct sys_addr], tagged by the member that was written.
    The family field lies at the same place in every member, which is what
    [sa_family] reads. *)
Inductive sockaddr_union : Type :=
| U_ipv4 (a : sockaddr_in)
| U_ipv6 (a : sockaddr_in6).

Definition sa_family (u : sockaddr_union) : Z :=
  match u with
  | U_ipv4 a => sin_family a
  | U_ipv6 a => sin6_family a
  end.

Record sys_addr : Type := {
  len : Z;
  addr : sockaddr_union
}.

(** [memcpy(dst, src, 16)] into a 16-byte array. *)
Definition memcpy16 (src : list byte) : list byte := firstn 16 src.

Section Translator.

Variable plat : platform.

(** [addr_socket_to_sys]; [None] is the failed [ASSERT(0)] of the default
    case. *)
Definition addr_socket_to_sys (a : BAddr) : option sys_addr :=
  match a with
  | BAddr_ipv4 ip port =>
      Some {| len := sizeof_sockaddr_in;
              addr := U_ipv4 {| sin_family := AF_INET;
                                sin_port := port;
                                sin_addr := ip |} |}
  | BAddr_ipv6 ip port =>
      Some {| len := sizeof_sockaddr_in6;
              addr := U_ipv6 {| sin6_family := AF_INET6 plat;
                                sin6_port := port;
                                sin6_flowinfo := 0;
                                sin6_addr := memcpy16 ip;
                                sin6_scope_id := 0 |} |}
  | BAddr_none => None
  end.

(** [addr_sys_to_socket]; [None] is a failed assertion (the length check or
    the default case).  A family tag that disagrees with the member that
    was filled in is treated like an unknown family. *)
Definition addr_sys_to_socket (sa : sys_addr) : option BAddr :=
  if sa_family (addr sa) =? AF_INET then
    match addr sa with
    | U_ipv4 a =>
        if len sa =? sizeof_sockaddr_in
        then Some (BAddr_ipv4 (sin_addr a) (sin_port a))
        else None
    | U_ipv6 _ => None
    end
  else if sa_family (addr sa) =? AF_INET6 plat then
    match addr sa with
    | U_ipv6 a =>
        if len sa =? sizeof_sockaddr_in6
        then Some (BAddr_ipv6 (memcpy16 (sin6_addr a)) (sin6_port a))
        else None
    | U_ipv4 _ => None
    end
  else None.

(** A valid portable address: IPv4, or IPv6 with a 16-byte address. *)
Definition BAddr_valid (a : BAddr) : Prop :=
  match a with
  | BAddr_none => False
  | BAddr_ipv4 _ _ => True
  | BAddr_ipv6 ip _ => length ip = 16%nat
  end.

Definition BAddr_validb (a : BAddr) : bool :=
  match a with
  | BAddr_none => false
  | BAddr_ipv4 _ _ => true
  | BAddr_ipv6 ip _ => Nat.eqb (length ip) 16
  end.

End Translator.


(** ** Control messages *)

(** [struct in_pktinfo].  The Winsock structure has no [ipi_spec_dst]; under
    [Winapi] that field of the model stays 0. *)
Record in_pktinfo : Type := {
  ipi_ifindex : Z;
  ipi_spec_dst : Z;
  ipi_addr : Z
}.

Record in6_pktinfo : Type := {
  ipi6_addr : list byte;
  ipi6_ifindex : Z
}.

Inductive pktinfo_data : Type :=
| Data_in (p : in_pktinfo)
| Data_in6 (p : in6_pktinfo).

(** A control record as [BSocket_SendToFrom] builds it: the three header
    fields and the payload structure written behind the header. *)
Record cmsg_out : Type := {
  out_level : Z;
  out_type : Z;
  out_len : Z;
  out_data : pktinfo_data
}.

(** The header of a control record as it lies in the control buffer after a
    receive: its length field, which counts the header and the payload that
    follows it, and its two tags.  A record the buffer had no room for in
    full has a length short of its payload structure. *)
Record cmsg_in : Type := {
  cmsg_len : Z;
  cmsg_level : Z;
  cmsg_type : Z
}.

(** The control buffer [cdata] after a receive: the headers found in it, in
    the order of their addresses, and what the memory holds behind them.
    [cb_in_pktinfo o] is what a [struct in_pktinfo] read at the offset [o]
    from the start of the buffer gives, and [cb_in6_pktinfo o] the same for
    a [struct in6_pktinfo]: the payload of a record when a complete one
    lies there, and otherwise whatever lies there, be it within the buffer
    or beyond its end. *)
Record control_buffer : Type := {
  cb_headers : list cmsg_in;
  cb_in_pktinfo : Z -> in_pktinfo;
  cb_in6_pktinfo : Z -> in6_pktinfo
}.

(** A buffer without a record. *)
Definition no_control : control_buffer :=
  {| cb_headers := [];
     cb_in_pktinfo := fun _ =>
       {| ipi_ifindex := 0; ipi_spec_dst := 0; ipi_addr := 0 |};
     cb_in6_pktinfo := fun _ => {| ipi6_addr := []; ipi6_ifindex := 0 |} |}.

(** [struct msghdr] / [WSAMSG] as filled in for a send. *)
Record msghdr : Type := {
  msg_name : sys_addr;
  msg_iov_base : list byte;
  msg_iov_len : Z;
  msg_control : list cmsg_out;
  msg_controllen : Z
}.

(** ** The socket object *)

(** A four-slot array, as [handlers[4]] and [handlers_user[4]]. *)
Record array4 (A : Type) : Type := {
  slot0 : A;
  slot1 : A;
  slot2 : A;
  slot3 : A
}.

Definition array4_get {A : Type} (a : array4 A) (i : nat) : A :=
  match i with
  | 0%nat => slot0 a
  | 1%nat => slot1 a
  | 2%nat => slot2 a
  | _ => slot3 a
  end.

Definition array4_set {A : Type} (a : array4 A) (i : nat) (v : A)
  : array4 A :=
  match i with
  | 0%nat => {| slot0 := v; slot1 := slot1 a; slot2 := slot2 a; slot3 := slot3 a |}
  | 1%nat => {| slot0 := slot0 a; slot1 := v; slot2 := slot2 a; slot3 := slot3 a |}
  | 2%nat => {| slot0 := slot0 a; slot1 := slot1 a; slot2 := v; slot3 := slot3 a |}
  | 3%nat => {| slot0 := slot0 a; slot1 := slot1 a; slot2 := slot2 a; slot3 := v |}
  | _ => a
  end.

(** A handler is a function pointer; [None] is NULL. *)
Definition BSocket_handler : Type := Z.

(** Modelled from the spec: [BSocket] is declared in system/BSocket.h, which
    is absent; the fields are those BSocket.c reads and writes.  The
    registration objects handed to the reactor and the debug object hold no
    state of the socket and are left out. *)
Record BSocket : Type := {
  dead : bool;
  bsys : Z;
  type : socket_type;
  socket : Z;
  event : Z;
  have_pktinfo : bool;
  error : bsocket_error;
  global_handler : option BSocket_handler;
  global_handler_user : Z;
  handlers : array4 (option BSocket_handler);
  handlers_user : array4 Z;
  waitEvents : Z;
  connecting_status : Z;
  connecting_result : bsocket_error;
  recv_max : Z;
  recv_num : Z
}.

(** Field stores. *)
Definition set_dead (v : bool) (b : BSocket) : BSocket :=
  {| dead := v; bsys := bsys b; type := type b; socket := socket b;
     event := event b; have_pktinfo := have_pktinfo b; error := error b;
     global_handler := global_handler b;
     global_handler_user := global_handler_user b;
     handlers := handlers b; handlers_user := handlers_user b;
     waitEvents := waitEvents b; connecting_status := connecting_status b;
     connecting_result := connecting_result b;
     recv_max := recv_max b; recv_num := recv_num b |}.

Definition set_bsys (v : Z) (b : BSocket) : BSocket :=
  {| dead := dead b;
     bsys := v;
     type := type b;
     socket := socket b;
     event := event b;
     have_pktinfo := have_pktinfo b;
     error := error b;
     global_handler := global_handler b;
     global_handler_user := global_handler_user b;
     handlers := handlers b;
     handlers_user := handlers_user b;
     waitEvents := waitEvents b;
     connecting_status := connecting_status b;
     connecting_result := connecting_result b;
     recv_max := recv_max b;
     recv_num := recv_num b |}.

Definition set_type (v : socket_type) (b : BSocket) : BSocket :=
  {| dead := dead b;
     bsys := bsys b;
     type := v;
     socket := socket b;
     event := event b;
     have_pktinfo := have_pktinfo b;
     error := error b;
     global_handler := global_handler b;
     global_handler_user := global_handler_user b;
     handlers := handlers b;
     handlers_user := handlers_user b;
     waitEvents := waitEvents b;
     connecting_status := connecting_status b;
     connecting_result := connecting_result b;
     recv_max := recv_max b;
     recv_num := recv_num b |}.

Definition set_socket (v : Z) (b : BSocket) : BSocket :=
  {| dead := dead b;
     bsys := bsys b;
     type := type b;
     socket := v;
     event := event b;
     have_pktinfo := have_pktinfo b;
     error := error b;
     global_handler := global_handler b;
     global_handler_user := global_handler_user b;
     handlers := handlers b;
     handlers_user := handlers_user b;
     waitEvents := waitEvents b;
     connecting_status := connecting_status b;
     connecting_result := connecting_result b;
     recv_max := recv_max b;
     recv_num := recv_num b |}.

Definition set_have_pktinfo (v : bool) (b : BSocket) : BSocket :=
  {| dead := dead b;
     bsys := bsys b;
     type := type b;
     socket := socket b;
     event := event b;
     have_pktinfo := v;
     error := error b;
     global_handler := global_handler b;
     global_handler_user := global_handler_user b;
     handlers := handlers b;
     handlers_user := handlers_user b;
     waitEvents := waitEvents b;
     connecting_status := connecting_status b;
     connecting_result := connecting_result b;
     recv_max := recv_max b;
     recv_num := recv_num b |}.

Definition set_event (v : Z) (b : BSocket) : BSocket :=
  {| dead := dead b; bsys := bsys b; type := type b; socket := socket b;
     event := v; have_pktinfo := have_pktinfo b; error := error b;
     global_handler := global_handler b;
     global_handler_user := global_handler_user b;
     handlers := handlers b; handlers_user := handlers_user b;
     waitEvents := waitEvents b; connecting_status := connecting_status b;
     connecting_result := connecting_result b;
     recv_max := recv_max b; recv_num := recv_num b |}.

Definition set_error (v : bsocket_error) (b : BSocket) : BSocket :=
  {| dead := dead b; bsys := bsys b; type := type b; socket := socket b;
     event := event b; have_pktinfo := have_pktinfo b; error := v;
     global_handler := global_handler b;
     global_handler_user := global_handler_user b;
     handlers := handlers b; handlers_user := handlers_user b;
     waitEvents := waitEvents b; connecting_status := connecting_status b;
     connecting_result := connecting_result b;
     recv_max := recv_max b; recv_num := recv_num b |}.

Definition set_global_handler (h : option BSocket_handler) (b : BSocket)
  : BSocket :=
  {| dead := dead b; bsys := bsys b; type := type b; socket := socket b;
     event := event b; have_pktinfo := have_pktinfo b; error := error b;
     global_handler := h;
     global_handler_user := global_handler_user b;
     handlers := handlers b; handlers_user := handlers_user b;
     waitEvents := waitEvents b; connecting_status := connecting_status b;
     connecting_result := connecting_result b;
     recv_max := recv_max b; recv_num := recv_num b |}.

Definition set_global_handler_user (u : Z) (b : BSocket) : BSocket :=
  {| dead := dead b; bsys := bsys b; type := type b; socket := socket b;
     event := event b; have_pktinfo := have_pktinfo b; error := error b;
     global_handler := global_handler b;
     global_handler_user := u;
     handlers := handlers b; handlers_user := handlers_user b;
     waitEvents := waitEvents b; connecting_status := connecting_status b;
     connecting_result := connecting_result b;
     recv_max := recv_max b; recv_num := recv_num b |}.

Definition set_handlers (hs : array4 (option BSocket_handler)) (b : BSocket)
  : BSocket :=
  {| dead := dead b; bsys := bsys b; type := type b; socket := socket b;
     event := event b; have_pktinfo := have_pktinfo b; error := error b;
     global_handler := global_handler b;
     global_handler_user := global_handler_user b;
     handlers := hs; handlers_user := handlers_user b;
     waitEvents := waitEvents b; connecting_status := connecting_status b;
     connecting_result := connecting_result b;
     recv_max := recv_max b; recv_num := recv_num b |}.

Definition set_handlers_user (us : array4 Z) (b : BSocket) : BSocket :=
  {| dead := dead b; bsys := bsys b; type := type b; socket := socket b;
     event := event b; have_pktinfo := have_pktinfo b; error := error b;
     global_handler := global_handler b;
     global_handler_user := global_handler_user b;
     handlers := handlers b; handlers_user := us;
     waitEvents := waitEvents b; connecting_status := connecting_status b;
     connecting_result := connecting_result b;
     recv_max := recv_max b; recv_num := recv_num b |}.

Definition set_waitEvents (v : Z) (b : BSocket) : BSocket :=
  {| dead := dead b; bsys := bsys b; type := type b; socket := socket b;
     event := event b; have_pktinfo := have_pktinfo b; error := error b;
     global_handler := global_handler b;
     global_handler_user := global_handler_user b;
     handlers := handlers b; handlers_user := handlers_user b;
     waitEvents := v; connecting_status := connecting_status b;
     connecting_result := connecting_result b;
     recv_max := recv_max b; recv_num := recv_num b |}.

Definition set_connecting_status (v : Z) (b : BSocket) : BSocket :=
  {| dead := dead b; bsys := bsys b; type := type b; socket := socket b;
     event := event b; have_pktinfo := have_pktinfo b; error := error b;
     global_handler := global_handler b;
     global_handler_user := global_handler_user b;
     handlers := handlers b; handlers_user := handlers_user b;
     waitEvents := waitEvents b; connecting_status := v;
     connecting_result := connecting_result b;
     recv_max := recv_max b; recv_num := recv_num b |}.

Definition set_connecting_result (v : bsocket_error) (b : BSocket)
  : BSocket :=
  {| dead := dead b; bsys := bsys b; type := type b; socket := socket b;
     event := event b; have_pktinfo := have_pktinfo b; error := error b;
     global_handler := global_handler b;
     global_handler_user := global_handler_user b;
     handlers := handlers b; handlers_user := handlers_user b;
     waitEvents := waitEvents b; connecting_status := connecting_status b;
     connecting_result := v;
     recv_max := recv_max b; recv_num := recv_num b |}.

Definition set_recv_max (v : Z) (b : BSocket) : BSocket :=
  {| dead := dead b; bsys := bsys b; type := type b; socket := socket b;
     event := event b; have_pktinfo := have_pktinfo b; error := error b;
     global_handler := global_handler b;
     global_handler_user := global_handler_user b;
     handlers := handlers b; handlers_user := handlers_user b;
     waitEvents := waitEvents b; connecting_status := connecting_status b;
     connecting_result := connecting_result b;
     recv_max := v; recv_num := recv_num b |}.

Definition set_recv_num (v : Z) (b : BSocket) : BSocket :=
  {| dead := dead b; bsys := bsys b; type := type b; socket := socket b;
     event := event b; have_pktinfo := have_pktinfo b; error := error b;
     global_handler := global_handler b;
     global_handler_user := global_handler_user b;
     handlers := handlers b; handlers_user := handlers_user b;
     waitEvents := waitEvents b; connecting_status := connecting_status b;
     connecting_result := connecting_result b;
     recv_max := recv_max b; recv_num := v |}.

(** ** Calls that leave the file *)

(** The system and reactor calls of BSocket.c with the arguments that matter
    to the caller.  A call that exists on one platform only is named in the
    comment; [SYS_sendmsg] and [SYS_recvmsg] also stand for the functions
    obtained as WSASendMsg and WSARecvMsg.  The payload buffer of a receive
    is filled by the OS and never read by this file, so only its length is
    kept. *)
Inductive syscall : Type :=
| SYS_socket (domain ty : Z)
| SYS_set_nonblocking (fd : Z)
| SYS_setsockopt (fd level optname : Z)
| SYS_getsockopt_SO_ERROR (fd : Z)
| SYS_close (fd : Z)
| SYS_connect (fd : Z) (a : sys_addr)
| SYS_bind (fd : Z) (a : sys_addr)
| SYS_listen (fd backlog : Z)
| SYS_accept (fd : Z)
| SYS_send (fd : Z) (data : list byte) (n flags : Z)
| SYS_recv (fd n : Z)
| SYS_sendto (fd : Z) (data : list byte) (n flags : Z) (a : sys_addr)
| SYS_recvfrom (fd n : Z)
| SYS_sendmsg (fd : Z) (m : msghdr) (flags : Z)
| SYS_recvmsg (fd n controllen : Z)
| SYS_getpeername (fd : Z)
| SYS_WSAIoctl_get_sendmsg (fd : Z)
| SYS_WSAIoctl_get_recvmsg (fd : Z)
| SYS_WSACreateEvent
| SYS_WSACloseEvent (ev : Z)
| SYS_WSAEventSelect (fd ev mask : Z)
| SYS_WSAEnumNetworkEvents (fd ev : Z)
| R_AddFileDescriptor (reactor fd : Z)
| R_RemoveFileDescriptor (reactor fd : Z)
| R_SetFileDescriptorEvents (reactor fd mask : Z)
| R_AddHandle (reactor ev : Z)
| R_EnableHandle (reactor ev : Z)
| R_RemoveHandle (reactor ev : Z).

(** The OS receive primitives. *)
Definition is_recv_primitive (c : syscall) : bool :=
  match c with
  | SYS_recv _ _ | SYS_recvfrom _ _ | SYS_recvmsg _ _ _ => true
  | _ => false
  end.

(** The data-transfer primitives: those and the three sends. *)
Definition is_transfer_primitive (c : syscall) : bool :=
  match c with
  | SYS_send _ _ _ _ | SYS_sendto _ _ _ _ _ | SYS_sendmsg _ _ _ => true
  | _ => is_recv_primitive c
  end.

(** What a call answers: the return value, the error code left in [errno]
    (or returned by WSAGetLastError), and the out-parameters. *)
Record os_reply : Type := {
  r_ret : Z;
  r_errno : errno;
  r_bytes : Z;
  r_soerror : errno;
  r_events : Z;
  r_addr : sys_addr;
  r_control : control_buffer
}.

(** ** State and abort *)

Record World : Type := {
  bs : BSocket;
  os_log : list syscall
}.

(** [Abort] is a failed [ASSERT] or [ASSERT_FORCE]: the process stops. *)
Inductive result (A : Type) : Type :=
| Ok (a : A)
| Abort.
Arguments Abort {A}.

Definition M (A : Type) : Type := World -> result (A * World).

Definition ret {A : Type} (a : A) : M A := fun w => Ok (a, w).

Definition bind {A B : Type} (c : M A) (k : A -> M B) : M B :=
  fun w => match c w with
           | Ok (a, w') => k a w'
           | Abort => Abort
           end.

Notation "x <- c ;; k" := (bind c (fun x => k))
  (at level 61, c at next level, right associativity).
Notation "c ;;; k" := (bind c (fun _ => k))
  (at level 61, right associativity).

(** Modelled from the spec: misc/debug.h is absent.  [ASSERT] stands for
    both ASSERT and ASSERT_FORCE, as in a build with assertions enabled:
    the run stops when the condition is false. *)
Definition ASSERT (b : bool) : M unit :=
  fun w => if b then Ok (tt, w) else Abort.

Definition get_bs : M BSocket := fun w => Ok (bs w, w).

Definition modify_bs (f : BSocket -> BSocket) : M unit :=
  fun w => Ok (tt, {| bs := f (bs w); os_log := os_log w |}).

Definition assert_some {A : Type} (o : option A) : M A :=
  fun w => match o with Some a => Ok (a, w) | None => Abort end.

(** One call of a handler made by the dispatcher: which function, with which
    arguments, and the state it left behind. *)
Record invocation : Type := {
  inv_handler : BSocket_handler;
  inv_user : Z;
  inv_events : Z;
  inv_after : World
}.

(** The [domain] argument of [BSocket_Init]: the tag of a [BAddr]. *)
Inductive addr_domain : Type :=
| BADDR_TYPE_NONE
| BADDR_TYPE_IPV4
| BADDR_TYPE_IPV6.

Definition SOCK_STREAM : Z := 1.
Definition SOCK_DGRAM : Z := 2.
Definition WSA_INVALID_EVENT : Z := 0.

Definition HANDLER_READ : nat := 0.
Definition HANDLER_WRITE : nat := 1.
Definition HANDLER_ACCEPT : nat := 2.
Definition HANDLER_CONNECT : nat := 3.

(** [x & flag] used as a condition. *)
Definition has_flag (x flag : Z) : bool := negb (Z.land x flag =? 0).

(** ** The operations *)

Section Model.

(** The build variant, the environment answering the calls that leave the
    file (it may depend on everything called before), the bodies of the user
    callbacks, and the macros and constants of absent headers. *)
Variable plat : platform.
Variable os : list syscall -> syscall -> os_reply.
Variable handler_body : BSocket_handler -> Z -> Z -> M unit.
Variable CMSG_SPACE : Z -> Z.
Variable CMSG_LEN : Z -> Z.
Variable BSOCKET_DEFAULT_BACKLOG : Z.
Variable BSOCKET_DEFAULT_RECV_MAX : Z.

Definition os_call (c : syscall) : M os_reply :=
  fun w => Ok (os (os_log w) c, {| bs := bs w; os_log := c :: os_log w |}).

Definition no_handlers : array4 (option BSocket_handler) :=
  {| slot0 := None; slot1 := None; slot2 := None; slot3 := None |}.

Definition init_handlers (b : BSocket) : BSocket :=
  set_handlers no_handlers (set_global_handler None b).

Definition set_nonblocking (s : Z) : M Z :=
  r <- os_call (SYS_set_nonblocking s);;
  ret (r_ret r).

Definition set_pktinfo (s : Z) : M Z :=
  r <- os_call (SYS_setsockopt s IPPROTO_IP (IP_PKTINFO plat));;
  ret (r_ret r).

Definition set_pktinfo6 (s : Z) : M Z :=
  r <- os_call (SYS_setsockopt s IPPROTO_IPV6
                  match plat with
                  | Winapi => IPV6_PKTINFO plat
                  | Posix => IPV6_RECVPKTINFO
                  end);;
  ret (r_ret r).

Definition close_socket (fd : Z) : M unit :=
  r <- os_call (SYS_close fd);;
  ASSERT (r_ret r =? 0).

(** [None] is the default case, [ASSERT(0)]. *)
Definition get_event_index (ev : Z) : option nat :=
  if ev =? BSOCKET_READ then Some HANDLER_READ
  else if ev =? BSOCKET_WRITE then Some HANDLER_WRITE
  else if ev =? BSOCKET_ACCEPT then Some HANDLER_ACCEPT
  else if ev =? BSOCKET_CONNECT then Some HANDLER_CONNECT
  else None.

(** Modelled from the spec: misc/dead.h is absent.  The liveness token is the
    flag [dead]: [DEAD_INIT] makes it alive, [DEAD_KILL] marks it dead,
    [DEAD_ENTER] captures it before a handler is called and [DEAD_LEAVE]
    tells afterwards whether the socket was destroyed meanwhile. *)
Definition DEAD_INIT (b : BSocket) : BSocket := set_dead false b.
Definition DEAD_KILL (b : BSocket) : BSocket := set_dead true b.
Definition DEAD_ENTER : M unit := ret tt.
Definition DEAD_LEAVE : M bool := b <- get_bs;; ret (dead b).

(** Calling through a handler pointer. *)
Definition invoke (h : BSocket_handler) (user ev : Z) : M invocation :=
  fun w => match handler_body h user ev w with
           | Ok (_, w') =>
               Ok ({| inv_handler := h; inv_user := user; inv_events := ev;
                      inv_after := w' |}, w')
           | Abort => Abort
           end.

(** The body of one [if (returned_events & EV) { ... }] block of
    [call_handlers], up to and including [DEAD_LEAVE]. *)
Definition call_event_handler (i : nat) (ev : Z) : M (invocation * bool) :=
  b <- get_bs;;
  h <- assert_some (array4_get (handlers b) i);;
  DEAD_ENTER;;;
  inv <- invoke h (array4_get (handlers_user b) i) ev;;
  killed <- DEAD_LEAVE;;
  ret (inv, killed).

(** One such block followed by the rest [k] of the function; [tr] are the
    calls made so far. *)
Definition event_block (i : nat) (ev returned_events : Z)
  (tr : list invocation) (k : list invocation -> M (list invocation))
  : M (list invocation) :=
  if has_flag returned_events ev then
    r <- call_event_handler i ev;;
    if snd r then ret (tr ++ [fst r]) else k (tr ++ [fst r])
  else k tr.

(** [call_handlers].  The C function returns nothing; the value returned here
    is the list of handler calls it made, in the order it made them. *)
Definition call_handlers (returned_events : Z) : M (list invocation) :=
  modify_bs (set_recv_num 0);;;
  b <- get_bs;;
  match global_handler b with
  | Some h =>
      inv <- invoke h (global_handler_user b) returned_events;;
      ret [inv]
  | None =>
      event_block HANDLER_READ BSOCKET_READ returned_events [] (fun tr =>
      event_block HANDLER_WRITE BSOCKET_WRITE returned_events tr (fun tr =>
      event_block HANDLER_ACCEPT BSOCKET_ACCEPT returned_events tr (fun tr =>
      event_block HANDLER_CONNECT BSOCKET_CONNECT returned_events tr (fun tr =>
      ret tr))))
  end.

Definition get_wsa_events (sock_events : Z) : Z :=
  let res := 0 in
  let res := if has_flag sock_events BSOCKET_READ
             then Z.lor res (Z.lor FD_READ FD_CLOSE) else res in
  let res := if has_flag sock_events BSOCKET_WRITE
             then Z.lor res (Z.lor FD_WRITE FD_CLOSE) else res in
  let res := if has_flag sock_events BSOCKET_ACCEPT
             then Z.lor res FD_ACCEPT else res in
  let res := if has_flag sock_events BSOCKET_CONNECT
             then Z.lor res FD_CONNECT else res in
  res.

Definition get_reactor_fd_events (sock_events : Z) : Z :=
  let res := 0 in
  let res := if has_flag sock_events BSOCKET_READ
                || has_flag sock_events BSOCKET_ACCEPT
             then Z.lor res BREACTOR_READ else res in
  let res := if has_flag sock_events BSOCKET_WRITE
                || has_flag sock_events BSOCKET_CONNECT
             then Z.lor res BREACTOR_WRITE else res in
  res.

(** The [switch] on the outcome of a connection attempt, the same in
    [handle_handler] and [file_descriptor_handler]. *)
Definition connect_outcome (e : errno) : bsocket_error :=
  match e with
  | E_ok => BSOCKET_ERROR_NONE
  | ETIMEDOUT => BSOCKET_ERROR_CONNECTION_TIMED_OUT
  | ECONNREFUSED => BSOCKET_ERROR_CONNECTION_REFUSED
  | _ => BSOCKET_ERROR_UNKNOWN
  end.

(** [handle_handler] (Windows backend). *)
Definition handle_handler : M (list invocation) :=
  b <- get_bs;;
  r <- os_call (SYS_WSAEnumNetworkEvents (socket b) (event b));;
  ASSERT (r_ret r =? 0);;;
  let lNetworkEvents := r_events r in
  let returned_events := 0 in
  let returned_events :=
    if has_flag (waitEvents b) BSOCKET_READ
       && (has_flag lNetworkEvents FD_READ || has_flag lNetworkEvents FD_CLOSE)
    then Z.lor returned_events BSOCKET_READ else returned_events in
  let returned_events :=
    if has_flag (waitEvents b) BSOCKET_WRITE
       && (has_flag lNetworkEvents FD_WRITE || has_flag lNetworkEvents FD_CLOSE)
    then Z.lor returned_events BSOCKET_WRITE else returned_events in
  let returned_events :=
    if has_flag (waitEvents b) BSOCKET_ACCEPT
       && has_flag lNetworkEvents FD_ACCEPT
    then Z.lor returned_events BSOCKET_ACCEPT else returned_events in
  if has_flag (waitEvents b) BSOCKET_CONNECT
     && has_flag lNetworkEvents FD_CONNECT
  then
    ASSERT (connecting_status b =? 1);;;
    modify_bs (set_connecting_status 2);;;
    modify_bs (set_connecting_result (connect_outcome (r_soerror r)));;;
    call_handlers (Z.lor returned_events BSOCKET_CONNECT)
  else call_handlers returned_events.

(** [file_descriptor_handler] (POSIX backend). *)
Definition file_descriptor_handler (events : Z) : M (list invocation) :=
  b <- get_bs;;
  let returned_events := 0 in
  let returned_events :=
    if has_flag (waitEvents b) BSOCKET_READ && has_flag events BREACTOR_READ
    then Z.lor returned_events BSOCKET_READ else returned_events in
  let returned_events :=
    if has_flag (waitEvents b) BSOCKET_WRITE && has_flag events BREACTOR_WRITE
    then Z.lor returned_events BSOCKET_WRITE else returned_events in
  let returned_events :=
    if has_flag (waitEvents b) BSOCKET_ACCEPT && has_flag events BREACTOR_READ
    then Z.lor returned_events BSOCKET_ACCEPT else returned_events in
  if has_flag (waitEvents b) BSOCKET_CONNECT && has_flag events BREACTOR_WRITE
  then
    let returned_events := Z.lor returned_events BSOCKET_CONNECT in
    ASSERT (connecting_status b =? 1);;;
    modify_bs (set_connecting_status 2);;;
    r <- os_call (SYS_getsockopt_SO_ERROR (socket b));;
    ASSERT (r_ret r =? 0);;;
    modify_bs (set_connecting_result (connect_outcome (r_soerror r)));;;
    call_handlers returned_events
  else call_handlers returned_events.

(** [init_event_backend], on the socket it is given (the socket being
    initialised, or the new socket of an accept); returns 0 or 1. *)
Definition init_event_backend (s : BSocket) : M (Z * BSocket) :=
  match plat with
  | Winapi =>
      r <- os_call SYS_WSACreateEvent;;
      let s := set_event (r_ret r) s in
      if event s =? WSA_INVALID_EVENT then ret (0, s)
      else
        a <- os_call (R_AddHandle (bsys s) (event s));;
        if r_ret a =? 0 then
          c <- os_call (SYS_WSACloseEvent (event s));;
          ASSERT (negb (r_ret c =? 0));;;
          ret (0, s)
        else
          os_call (R_EnableHandle (bsys s) (event s));;;
          ret (1, s)
  | Posix =>
      a <- os_call (R_AddFileDescriptor (bsys s) (socket s));;
      if r_ret a =? 0 then ret (0, s) else ret (1, s)
  end.

Definition free_event_backend : M unit :=
  b <- get_bs;;
  match plat with
  | Winapi =>
      os_call (R_RemoveHandle (bsys b) (event b));;;
      c <- os_call (SYS_WSACloseEvent (event b));;
      ASSERT (negb (r_ret c =? 0))
  | Posix =>
      os_call (R_RemoveFileDescriptor (bsys b) (socket b));;;
      ret tt
  end.

Definition update_event_backend : M unit :=
  b <- get_bs;;
  match plat with
  | Winapi =>
      r <- os_call (SYS_WSAEventSelect (socket b) (event b)
                      (get_wsa_events (waitEvents b)));;
      ASSERT (r_ret r =? 0)
  | Posix =>
      os_call (R_SetFileDescriptorEvents (bsys b) (socket b)
                 (get_reactor_fd_events (waitEvents b)));;;
      ret tt
  end.

Definition limit_recv : M Z :=
  b <- get_bs;;
  if recv_max b >? 0 then
    if recv_num b >=? recv_max b then ret 1
    else
      modify_bs (set_recv_num (wrap_int (recv_num b + 1)));;;
      ret 0
  else ret 0.

(** The block "initialize variables" shared by [BSocket_Init] and
    [BSocket_Accept], one store after the other. *)
Definition init_variables (reactor : Z) (ty : socket_type) (fd : Z)
  (pktinfo : bool) (b : BSocket) : BSocket :=
  let b := DEAD_INIT b in
  let b := set_bsys reactor b in
  let b := set_type ty b in
  let b := set_socket fd b in
  let b := set_have_pktinfo pktinfo b in
  let b := set_error BSOCKET_ERROR_NONE b in
  let b := init_handlers b in
  let b := set_waitEvents 0 b in
  let b := set_connecting_status 0 b in
  let b := set_recv_max BSOCKET_DEFAULT_RECV_MAX b in
  set_recv_num 0 b.

Definition BSocket_Init (reactor : Z) (domain : addr_domain)
  (ty : socket_type) : M Z :=
  sys_domain <- assert_some match domain with
                            | BADDR_TYPE_IPV4 => Some AF_INET
                            | BADDR_TYPE_IPV6 => Some (AF_INET6 plat)
                            | BADDR_TYPE_NONE => None
                            end;;
  let sys_type := match ty with
                  | BSOCKET_TYPE_STREAM => SOCK_STREAM
                  | BSOCKET_TYPE_DGRAM => SOCK_DGRAM
                  end in
  r <- os_call (SYS_socket sys_domain sys_type);;
  let fd := r_ret r in
  if fd <? 0 then ret (-1)
  else
    nb <- set_nonblocking fd;;
    if negb (nb =? 0) then close_socket fd;;; ret (-1)
    else
      pktinfo <- match ty, domain with
                 | BSOCKET_TYPE_DGRAM, BADDR_TYPE_IPV4 =>
                     x <- set_pktinfo fd;; ret (x =? 0)
                 | BSOCKET_TYPE_DGRAM, BADDR_TYPE_IPV6 =>
                     x <- set_pktinfo6 fd;; ret (x =? 0)
                 | _, _ => ret false
                 end;;
      modify_bs (init_variables reactor ty fd pktinfo);;;
      b <- get_bs;;
      ie <- init_event_backend b;;
      modify_bs (fun _ => snd ie);;;
      if fst ie =? 0 then close_socket fd;;; ret (-1)
      else ret 0.

Definition BSocket_Free : M unit :=
  free_event_backend;;;
  b <- get_bs;;
  close_socket (socket b);;;
  modify_bs DEAD_KILL.

Definition BSocket_SetRecvMax (max : Z) : M unit :=
  ASSERT ((max >? 0) || (max =? -1));;;
  modify_bs (set_recv_max max);;;
  modify_bs (set_recv_num 0).

Definition BSocket_GetError : M bsocket_error :=
  b <- get_bs;; ret (error b).

Definition is_some {A : Type} (o : option A) : bool :=
  match o with Some _ => true | None => false end.

Definition BSocket_AddGlobalEventHandler (handler : option BSocket_handler)
  (user : Z) : M unit :=
  b <- get_bs;;
  ASSERT (is_some handler);;;
  ASSERT (negb (is_some (global_handler b)));;;
  ASSERT (negb (is_some (array4_get (handlers b) 0)));;;
  ASSERT (negb (is_some (array4_get (handlers b) 1)));;;
  ASSERT (negb (is_some (array4_get (handlers b) 2)));;;
  ASSERT (negb (is_some (array4_get (handlers b) 3)));;;
  modify_bs (set_global_handler handler);;;
  modify_bs (set_global_handler_user user).

Definition BSocket_RemoveGlobalEventHandler : M unit :=
  b <- get_bs;;
  ASSERT (is_some (global_handler b));;;
  modify_bs (set_global_handler None);;;
  modify_bs (set_waitEvents 0).

Definition BSocket_SetGlobalEvents (events : Z) : M unit :=
  b <- get_bs;;
  ASSERT (is_some (global_handler b));;;
  modify_bs (set_waitEvents events);;;
  update_event_backend.

Definition BSocket_AddEventHandler (ev : Z)
  (handler : option BSocket_handler) (user : Z) : M unit :=
  b <- get_bs;;
  ASSERT (is_some handler);;;
  ASSERT (negb (is_some (global_handler b)));;;
  i <- assert_some (get_event_index ev);;
  ASSERT (negb (is_some (array4_get (handlers b) i)));;;
  modify_bs (fun b => set_handlers (array4_set (handlers b) i handler) b);;;
  modify_bs (fun b => set_handlers_user (array4_set (handlers_user b) i user) b).

Definition BSocket_DisableEvent (ev : Z) : M unit :=
  index <- assert_some (get_event_index ev);;
  b <- get_bs;;
  ASSERT (is_some (array4_get (handlers b) index));;;
  ASSERT (has_flag (waitEvents b) ev);;;
  modify_bs (fun b => set_waitEvents (Z.land (waitEvents b) (Z.lnot ev)) b);;;
  update_event_backend.

Definition BSocket_RemoveEventHandler (ev : Z) : M unit :=
  i <- assert_some (get_event_index ev);;
  b <- get_bs;;
  ASSERT (is_some (array4_get (handlers b) i));;;
  (if has_flag (waitEvents b) ev then BSocket_DisableEvent ev else ret tt);;;
  modify_bs (fun b => set_handlers (array4_set (handlers b) i None) b).

(** The [switch] under [#ifndef NDEBUG] at the head of
    [BSocket_EnableEvent]. *)
Definition check_incompatible (ev : Z) : M unit :=
  b <- get_bs;;
  if (ev =? BSOCKET_READ) || (ev =? BSOCKET_WRITE) then
    ASSERT (negb (has_flag (waitEvents b) BSOCKET_ACCEPT));;;
    ASSERT (negb (has_flag (waitEvents b) BSOCKET_CONNECT))
  else if ev =? BSOCKET_ACCEPT then
    ASSERT (negb (has_flag (waitEvents b) BSOCKET_READ));;;
    ASSERT (negb (has_flag (waitEvents b) BSOCKET_WRITE));;;
    ASSERT (negb (has_flag (waitEvents b) BSOCKET_CONNECT))
  else if ev =? BSOCKET_CONNECT then
    ASSERT (negb (has_flag (waitEvents b) BSOCKET_READ));;;
    ASSERT (negb (has_flag (waitEvents b) BSOCKET_WRITE));;;
    ASSERT (negb (has_flag (waitEvents b) BSOCKET_ACCEPT))
  else ASSERT false.

Definition BSocket_EnableEvent (ev : Z) : M unit :=
  check_incompatible ev;;;
  b <- get_bs;;
  i <- assert_some (get_event_index ev);;
  ASSERT (is_some (array4_get (handlers b) i));;;
  ASSERT (negb (has_flag (waitEvents b) ev));;;
  modify_bs (fun b => set_waitEvents (Z.lor (waitEvents b) ev) b);;;
  update_event_backend.

(** *** Error mapping *)

(** The [switch] of [BSocket_Connect]: is the failure "pending"? *)
Definition connect_pending (e : errno) : bool :=
  match plat, e with
  | Winapi, EWOULDBLOCK => true
  | Posix, EINPROGRESS => true
  | _, _ => false
  end.

(** The [switch] of [BSocket_Bind] with the fall-through to UNKNOWN. *)
Definition bind_error (e : errno) : bsocket_error :=
  match plat with
  | Winapi =>
      match e with
      | EADDRNOTAVAIL => BSOCKET_ERROR_ADDRESS_NOT_AVAILABLE
      | EADDRINUSE => BSOCKET_ERROR_ADDRESS_IN_USE
      | _ => BSOCKET_ERROR_UNKNOWN
      end
  | Posix =>
      match e with
      | EADDRNOTAVAIL => BSOCKET_ERROR_ADDRESS_NOT_AVAILABLE
      | EADDRINUSE => BSOCKET_ERROR_ADDRESS_IN_USE
      | EACCES => BSOCKET_ERROR_ACCESS_DENIED
      | _ => BSOCKET_ERROR_UNKNOWN
      end
  end.

Definition listen_error (e : errno) : bsocket_error :=
  match e with
  | EADDRINUSE => BSOCKET_ERROR_ADDRESS_IN_USE
  | _ => BSOCKET_ERROR_UNKNOWN
  end.

Definition accept_error (e : errno) : bsocket_error :=
  match plat with
  | Winapi =>
      match e with
      | EWOULDBLOCK => BSOCKET_ERROR_LATER
      | _ => BSOCKET_ERROR_UNKNOWN
      end
  | Posix =>
      match e with
      | EAGAIN | EWOULDBLOCK => BSOCKET_ERROR_LATER
      | _ => BSOCKET_ERROR_UNKNOWN
      end
  end.

(** The [switch] that [BSocket_Send], [BSocket_Recv], [BSocket_SendTo],
    [BSocket_RecvFrom], [BSocket_SendToFrom] and [BSocket_RecvFromTo] each
    carry, with the fall-through (or default case) to UNKNOWN. *)
Definition transfer_error (ty : socket_type) (e : errno) : bsocket_error :=
  match plat with
  | Winapi =>
      match e with
      | EWOULDBLOCK => BSOCKET_ERROR_LATER
      | ECONNRESET =>
          match ty with
          | BSOCKET_TYPE_DGRAM => BSOCKET_ERROR_CONNECTION_REFUSED
          | BSOCKET_TYPE_STREAM => BSOCKET_ERROR_CONNECTION_RESET
          end
      | _ => BSOCKET_ERROR_UNKNOWN
      end
  | Posix =>
      match e with
      | EAGAIN | EWOULDBLOCK => BSOCKET_ERROR_LATER
      | ECONNREFUSED => BSOCKET_ERROR_CONNECTION_REFUSED
      | ECONNRESET => BSOCKET_ERROR_CONNECTION_RESET
      | _ => BSOCKET_ERROR_UNKNOWN
      end
  end.

Definition fail_with (e : bsocket_error) : M Z :=
  modify_bs (set_error e);;;
  ret (-1).

(** *** Connection set-up *)

Definition BSocket_Connect (a : BAddr) : M Z :=
  b <- get_bs;;
  ASSERT (connecting_status b =? 0);;;
  sysaddr <- assert_some (addr_socket_to_sys plat a);;
  r <- os_call (SYS_connect (socket b) sysaddr);;
  if r_ret r <? 0 then
    if connect_pending (r_errno r) then
      modify_bs (set_connecting_status 1);;;
      fail_with BSOCKET_ERROR_IN_PROGRESS
    else fail_with BSOCKET_ERROR_UNKNOWN
  else
    modify_bs (set_error BSOCKET_ERROR_NONE);;;
    ret 0.

Definition BSocket_GetConnectResult : M bsocket_error :=
  b <- get_bs;;
  ASSERT (connecting_status b =? 2);;;
  modify_bs (set_connecting_status 0);;;
  b <- get_bs;;
  ret (connecting_result b).

Definition BSocket_Bind (a : BAddr) : M Z :=
  sysaddr <- assert_some (addr_socket_to_sys plat a);;
  b <- get_bs;;
  match type b with
  | BSOCKET_TYPE_STREAM =>
      os_call (SYS_setsockopt (socket b) (SOL_SOCKET plat)
                 (SO_REUSEADDR plat));;;
      ret tt
  | BSOCKET_TYPE_DGRAM => ret tt
  end;;;
  r <- os_call (SYS_bind (socket b) sysaddr);;
  if r_ret r <? 0 then fail_with (bind_error (r_errno r))
  else
    modify_bs (set_error BSOCKET_ERROR_NONE);;;
    ret 0.

Definition BSocket_Listen (backlog : Z) : M Z :=
  let backlog := if backlog <? 0 then BSOCKET_DEFAULT_BACKLOG else backlog in
  b <- get_bs;;
  r <- os_call (SYS_listen (socket b) backlog);;
  if r_ret r <? 0 then fail_with (listen_error (r_errno r))
  else
    modify_bs (set_error BSOCKET_ERROR_NONE);;;
    ret 0.

(** [BSocket_Accept].  [newsock] is [None] for a NULL pointer and otherwise
    what the pointed-to object held; [want_addr] tells whether [addr] is
    non-NULL.  Returned with the status: the object behind [newsock] when it
    was written, and the address stored through [addr]. *)
Definition BSocket_Accept (newsock : option BSocket) (want_addr : bool)
  : M (Z * option BSocket * option BAddr) :=
  b <- get_bs;;
  r <- os_call (SYS_accept (socket b));;
  let fd := r_ret r in
  let fail0 (ns : option BSocket) : M (Z * option BSocket * option BAddr) :=
    close_socket fd;;;
    modify_bs (set_error BSOCKET_ERROR_UNKNOWN);;;
    ret (-1, ns, None) in
  let finish (ns : option BSocket) : M (Z * option BSocket * option BAddr) :=
    a <- (if want_addr
          then x <- assert_some (addr_sys_to_socket plat (r_addr r));;
               ret (Some x)
          else ret None);;
    modify_bs (set_error BSOCKET_ERROR_NONE);;;
    ret (0, ns, a) in
  if fd <? 0 then
    modify_bs (set_error (accept_error (r_errno r)));;;
    ret (-1, None, None)
  else
    match newsock with
    | None =>
        close_socket fd;;;
        finish None
    | Some ns0 =>
        nb <- set_nonblocking fd;;
        if negb (nb =? 0) then fail0 None
        else
          ie <- init_event_backend
                  (init_variables (bsys b) (type b) fd false ns0);;
          if fst ie =? 0 then fail0 (Some (snd ie))
          else finish (Some (snd ie))
    end.

(** *** Data transfer *)

Definition send_flags : Z :=
  match plat with Winapi => 0 | Posix => MSG_NOSIGNAL end.

Definition BSocket_Send (data : list byte) (n : Z) : M Z :=
  ASSERT (n >=? 0);;;
  b <- get_bs;;
  r <- os_call (SYS_send (socket b) data n send_flags);;
  let bytes := r_ret r in
  if bytes <? 0 then fail_with (transfer_error (type b) (r_errno r))
  else
    modify_bs (set_error BSOCKET_ERROR_NONE);;;
    ret bytes.

Definition BSocket_Recv (n : Z) : M Z :=
  ASSERT (n >=? 0);;;
  limited <- limit_recv;;
  if negb (limited =? 0) then fail_with BSOCKET_ERROR_LATER
  else
    b <- get_bs;;
    r <- os_call (SYS_recv (socket b) n);;
    let bytes := r_ret r in
    if bytes <? 0 then fail_with (transfer_error (type b) (r_errno r))
    else
      modify_bs (set_error BSOCKET_ERROR_NONE);;;
      ret bytes.

Definition BSocket_SendTo (data : list byte) (n : Z) (a : BAddr) : M Z :=
  ASSERT (n >=? 0);;;
  remote_sysaddr <- assert_some (addr_socket_to_sys plat a);;
  b <- get_bs;;
  r <- os_call (SYS_sendto (socket b) data n send_flags remote_sysaddr);;
  let bytes := r_ret r in
  if bytes <? 0 then fail_with (transfer_error (type b) (r_errno r))
  else
    modify_bs (set_error BSOCKET_ERROR_NONE);;;
    ret bytes.

(** Returned with the byte count: the address stored through [addr], if one
    was stored. *)
Definition BSocket_RecvFrom (n : Z) : M (Z * option BAddr) :=
  ASSERT (n >=? 0);;;
  limited <- limit_recv;;
  if negb (limited =? 0) then
    modify_bs (set_error BSOCKET_ERROR_LATER);;;
    ret (-1, None)
  else
    b <- get_bs;;
    r <- os_call (SYS_recvfrom (socket b) n);;
    let bytes := r_ret r in
    if bytes <? 0 then
      modify_bs (set_error (transfer_error (type b) (r_errno r)));;;
      ret (-1, None)
    else
      a <- assert_some (addr_sys_to_socket plat (r_addr r));;
      modify_bs (set_error BSOCKET_ERROR_NONE);;;
      ret (bytes, Some a).

(** *** Send with source, receive with destination *)

(** The control record built for an IPv4 hint: the area is zeroed, then the
    header and the source-selection field are written. *)
Definition pktinfo_record (ip : Z) : cmsg_out :=
  {| out_level := IPPROTO_IP;
     out_type := IP_PKTINFO plat;
     out_len := CMSG_LEN (sizeof_in_pktinfo plat);
     out_data :=
       Data_in match plat with
               | Winapi =>
                   {| ipi_ifindex := 0; ipi_spec_dst := 0; ipi_addr := ip |}
               | Posix =>
                   {| ipi_ifindex := 0; ipi_spec_dst := ip; ipi_addr := 0 |}
               end |}.

Definition pktinfo6_record (ip : list byte) : cmsg_out :=
  {| out_level := IPPROTO_IPV6;
     out_type := IPV6_PKTINFO plat;
     out_len := CMSG_LEN sizeof_in6_pktinfo;
     out_data := Data_in6 {| ipi6_addr := memcpy16 ip; ipi6_ifindex := 0 |} |}.

(** The [switch (local_addr->type)] of [BSocket_SendToFrom]: the records
    written into [cdata] and the value of [sum]. *)
Definition build_control (local_addr : BIPAddr) : list cmsg_out * Z :=
  let sum := 0 in
  match local_addr with
  | BIPAddr_none => ([], sum)
  | BIPAddr_ipv4 ip =>
      ([pktinfo_record ip], sum + CMSG_SPACE (sizeof_in_pktinfo plat))
  | BIPAddr_ipv6 ip =>
      ([pktinfo6_record ip], sum + CMSG_SPACE sizeof_in6_pktinfo)
  end.

(** Obtaining the extension function; always there on POSIX. *)
Definition obtain_extension (c : syscall) : M bool :=
  match plat with
  | Winapi => r <- os_call c;; ret (r_ret r =? 0)
  | Posix => ret true
  end.

Definition BSocket_SendToFrom (data : list byte) (n : Z) (a : BAddr)
  (local_addr : BIPAddr) : M Z :=
  ASSERT (n >=? 0);;;
  b <- get_bs;;
  if negb (have_pktinfo b) then BSocket_SendTo data n a
  else
    have_fn <- obtain_extension (SYS_WSAIoctl_get_sendmsg (socket b));;
    if negb have_fn then BSocket_SendTo data n a
    else
      remote_sysaddr <- assert_some (addr_socket_to_sys plat a);;
      let msg := {| msg_name := remote_sysaddr;
                    msg_iov_base := data;
                    msg_iov_len := n;
                    msg_control := fst (build_control local_addr);
                    msg_controllen := snd (build_control local_addr) |} in
      r <- os_call (SYS_sendmsg (socket b) msg send_flags);;
      match plat with
      | Winapi =>
          if negb (r_ret r =? 0)
          then fail_with (transfer_error (type b) (r_errno r))
          else
            modify_bs (set_error BSOCKET_ERROR_NONE);;;
            ret (wrap_int (r_bytes r))
      | Posix =>
          let bytes := r_ret r in
          if bytes <? 0
          then fail_with (transfer_error (type b) (r_errno r))
          else
            modify_bs (set_error BSOCKET_ERROR_NONE);;;
            ret bytes
      end.

Definition recvfromto_fallback (n : Z)
  : M (Z * option BAddr * option BIPAddr) :=
  res <- BSocket_RecvFrom n;;
  if fst res >=? 0 then ret (fst res, snd res, Some BIPAddr_InitInvalid)
  else ret (fst res, snd res, None).

(** [sizeof(cdata)]: room for one record of either kind. *)
Definition sizeof_cdata : Z :=
  Z.max (CMSG_SPACE (sizeof_in_pktinfo plat)) (CMSG_SPACE sizeof_in6_pktinfo).

(** Modelled from the platform headers, which are absent: the walk of
    CMSG_FIRSTHDR and CMSG_NXTHDR (WSA_CMSG_FIRSTHDR and WSA_CMSG_NXTHDR)
    through the [controllen] bytes of the buffer.  The record at offset
    [ofs] is visited when a header, CMSG_LEN(0) bytes, fits in what is left
    of the buffer; the next one lies its length, padded, further on.
    Returned are the records visited, each with its offset; headers that
    the buffer has no room for are never looked at. *)
Fixpoint cmsg_walk (controllen ofs : Z) (headers : list cmsg_in)
  : list (Z * cmsg_in) :=
  match headers with
  | [] => []
  | c :: rest =>
      if ofs + CMSG_LEN 0 <=? controllen then
        (ofs, c)
        :: cmsg_walk controllen (ofs + CMSG_SPACE (cmsg_len c - CMSG_LEN 0))
             rest
      else []
  end.

(** One turn of the loop over the control records, for the record at
    offset [fst oc] of the buffer [cb].  CMSG_DATA is CMSG_LEN(0) bytes
    behind the header; the structure is read there without a look at
    [cmsg_len]. *)
Definition scan_cmsg (cb : control_buffer) (local_addr : BIPAddr)
  (oc : Z * cmsg_in) : BIPAddr :=
  let ofs := fst oc in
  let c := snd oc in
  if (cmsg_level c =? IPPROTO_IP) && (cmsg_type c =? IP_PKTINFO plat) then
    BIPAddr_InitIPv4 (ipi_addr (cb_in_pktinfo cb (ofs + CMSG_LEN 0)))
  else if (cmsg_level c =? IPPROTO_IPV6)
          && (cmsg_type c =? IPV6_PKTINFO plat) then
    BIPAddr_InitIPv6 (ipi6_addr (cb_in6_pktinfo cb (ofs + CMSG_LEN 0)))
  else local_addr.

Definition BSocket_RecvFromTo (n : Z)
  : M (Z * option BAddr * option BIPAddr) :=
  ASSERT (n >=? 0);;;
  b <- get_bs;;
  if negb (have_pktinfo b) then recvfromto_fallback n
  else
    have_fn <- obtain_extension (SYS_WSAIoctl_get_recvmsg (socket b));;
    if negb have_fn then recvfromto_fallback n
    else
      limited <- limit_recv;;
      if negb (limited =? 0) then
        modify_bs (set_error BSOCKET_ERROR_LATER);;;
        ret (-1, None, None)
      else
        r <- os_call (SYS_recvmsg (socket b) n sizeof_cdata);;
        let failed := match plat with
                      | Winapi => negb (r_ret r =? 0)
                      | Posix => r_ret r <? 0
                      end in
        let bytes := match plat with
                     | Winapi => wrap_int (r_bytes r)
                     | Posix => r_ret r
                     end in
        if failed then
          modify_bs (set_error (transfer_error (type b) (r_errno r)));;;
          ret (-1, None, None)
        else
          a <- assert_some (addr_sys_to_socket plat (r_addr r));;
          let local_addr :=
            fold_left (scan_cmsg (r_control r))
              (cmsg_walk sizeof_cdata 0 (cb_headers (r_control r)))
              BIPAddr_InitInvalid in
          modify_bs (set_error BSOCKET_ERROR_NONE);;;
          ret (bytes, Some a, Some local_addr).

Definition BSocket_GetPeerName : M (Z * option BAddr) :=
  b <- get_bs;;
  r <- os_call (SYS_getpeername (socket b));;
  if r_ret r <? 0 then
    modify_bs (set_error BSOCKET_ERROR_UNKNOWN);;;
    ret (-1, None)
  else
    a <- assert_some (addr_sys_to_socket plat (r_addr r));;
    modify_bs (set_error BSOCKET_ERROR_NONE);;;
    ret (0, Some a).

End Model.

(** ** Vocabulary of the statements *)

(** The fallible operations, with the arguments of a call. *)
Inductive sock_op : Type :=
| Op_connect (a : BAddr)
| Op_bind (a : BAddr)
| Op_listen (backlog : Z)
| Op_accept (newsock : option BSocket) (want_addr : bool)
| Op_send (data : list byte) (n : Z)
| Op_recv (n : Z)
| Op_send_to (data : list byte) (n : Z) (a : BAddr)
| Op_recv_from (n : Z)
| Op_send_to_from (data : list byte) (n : Z) (a : BAddr) (local : BIPAddr)
| Op_recv_from_to (n : Z)
| Op_get_peer_name.

(** The six data-transfer operations among them. *)
Definition is_transfer_op (op : sock_op) : bool :=
  match op with
  | Op_send _ _ | Op_recv _ | Op_send_to _ _ _ | Op_recv_from _
  | Op_send_to_from _ _ _ _ | Op_recv_from_to _ => true
  | _ => false
  end.

Definition is_recv_op (op : sock_op) : bool :=
  match op with
  | Op_recv _ | Op_recv_from _ | Op_recv_from_to _ => true
  | _ => false
  end.

(** What the caller must provide for the assertions at the head of an
    operation to hold: a non-negative length and an IPv4 or IPv6 address. *)
Definition op_args_ok (op : sock_op) : bool :=
  match op with
  | Op_connect a | Op_bind a => BAddr_validb a
  | Op_send _ n | Op_recv n | Op_recv_from n | Op_recv_from_to n => n >=? 0
  | Op_send_to _ n a | Op_send_to_from _ n a _ => (n >=? 0) && BAddr_validb a
  | Op_listen _ | Op_accept _ _ | Op_get_peer_name => true
  end.

Section Calls.

Variable plat : platform.
Variable os : list syscall -> syscall -> os_reply.
Variable CMSG_SPACE : Z -> Z.
Variable CMSG_LEN : Z -> Z.
Variable BSOCKET_DEFAULT_BACKLOG : Z.
Variable BSOCKET_DEFAULT_RECV_MAX : Z.

(** The status an operation returns (its [int] result). *)
Definition run_op (op : sock_op) : M Z :=
  match op with
  | Op_connect a => BSocket_Connect plat os a
  | Op_bind a => BSocket_Bind plat os a
  | Op_listen backlog => BSocket_Listen os BSOCKET_DEFAULT_BACKLOG backlog
  | Op_accept newsock want_addr =>
      r <- BSocket_Accept plat os BSOCKET_DEFAULT_RECV_MAX newsock want_addr;;
      ret (fst (fst r))
  | Op_send data n => BSocket_Send plat os data n
  | Op_recv n => BSocket_Recv plat os n
  | Op_send_to data n a => BSocket_SendTo plat os data n a
  | Op_recv_from n => r <- BSocket_RecvFrom plat os n;; ret (fst r)
  | Op_send_to_from data n a local =>
      BSocket_SendToFrom plat os CMSG_SPACE CMSG_LEN data n a local
  | Op_recv_from_to n =>
      r <- BSocket_RecvFromTo plat os CMSG_SPACE CMSG_LEN n;;
      ret (fst (fst r))
  | Op_get_peer_name => r <- BSocket_GetPeerName plat os;; ret (fst r)
  end.

End Calls.

(** The error slot agrees with the status returned: success (a status that
    is not negative) goes with NONE, failure is the status -1 and goes with
    another kind. *)
Definition status_matches_error (status : Z) (w : World) : Prop :=
  (0 <= status <-> error (bs w) = BSOCKET_ERROR_NONE) /\
  (status < 0 -> status = -1 /\ error (bs w) <> BSOCKET_ERROR_NONE).

(** The byte counts that WSASendMsg and WSARecvMsg report fit an [int]. *)
Definition os_counts_sane (os : list syscall -> syscall -> os_reply) : Prop :=
  forall l c, 0 <= r_bytes (os l c) <= INT_MAX.

(** What the OS owes the caller for an operation not to stop on an
    assertion: the addresses it hands back are IPv4 or IPv6 addresses of the
    right length, closing a descriptor answers 0, and WSACloseEvent does not
    answer 0. *)
Definition os_well_behaved (plat : platform)
  (os : list syscall -> syscall -> os_reply) : Prop :=
  forall l c,
    addr_sys_to_socket plat (r_addr (os l c)) <> None /\
    (forall fd, c = SYS_close fd -> r_ret (os l c) = 0) /\
    (forall ev, c = SYS_WSACloseEvent ev -> r_ret (os l c) <> 0).

(** What the caller owes: arguments that pass the assertions, and no
    connection attempt under way when starting one. *)
Definition op_ready (op : sock_op) (w : World) : Prop :=
  op_args_ok op = true /\
  match op with
  | Op_connect _ => connecting_status (bs w) = 0
  | _ => True
  end.

(** The state a dispatch starts its handlers from. *)
Definition reset_recv_num (w : World) : World :=
  {| bs := set_recv_num 0 (bs w); os_log := os_log w |}.

(** ** Concrete sockets and environments, for the examples *)

Module Sample.

Definition loopback : BAddr := BAddr_ipv4 16777343 20480.

Definition loopback_sys : sys_addr :=
  {| len := sizeof_sockaddr_in;
     addr := U_ipv4 {| sin_family := AF_INET; sin_port := 20480;
                       sin_addr := 16777343 |} |}.

Definition reply (status : Z) (e : errno) : os_reply :=
  {| r_ret := status; r_errno := e; r_bytes := 0; r_soerror := E_ok;
     r_events := 0; r_addr := loopback_sys; r_control := no_control |}.

(** An environment in which every call answers the same. *)
Definition os_always (r : os_reply) : list syscall -> syscall -> os_reply :=
  fun _ _ => r.

(** An environment in which every call answers status 1, except the calls
    selected by [special], which answer [r]. *)
Definition os_except (special : syscall -> bool) (r : os_reply)
  : list syscall -> syscall -> os_reply :=
  fun _ c => if special c then r else reply 1 E_ok.

Definition fresh (ty : socket_type) (pktinfo : bool) : BSocket :=
  {| dead := false; bsys := 1; type := ty; socket := 3; event := 0;
     have_pktinfo := pktinfo; error := BSOCKET_ERROR_NONE;
     global_handler := None; global_handler_user := 0;
     handlers := {| slot0 := None; slot1 := None; slot2 := None;
                    slot3 := None |};
     handlers_user := {| slot0 := 0; slot1 := 0; slot2 := 0; slot3 := 0 |};
     waitEvents := 0; connecting_status := 0;
     connecting_result := BSOCKET_ERROR_NONE;
     recv_max := 2; recv_num := 0 |}.

Definition world (b : BSocket) : World := {| bs := b; os_log := [] |}.

(** Callbacks that do nothing. *)
Definition quiet : BSocket_handler -> Z -> Z -> M unit :=
  fun _ _ _ => ret tt.

(** Callbacks of which number 7 destroys the socket. *)
Definition closing : BSocket_handler -> Z -> Z -> M unit :=
  fun h _ _ => if h =? 7 then modify_bs DEAD_KILL else ret tt.

Definition cmsg_space (n : Z) : Z := 16 + 8 * ((n + 7) / 8).
Definition cmsg_len (n : Z) : Z := 16 + n.

(** What the memory of a control buffer holds when the IPv4 packet
    information for 127.0.0.1, arrived on interface 1, lies at offset
    [at_offset]. *)
Definition pktinfo_at (at_offset : Z) : control_buffer :=
  {| cb_headers := [];
     cb_in_pktinfo := fun o =>
       if o =? at_offset
       then {| ipi_ifindex := 1; ipi_spec_dst := 16777343;
               ipi_addr := 16777343 |}
       else {| ipi_ifindex := 0; ipi_spec_dst := 0; ipi_addr := 0 |};
     cb_in6_pktinfo := fun _ => {| ipi6_addr := []; ipi6_ifindex := 0 |} |}.

Definition received (cb : control_buffer) : os_reply :=
  {| r_ret := 1; r_errno := E_ok; r_bytes := 1; r_soerror := E_ok;
     r_events := 0; r_addr := loopback_sys; r_control := cb |}.


(** The same behind a timestamp, a record of level 1 and type 29 with 16
    bytes of payload: the two would need 64 bytes, so the second lies
    beyond the buffer. *)
Definition behind_timestamp : os_reply :=
  received
    {| cb_headers := [Build_cmsg_in 32 1 29;
                      Build_cmsg_in 28 IPPROTO_IP (IP_PKTINFO Posix)];
       cb_in_pktinfo := cb_in_pktinfo (pktinfo_at 48);
       cb_in6_pktinfo := cb_in6_pktinfo (pktinfo_at 48) |}.

(** A record with 8 bytes of payload followed by a packet-information
    record cut short to its header, which ends where the buffer ends: the
    structure read for it lies wholly beyond the buffer. *)
Definition cut_short : os_reply :=
  received
    {| cb_headers := [Build_cmsg_in 24 1 29;
                      Build_cmsg_in 16 IPPROTO_IP (IP_PKTINFO Posix)];
       cb_in_pktinfo := cb_in_pktinfo (pktinfo_at 40);
       cb_in6_pktinfo := cb_in6_pktinfo (pktinfo_at 40) |}.

(** An environment with nothing to read: the receive primitives answer
    "would block", closing answers 0, everything else 1. *)
Definition os_would_block : list syscall -> syscall -> os_reply :=
  fun _ c =>
    if is_recv_primitive c then reply (-1) EAGAIN
    else match c with
         | SYS_close _ => reply 0 E_ok
         | _ => reply 1 E_ok
         end.

(** The environment of a socket that opens without trouble: setting
    non-blocking mode answers 0, everything else 1. *)
Definition os_opening : list syscall -> syscall -> os_reply :=
  os_except (fun c => match c with
                       | SYS_set_nonblocking _ => true
                       | _ => false
                       end) (reply 0 E_ok).

End Sample.

(** ** Vocabulary: connection reset *)

(** Every data-transfer primitive fails and reports "connection reset by
    peer". *)
Definition reports_reset (os : list syscall -> syscall -> os_reply) : Prop :=
  forall l c, is_transfer_primitive c = true ->
              r_ret (os l c) < 0 /\ r_errno (os l c) = ECONNRESET.

(** The receive quota is not used up. *)
Definition quota_left (b : BSocket) : Prop :=
  recv_max b > 0 -> recv_num b < recv_max b.

(** What a reported connection reset becomes. *)
Definition reset_kind (plat : platform) (ty : socket_type) : bsocket_error :=
  match plat, ty with
  | Winapi, BSOCKET_TYPE_DGRAM => BSOCKET_ERROR_CONNECTION_REFUSED
  | _, _ => BSOCKET_ERROR_CONNECTION_RESET
  end.

(** ** Vocabulary: control messages *)

(** The size of the structure a built record carries. *)
Definition payload_size (plat : platform) (d : pktinfo_data) : Z :=
  match d with
  | Data_in _ => sizeof_in_pktinfo plat
  | Data_in6 _ => sizeof_in6_pktinfo
  end.

(** The sum of [CMSG_SPACE(payload)] over the records of a control buffer. *)
Definition control_space (CMSG_SPACE : Z -> Z) (plat : platform)
  (cs : list cmsg_out) : Z :=
  fold_right (fun c acc => CMSG_SPACE (payload_size plat (out_data c)) + acc)
    0 cs.

(** The field of [struct in_pktinfo] that selects the source address of an
    outgoing datagram. *)
Definition source_selection (plat : platform) (p : in_pktinfo) : Z :=
  match plat with
  | Posix => ipi_spec_dst p
  | Winapi => ipi_addr p
  end.

(** The call log after the extension function was asked for (which happens
    under [Winapi] only). *)
Definition log_after_extension (plat : platform) (c : syscall)
  (l : list syscall) : list syscall :=
  match plat with
  | Winapi => c :: l
  | Posix => l
  end.

(** The two kinds of record [BSocket_RecvFromTo] looks for. *)
Definition is_pktinfo4 (plat : platform) (c : cmsg_in) : bool :=
  (cmsg_level c =? IPPROTO_IP) && (cmsg_type c =? IP_PKTINFO plat).

Definition is_pktinfo6 (plat : platform) (c : cmsg_in) : bool :=
  (cmsg_level c =? IPPROTO_IPV6) && (cmsg_type c =? IPV6_PKTINFO plat).



(** The record holds the whole of the structure that is read for it: its
    length covers the header and that structure. *)
Definition cmsg_complete (plat : platform) (CMSG_LEN : Z -> Z)
  (c : cmsg_in) : bool :=
  if is_pktinfo4 plat c then CMSG_LEN (sizeof_in_pktinfo plat) <=? cmsg_len c
  else if is_pktinfo6 plat c then CMSG_LEN sizeof_in6_pktinfo <=? cmsg_len c
  else true.

(** The structure read for the record at offset [fst oc] ends within the
    [controllen] bytes of the buffer. *)
Definition read_within (plat : platform) (CMSG_LEN : Z -> Z)
  (controllen : Z) (oc : Z * cmsg_in) : bool :=
  if is_pktinfo4 plat (snd oc)
  then fst oc + CMSG_LEN (sizeof_in_pktinfo plat) <=? controllen
  else if is_pktinfo6 plat (snd oc)
       then fst oc + CMSG_LEN sizeof_in6_pktinfo <=? controllen
       else true.


(** ** Vocabulary: dispatch *)

(** The events of a returned set in the order the dispatcher looks at them. *)
Definition dispatch_order (returned_events : Z) : list Z :=
  filter (has_flag returned_events)
    [BSOCKET_READ; BSOCKET_WRITE; BSOCKET_ACCEPT; BSOCKET_CONNECT].

(** The call [inv] was made through the per-event table as it stood in [w]:
    the handler and user pointer are those of the slot of the one event
    passed. *)
Definition called_as_event (w : World) (inv : invocation) : Prop :=
  exists i, get_event_index (inv_events inv) = Some i /\
            array4_get (handlers (bs w)) i = Some (inv_handler inv) /\
            array4_get (handlers_user (bs w)) i = inv_user inv.

(** A run of handler calls: each handler starts from the state its
    predecessor left (the first from the given state), nothing changes the
    state between or after them, and a handler that leaves the socket
    destroyed is the last. *)
Inductive handler_chain (handler_body : BSocket_handler -> Z -> Z -> M unit)
  (source : World -> invocation -> Prop)
  : World -> list invocation -> World -> Prop :=
| chain_nil (w : World) : handler_chain handler_body source w [] w
| chain_cons (w : World) (inv : invocation) (rest : list invocation)
    (w' : World) :
    source w inv ->
    handler_body (inv_handler inv) (inv_user inv) (inv_events inv) w =
    Ok (tt, inv_after inv) ->
    (dead (bs (inv_after inv)) = true -> rest = []) ->
    handler_chain handler_body source (inv_after inv) rest w' ->
    handler_chain handler_body source w (inv :: rest) w'.

(** A sequence of [if (returned_events & EV) { ... }] blocks, for any list
    of slots and events; [call_handlers] is the instance with the four
    blocks of the source. *)
Fixpoint blocks (handler_body : BSocket_handler -> Z -> Z -> M unit)
  (l : list (nat * Z)) (returned_events : Z) (tr : list invocation)
  : M (list invocation) :=
  match l with
  | [] => ret tr
  | (i, ev) :: t =>
      event_block handler_body i ev returned_events tr
        (fun tr' => blocks handler_body t returned_events tr')
  end.

Definition dispatch_blocks : list (nat * Z) :=
  [(HANDLER_READ, BSOCKET_READ); (HANDLER_WRITE, BSOCKET_WRITE);
   (HANDLER_ACCEPT, BSOCKET_ACCEPT); (HANDLER_CONNECT, BSOCKET_CONNECT)].

(** ** Vocabulary: the receive quota *)

Section Sequences.

Variable plat : platform.
Variable os : list syscall -> syscall -> os_reply.
Variable CMSG_SPACE : Z -> Z.
Variable CMSG_LEN : Z -> Z.
Variable BSOCKET_DEFAULT_BACKLOG : Z.
Variable BSOCKET_DEFAULT_RECV_MAX : Z.

(** Calls made one after the other; the statuses they returned. *)
Fixpoint run_ops (ops : list sock_op) : M (list Z) :=
  match ops with
  | [] => ret []
  | op :: t =>
      s <- run_op plat os CMSG_SPACE CMSG_LEN BSOCKET_DEFAULT_BACKLOG
             BSOCKET_DEFAULT_RECV_MAX op;;
      ss <- run_ops t;;
      ret (s :: ss)
  end.

End Sequences.

(** What a receive call does with the quota: it is refused without any
    receive primitive being called, or it is counted and goes to the OS, or
    no cap is set and it goes to the OS uncounted. *)
Definition quota_outcome (w : World) (s : Z) (w' : World) : Prop :=
  (0 < recv_max (bs w) <= recv_num (bs w) /\ s = -1 /\
   error (bs w') = BSOCKET_ERROR_LATER /\
   recv_num (bs w') = recv_num (bs w) /\
   filter is_recv_primitive (os_log w') =
   filter is_recv_primitive (os_log w)) \/
  (0 < recv_max (bs w) /\ recv_num (bs w) < recv_max (bs w) /\
   recv_num (bs w') = wrap_int (recv_num (bs w) + 1) /\
   exists c l, os_log w' = c :: l /\ is_recv_primitive c = true) \/
  (recv_max (bs w) <= 0 /\ recv_num (bs w') = recv_num (bs w) /\
   exists c l, os_log w' = c :: l /\ is_recv_primitive c = true).

(** ** Vocabulary: the enabled events *)

(** No two of the families {READ or WRITE}, {ACCEPT}, {CONNECT} are present
    in an event set. *)
Definition families_exclusive (events : Z) : bool :=
  let rw := has_flag events BSOCKET_READ || has_flag events BSOCKET_WRITE in
  let a := has_flag events BSOCKET_ACCEPT in
  let c := has_flag events BSOCKET_CONNECT in
  negb (rw && a) && negb (rw && c) && negb (a && c).

(** The calls a user can make on a socket once it is initialised. *)
Inductive api_call : Type :=
| Call_op (op : sock_op)
| Call_set_recv_max (max : Z)
| Call_get_connect_result
| Call_add_global_handler (handler : option BSocket_handler) (user : Z)
| Call_remove_global_handler
| Call_set_global_events (events : Z)
| Call_add_event_handler (ev : Z) (handler : option BSocket_handler)
    (user : Z)
| Call_remove_event_handler (ev : Z)
| Call_enable_event (ev : Z)
| Call_disable_event (ev : Z).

(** Every mask handed to [BSocket_SetGlobalEvents] is itself free of two
    families. *)
Definition mask_compatible (c : api_call) : bool :=
  match c with
  | Call_set_global_events events => families_exclusive events
  | _ => true
  end.

Definition any_call (c : api_call) : bool := true.

Section Reachability.

Variable plat : platform.
Variable os : list syscall -> syscall -> os_reply.
Variable CMSG_SPACE : Z -> Z.
Variable CMSG_LEN : Z -> Z.
Variable BSOCKET_DEFAULT_BACKLOG : Z.
Variable BSOCKET_DEFAULT_RECV_MAX : Z.

Definition run_call (c : api_call) : M unit :=
  match c with
  | Call_op op =>
      run_op plat os CMSG_SPACE CMSG_LEN BSOCKET_DEFAULT_BACKLOG
        BSOCKET_DEFAULT_RECV_MAX op;;;
      ret tt
  | Call_set_recv_max max => BSocket_SetRecvMax max
  | Call_get_connect_result => BSocket_GetConnectResult;;; ret tt
  | Call_add_global_handler handler user =>
      BSocket_AddGlobalEventHandler handler user
  | Call_remove_global_handler => BSocket_RemoveGlobalEventHandler
  | Call_set_global_events events => BSocket_SetGlobalEvents plat os events
  | Call_add_event_handler ev handler user =>
      BSocket_AddEventHandler ev handler user
  | Call_remove_event_handler ev => BSocket_RemoveEventHandler plat os ev
  | Call_enable_event ev => BSocket_EnableEvent plat os ev
  | Call_disable_event ev => BSocket_DisableEvent plat os ev
  end.

(** A dispatch as the reactor makes it: [file_descriptor_handler] with the
    readiness the reactor saw (POSIX), or [handle_handler] (Windows); both
    end in [call_handlers], with the callbacks [handler_body]. *)
Definition backend_dispatch
  (handler_body : BSocket_handler -> Z -> Z -> M unit) (events : Z)
  : M (list invocation) :=
  match plat with
  | Posix => file_descriptor_handler os handler_body events
  | Winapi => handle_handler os handler_body
  end.

(** What a callback does to the socket it is called for: calls of the
    interface satisfying [allowed], one after the other. *)
Inductive interface_path (allowed : api_call -> bool)
  : World -> World -> Prop :=
| path_here (w : World) : interface_path allowed w w
| path_call (w : World) (c : api_call) (w1 w' : World) :
    allowed c = true ->
    run_call c w = Ok (tt, w1) ->
    interface_path allowed w1 w' ->
    interface_path allowed w w'.

(** The callbacks reach the socket through its interface only. *)
Definition handlers_use_interface (allowed : api_call -> bool)
  (handler_body : BSocket_handler -> Z -> Z -> M unit) : Prop :=
  forall h user ev w w',
    handler_body h user ev w = Ok (tt, w') -> interface_path allowed w w'.

(** The states of a socket in use: those that a successful [BSocket_Init],
    or a successful [BSocket_Accept] creating it, leaves, and from there on
    those left by a call satisfying [allowed] and those left by a dispatch
    of the backend, whatever the readiness reported and whatever the
    callbacks, as long as these reach the socket through calls satisfying
    [allowed].  (A callback that frees the socket ends its use: no state
    follows.) *)
Inductive reachable (allowed : api_call -> bool) : World -> Prop :=
| reach_init (w0 : World) (reactor : Z) (domain : addr_domain)
    (ty : socket_type) (w : World) :
    BSocket_Init plat os BSOCKET_DEFAULT_RECV_MAX reactor domain ty w0 =
    Ok (0, w) ->
    reachable allowed w
| reach_accept (listener : World) (ns0 : BSocket) (want_addr : bool)
    (ns : BSocket) (a : option BAddr) (listener' : World) :
    BSocket_Accept plat os BSOCKET_DEFAULT_RECV_MAX (Some ns0) want_addr
      listener = Ok ((0, Some ns, a), listener') ->
    reachable allowed {| bs := ns; os_log := os_log listener' |}
| reach_step (w : World) (c : api_call) (w' : World) :
    reachable allowed w ->
    allowed c = true ->
    run_call c w = Ok (tt, w') ->
    reachable allowed w'
| reach_dispatch (w : World)
    (handler_body : BSocket_handler -> Z -> Z -> M unit) (events : Z)
    (tr : list invocation) (w' : World) :
    reachable allowed w ->
    handlers_use_interface allowed handler_body ->
    backend_dispatch handler_body events w = Ok (tr, w') ->
    reachable allowed w'.

End Reachability.

(** A one-bit flag. *)
Definition event_bit (f : Z) : Prop := exists k, 0 <= k /\ f = 2 ^ k.

(** ** Vocabulary: readiness and delivery *)

Definition event_flags : list Z :=
  [BSOCKET_READ; BSOCKET_WRITE; BSOCKET_ACCEPT; BSOCKET_CONNECT].

(** The readiness bit of the reactor that a logical event waits for. *)
Definition readiness_of (ev : Z) : Z :=
  if (ev =? BSOCKET_READ) || (ev =? BSOCKET_ACCEPT)
  then BREACTOR_READ else BREACTOR_WRITE.

(** On the POSIX backend: the event is enabled and the reactor reports the
    readiness it waits for. *)
Definition fd_ready (wait events ev : Z) : bool :=
  has_flag wait ev && has_flag events (readiness_of ev).

(** The network events that signal a logical event under Winapi. *)
Definition wsa_signalled (net ev : Z) : bool :=
  if ev =? BSOCKET_READ then has_flag net FD_READ || has_flag net FD_CLOSE
  else if ev =? BSOCKET_WRITE
       then has_flag net FD_WRITE || has_flag net FD_CLOSE
  else if ev =? BSOCKET_ACCEPT then has_flag net FD_ACCEPT
  else has_flag net FD_CONNECT.

Definition wsa_ready (wait net ev : Z) : bool :=
  has_flag wait ev && wsa_signalled net ev.

(** The event set built by or-ing in each event whose condition holds, as
    both backend handlers do. *)
Definition gather (c_read c_write c_accept c_connect : bool) : Z :=
  let returned_events := 0 in
  let returned_events :=
    if c_read then Z.lor returned_events BSOCKET_READ
    else returned_events in
  let returned_events :=
    if c_write then Z.lor returned_events BSOCKET_WRITE
    else returned_events in
  let returned_events :=
    if c_accept then Z.lor returned_events BSOCKET_ACCEPT
    else returned_events in
  if c_connect then Z.lor returned_events BSOCKET_CONNECT
  else returned_events.

(** The call by which [update_event_backend] registers the enabled events
    of a socket with the backend. *)
Definition registration (plat : platform) (b : BSocket) : syscall :=
  match plat with
  | Winapi =>
      SYS_WSAEventSelect (socket b) (event b) (get_wsa_events (waitEvents b))
  | Posix =>
      R_SetFileDescriptorEvents (bsys b) (socket b)
        (get_reactor_fd_events (waitEvents b))
  end.

(** The calls of the handler interface. *)
Definition is_handler_call (c : api_call) : bool :=
  match c with
  | Call_add_global_handler _ _ | Call_remove_global_handler
  | Call_set_global_events _ | Call_add_event_handler _ _ _
  | Call_remove_event_handler _ | Call_enable_event _
  | Call_disable_event _ => true
  | _ => false
  end.

(** Those among them that register again with the backend, on a socket in
    state [b]: removing a handler does so when its event is enabled. *)
Definition registers_again (c : api_call) (b : BSocket) : bool :=
  match c with
  | Call_set_global_events _ | Call_enable_event _ | Call_disable_event _ =>
      true
  | Call_remove_event_handler ev => has_flag (waitEvents b) ev
  | _ => false
  end.

(** ** Vocabulary: creation and destruction *)

(** The call by which [BSocket_Init] creates the descriptor, after the two
    translating [switch]es. *)
Definition socket_call (plat : platform) (domain : addr_domain)
  (ty : socket_type) : syscall :=
  SYS_socket
    match domain with
    | BADDR_TYPE_IPV6 => AF_INET6 plat
    | _ => AF_INET
    end
    match ty with
    | BSOCKET_TYPE_STREAM => SOCK_STREAM
    | BSOCKET_TYPE_DGRAM => SOCK_DGRAM
    end.

(** The option by which [set_pktinfo] or [set_pktinfo6] asks for packet
    information on the descriptor [fd]. *)
Definition pktinfo_request (plat : platform) (domain : addr_domain) (fd : Z)
  : syscall :=
  match domain with
  | BADDR_TYPE_IPV6 =>
      SYS_setsockopt fd IPPROTO_IPV6
        match plat with
        | Winapi => IPV6_PKTINFO plat
        | Posix => IPV6_RECVPKTINFO
        end
  | _ => SYS_setsockopt fd IPPROTO_IP (IP_PKTINFO plat)
  end.

(** The state of a socket just created: alive, no error, no handler of
    either kind, no event enabled, no connection attempt, the default
    receive cap and nothing counted against it. *)
Definition fresh_state (recv_cap : Z) (b : BSocket) : Prop :=
  dead b = false /\
  error b = BSOCKET_ERROR_NONE /\
  global_handler b = None /\
  handlers b = no_handlers /\
  waitEvents b = 0 /\
  connecting_status b = 0 /\
  recv_max b = recv_cap /\
  recv_num b = 0.

(** The calls that take a socket off the backend in [free_event_backend]. *)
Definition unregistration (plat : platform) (b : BSocket) : list syscall :=
  match plat with
  | Winapi => [SYS_WSACloseEvent (event b); R_RemoveHandle (bsys b) (event b)]
  | Posix => [R_RemoveFileDescriptor (bsys b) (socket b)]
  end.

(** More concrete environments and callbacks, for the examples. *)
Module Scenario.

(** Every call answers 0. *)
Definition os_zero : list syscall -> syscall -> os_reply :=
  Sample.os_always (Sample.reply 0 E_ok).

(** A stream socket with the handlers 7 for READ and 8 for WRITE. *)
Definition two_handlers : BSocket :=
  set_handlers
    {| slot0 := Some 7; slot1 := Some 8; slot2 := None; slot3 := None |}
    (Sample.fresh BSOCKET_TYPE_STREAM false).

(** An environment in which a datagram socket opens with packet
    information: registering with the reactor answers 1, everything else
    0. *)
Definition os_datagram : list syscall -> syscall -> os_reply :=
  Sample.os_except (fun c => match c with
                             | R_AddFileDescriptor _ _ => false
                             | _ => true
                             end) (Sample.reply 0 E_ok).

(** An environment in which a connection attempt is under way and then
    succeeds: setting non-blocking mode answers 0, connect() fails with
    EINPROGRESS, asking for SO_ERROR answers 0 with no error, everything
    else answers 1. *)
Definition os_connecting : list syscall -> syscall -> os_reply :=
  fun _ c =>
    match c with
    | SYS_set_nonblocking _ => Sample.reply 0 E_ok
    | SYS_connect _ _ => Sample.reply (-1) EINPROGRESS
    | SYS_getsockopt_SO_ERROR _ => Sample.reply 0 E_ok
    | _ => Sample.reply 1 E_ok
    end.

(** Callbacks of which number 7 receives what there is and then frees the
    socket. *)
Definition receiving_then_freeing (plat : platform)
  (os : list syscall -> syscall -> os_reply)
  : BSocket_handler -> Z -> Z -> M unit :=
  fun h _ _ =>
    if h =? 7 then BSocket_Recv plat os 100;;; BSocket_Free plat os
    else ret tt.

End Scenario.

(** ** Vocabulary: what stays true of a socket in use *)

(** What a socket is from its creation on: its reactor, type, descriptor,
    event object and whether it has packet information. *)
Definition same_identity (b b' : BSocket) : Prop :=
  dead b' = dead b /\ bsys b' = bsys b /\ type b' = type b /\
  socket b' = socket b /\ event b' = event b /\
  have_pktinfo b' = have_pktinfo b.

(** The two kinds of handler do not coexist, and an enabled event has a
    handler to go to. *)
Definition handlers_consistent (b : BSocket) : Prop :=
  (global_handler b <> None -> handlers b = no_handlers) /\
  (forall f i,
     get_event_index f = Some i ->
     has_flag (waitEvents b) f = true ->
     global_handler b <> None \/ array4_get (handlers b) i <> None).

(** The receive counter is within the cap (and is 0 when there is none). *)
Definition quota_kept (b : BSocket) : Prop :=
  0 <= recv_num b <= Z.max 0 (recv_max b) /\ recv_max b <= INT_MAX.

(** The cap handed to [BSocket_SetRecvMax] is an [int]. *)
Definition int_sized (c : api_call) : bool :=
  match c with
  | Call_set_recv_max max => max <=? INT_MAX
  | _ => true
  end.

(** ** Vocabulary: addresses from the operating system *)

(** An OS address without what the portable form has no place for: the
    flow information and the scope identifier of an IPv6 address. *)
Definition forget_routing (sa : sys_addr) : sys_addr :=
  match addr sa with
  | U_ipv4 _ => sa
  | U_ipv6 a =>
      {| len := len sa;
         addr := U_ipv6 {| sin6_family := sin6_family a;
                           sin6_port := sin6_port a;
                           sin6_flowinfo := 0;
                           sin6_addr := sin6_addr a;
                           sin6_scope_id := 0 |} |}
  end.

(** The 16-byte array [s6_addr] holds 16 bytes. *)
Definition sys_addr_sized (sa : sys_addr) : Prop :=
  match addr sa with
  | U_ipv4 _ => True
  | U_ipv6 a => length (sin6_addr a) = 16%nat
  end.

(** ** Vocabulary: completion of a connection attempt *)

(** The state in which the handlers of a dispatch start when the backend
    has seen a connection attempt complete: the counter of receives is
    reset, the attempt is marked completed (status 2) with its outcome, and
    [query] is the call that told the outcome. *)
Definition completed_start (w : World) (query : syscall)
  (outcome : bsocket_error) : World :=
  {| bs := set_recv_num 0
             (set_connecting_result outcome
                (set_connecting_status 2 (bs w)));
     os_log := query :: os_log w |}.

(** * The file module (ncd/modules/file_open.c) *)

Module FileOpen.

Definition START_READ_SIZE : Z := 512.
Definition MAX_READ_SIZE : Z := 8192.

(** Writing [v] at index [i] of a buffer. *)
Fixpoint store (buf : list byte) (i : nat) (v : byte) : list byte :=
  match buf, i with
  | [], _ => []
  | _ :: t, O => v :: t
  | h :: t, S i => h :: store t i v
  end.

Definition char_r : byte := x72.
Definition char_w : byte := x77.
Definition char_a : byte := x61.
Definition char_plus : byte := x2b.
Definition NUL : byte := x00.

(** [parse_mode].  [data] and [mode_len] are the string, [out] the buffer of
    the caller ([char mode[5]]); returned are the status and the buffer as
    the function leaves it.  The pointer [out] advances with each byte
    stored: [pos] is its offset. *)
Definition parse_mode (data : list byte) (mode_len : N) (out : list byte)
  : Z * list byte :=
  if (mode_len =? 0)%N then (0, out)
  else
    let c := nth 0 data NUL in
    if Byte.eqb c char_r || Byte.eqb c char_w || Byte.eqb c char_a then
      let out := store out 0 c in
      let pos := 1%nat in
      let mode_len := (mode_len - 1)%N in
      if (mode_len =? 0)%N then (1, store out pos NUL)
      else
        let c := nth 1 data NUL in
        if Byte.eqb c char_plus then
          let out := store out pos c in
          let pos := 2%nat in
          let mode_len := (mode_len - 1)%N in
          if (mode_len =? 0)%N then (1, store out pos NUL)
          else (0, out)
        else (0, out)
    else (0, out).

(** The mode strings the documentation of the module lists. *)
Definition accepted_modes : list (list byte) :=
  [[char_r]; [char_w]; [char_a];
   [char_r; char_plus]; [char_w; char_plus]; [char_a; char_plus]].

(** ** Reading *)

(** What the C library and the allocator answer: the bytes the k-th call of
    fread delivers when asked for [n], whether the end of the file was
    reached, and whether an allocation of a size succeeds. *)
Record read_env : Type := {
  fread : nat -> Z -> list byte;
  feof : bool;
  BAlloc_ok : Z -> bool;
  BRealloc_ok : Z -> bool
}.

Inductive loop_result : Type :=
| Loop_break (capacity : Z) (data : list byte) (calls : list Z)
| Loop_fail1 (calls : list Z)
| Loop_abort.

(** The [while (1)] loop of [read_func_new]; [calls] are the sizes asked of
    fread so far, the latest first.  [None]: the iterations allowed by
    [fuel] did not suffice. *)
Fixpoint read_loop (env : read_env) (fuel : nat) (capacity : Z)
  (data : list byte) (calls : list Z) : option loop_result :=
  match fuel with
  | O => None
  | S fuel =>
      let length := Z.of_nat (List.length data) in
      let chunk := fread env (List.length calls) (capacity - length) in
      let calls := (capacity - length) :: calls in
      let readed := Z.of_nat (List.length chunk) in
      if readed =? 0 then Some (Loop_break capacity data calls)
      else if negb (readed <=? capacity - length) then Some Loop_abort
      else
        let data := data ++ chunk in
        let length := length + readed in
        if length =? capacity then
          if capacity >? MAX_READ_SIZE / 2
          then Some (Loop_break capacity data calls)
          else
            let capacity := capacity * 2 in
            if BRealloc_ok env capacity
            then read_loop env fuel capacity data calls
            else Some (Loop_fail1 calls)
        else read_loop env fuel capacity data calls
  end.

(** How the statement ends: it goes up, it dies with the error flag set
    (the labels fail0 and fail1), or it triggers the error of the open
    instance and stays down.  [calls] are the sizes asked of fread, the
    latest first. *)
Inductive read_outcome : Type :=
| Read_up (data : list byte) (calls : list Z)
| Read_dead (calls : list Z)
| Read_trigger_error (calls : list Z)
| Read_abort.

(** [read_func_new] from the point where the open instance is at hand;
    [fh] tells whether its file handle is non-NULL. *)
Definition read_func_new (env : read_env) (fuel : nat) (fh : bool)
  : option read_outcome :=
  if negb fh then Some (Read_dead [])
  else
    let capacity := START_READ_SIZE in
    if negb (BAlloc_ok env capacity) then Some (Read_dead [])
    else
      match read_loop env fuel capacity [] [] with
      | None => None
      | Some Loop_abort => Some Read_abort
      | Some (Loop_fail1 calls) => Some (Read_dead calls)
      | Some (Loop_break _ data calls) =>
          if (Z.of_nat (List.length data) =? 0) && negb (feof env)
          then Some (Read_trigger_error calls)
          else Some (Read_up data calls)
      end.

(** ** Writing *)

Inductive write_outcome : Type :=
| Write_up (calls : list (list byte * N))
| Write_trigger_error (calls : list (list byte * N))
| Write_abort.

(** The [while (length > 0)] loop of [write_func_new] with what follows
    it.  [fwrite k data] is the count the k-th call returns when handed
    [data]; [calls] are the calls made so far with their counts, the latest
    first.  [None]: the iterations allowed by [fuel] did not suffice. *)
Fixpoint write_loop (fwrite : nat -> list byte -> N) (fuel : nat)
  (data : list byte) (calls : list (list byte * N))
  : option write_outcome :=
  match fuel with
  | O => None
  | S fuel =>
      let length := N.of_nat (List.length data) in
      if (0 <? length)%N then
        let written := fwrite (List.length calls) data in
        let calls := (data, written) :: calls in
        if (written =? 0)%N then Some (Write_trigger_error calls)
        else if negb (written <=? length)%N then Some Write_abort
        else write_loop fwrite fuel (skipn (N.to_nat written) data) calls
      else Some (Write_up calls)
  end.

(** The bytes a sequence of calls put into the file, in order. *)
Fixpoint written_bytes (calls : list (list byte * N)) : list byte :=
  match calls with
  | [] => []
  | (data, written) :: earlier =>
      written_bytes earlier ++ firstn (N.to_nat written) data
  end.

(** ** Seeking *)

Definition INT32_MIN : Z := - 2 ^ 31.
Definition INT32_MAX : Z := 2 ^ 31 - 1.
Definition INT64_MIN : Z := - 2 ^ 63.
Definition INT64_MAX : Z := 2 ^ 63 - 1.

Definition off_t_min (sizeof_off_t : Z) : Z :=
  if sizeof_off_t =? 8 then INT64_MIN else INT32_MIN.
Definition off_t_max (sizeof_off_t : Z) : Z :=
  if sizeof_off_t =? 8 then INT64_MAX else INT32_MAX.

(** The block "compute position as off_t" of [seek_func_new]: the position
    handed to fseeko, or [None] for the two jumps to fail0.
    [position_mag] is an [uintmax_t]. *)
Definition seek_position (sizeof_off_t : Z) (position_sign : Z)
  (position_mag : N) : option Z :=
  let position_mag := Z.of_N position_mag in
  if (position_sign <? 0) && (position_mag >? 0) then
    if position_mag - 1 >? - (off_t_min sizeof_off_t + 1) then None
    else Some (- (position_mag - 1) - 1)
  else
    if position_mag >? off_t_max sizeof_off_t then None
    else Some position_mag.

(** The number a sign and a magnitude stand for. *)
Definition signmag_value (position_sign : Z) (position_mag : N) : Z :=
  if position_sign <? 0 then - Z.of_N position_mag else Z.of_N position_mag.

(** The bytes the calls of fread delivered, in order; [calls] are the
    sizes asked for, the latest first. *)
Fixpoint delivered (env : read_env) (calls : list Z) : list byte :=
  match calls with
  | [] => []
  | n :: earlier => delivered env earlier ++ fread env (List.length earlier) n
  end.

(** What holds of the result of the reading loop. *)
Definition loop_result_ok (env : read_env) (r : loop_result) : Prop :=
  match r with
  | Loop_break capacity data calls =>
      Z.of_nat (length data) <= capacity <= MAX_READ_SIZE /\
      data = delivered env calls /\
      Forall (fun n => 0 < n) calls
  | Loop_fail1 calls => Forall (fun n => 0 < n) calls
  | Loop_abort =>
      exists k n, n < Z.of_nat (length (fread env k n))
  end.

(** ** The open instance and its statements *)

(** [struct open_instance]: the file handle, [None] for NULL.  (Its other
    field is the interpreter's handle of the statement.) *)
Record open_instance : Type := { fh : option Z }.

(** What the code does with a file handle and what it tells the
    interpreter, in the order it does so. *)
Inductive event : Type :=
| Ev_fopen (filename mode : list byte) (result : option Z)
| Ev_fclose (h : Z)
| Ev_fread (h : Z) (n : Z)
| Ev_feof (h : Z)
| Ev_fwrite (h : Z) (data : list byte)
| Ev_fseeko (h : Z) (position whence : Z)
| Ev_Up
| Ev_Down
| Ev_SetError
| Ev_Dead.

(** How a statement runs: to its end, leaving the open instance as [o]
    after the events [log]; into a failed assertion; or out of the
    iterations a loop was allowed. *)
Inductive run : Type :=
| Done (o : open_instance) (log : list event)
| Assert_failed
| No_fuel.

(** The label fail0 of every statement. *)
Definition fail0 : list event := [Ev_SetError; Ev_Dead].

Definition trigger_error (o : open_instance) : open_instance * list event :=
  match fh o with
  | Some h => ({| fh := None |}, [Ev_fclose h; Ev_Down; Ev_Up])
  | None => (o, [Ev_Down; Ev_Up])
  end.

(** The string a buffer holds: its bytes up to the first NUL. *)
Fixpoint c_string (buf : list byte) : list byte :=
  match buf with
  | [] => []
  | c :: t => if Byte.eqb c NUL then [] else c :: c_string t
  end.

(** [open_func_new] once the two arguments were found to be strings;
    [mode_buf] is what the array [mode] holds at first.  No instance is
    left when the statement dies. *)
Definition open_func_new (filename mode_arg mode_buf : list byte)
  (null_terminate_ok : bool) (fopen : list byte -> list byte -> option Z)
  : option open_instance * list event :=
  let r := parse_mode mode_arg (N.of_nat (List.length mode_arg)) mode_buf in
  if fst r =? 0 then (None, fail0)
  else if negb null_terminate_ok then (None, fail0)
  else
    let mode := c_string (snd r) in
    let result := fopen filename mode in
    (Some {| fh := result |}, [Ev_fopen filename mode result; Ev_Up]).

Definition open_func_die (o : open_instance) : list event :=
  match fh o with
  | Some h => [Ev_fclose h; Ev_Dead]
  | None => [Ev_Dead]
  end.

(** The variable [is_error] of [open_func_getvar]. *)
Definition is_error (o : open_instance) : bool :=
  match fh o with Some _ => false | None => true end.

(** The calls of fread of a read statement as events, the earliest
    first. *)
Definition read_events (o : open_instance) (calls : list Z) : list event :=
  match fh o with
  | Some h => map (Ev_fread h) (rev calls)
  | None => []
  end.

Definition feof_event (o : open_instance) : list event :=
  match fh o with
  | Some h => [Ev_feof h]
  | None => []
  end.

(** [read_func_new] as a statement on the open instance. *)
Definition read_statement (env : read_env) (fuel : nat) (o : open_instance)
  : run :=
  match read_func_new env fuel (negb (is_error o)) with
  | None => No_fuel
  | Some Read_abort => Assert_failed
  | Some (Read_dead calls) => Done o (read_events o calls ++ fail0)
  | Some (Read_up data calls) =>
      Done o (read_events o calls
              ++ (if Z.of_nat (List.length data) =? 0
                  then feof_event o else [])
              ++ [Ev_Up])
  | Some (Read_trigger_error calls) =>
      Done (fst (trigger_error o))
        (read_events o calls ++ feof_event o ++ snd (trigger_error o))
  end.

Definition write_events (h : Z) (calls : list (list byte * N))
  : list event :=
  map (fun c => Ev_fwrite h (fst c)) (rev calls).

(** [write_func_new] once the argument was found to be a string. *)
Definition write_func_new (fwrite : nat -> list byte -> N) (fuel : nat)
  (data : list byte) (o : open_instance) : run :=
  match fh o with
  | None => Done o fail0
  | Some h =>
      match write_loop fwrite fuel data [] with
      | None => No_fuel
      | Some Write_abort => Assert_failed
      | Some (Write_up calls) => Done o (write_events h calls ++ [Ev_Up])
      | Some (Write_trigger_error calls) =>
          Done (fst (trigger_error o))
            (write_events h calls ++ snd (trigger_error o))
      end
  end.

Definition SEEK_SET : Z := 0.
Definition SEEK_CUR : Z := 1.
Definition SEEK_END : Z := 2.

Fixpoint string_equals (a b : list byte) : bool :=
  match a, b with
  | [], [] => true
  | x :: a, y :: b => Byte.eqb x y && string_equals a b
  | _, _ => false
  end.

(** The chain "parse whence" of [seek_func_new], on the strings set, cur
    and end. *)
Definition parse_whence (whence_arg : list byte) : option Z :=
  if string_equals whence_arg [x73; x65; x74] then Some SEEK_SET
  else if string_equals whence_arg [x63; x75; x72] then Some SEEK_CUR
  else if string_equals whence_arg [x65; x6e; x64] then Some SEEK_END
  else None.

(** [seek_func_new] once the two arguments were found to be strings;
    [parsed] is what parse_signmag_integer_bin made of the position, [None]
    when it refused it. *)
Definition seek_func_new (sizeof_off_t : Z) (parsed : option (Z * N))
  (whence_arg : list byte) (fseeko : Z -> Z -> Z -> Z) (o : open_instance)
  : open_instance * list event :=
  match parsed with
  | None => (o, fail0)
  | Some (position_sign, position_mag) =>
      match parse_whence whence_arg with
      | None => (o, fail0)
      | Some whence =>
          match seek_position sizeof_off_t position_sign position_mag with
          | None => (o, fail0)
          | Some position =>
              match fh o with
              | None => (o, fail0)
              | Some h =>
                  if fseeko h position whence <? 0 then
                    (fst (trigger_error o),
                     Ev_fseeko h position whence :: snd (trigger_error o))
                  else (o, [Ev_fseeko h position whence; Ev_Up])
              end
          end
      end
  end.

Definition close_func_new (fclose : Z -> Z) (o : open_instance)
  : open_instance * list event :=
  match fh o with
  | None => (o, fail0)
  | Some h =>
      let res := fclose h in
      let o := {| fh := None |} in
      if negb (res =? 0) then
        (fst (trigger_error o), Ev_fclose h :: snd (trigger_error o))
      else (o, [Ev_fclose h; Ev_Up])
  end.

(** The statements that act on an open instance, with what their
    arguments and the C library bring. *)
Inductive statement : Type :=
| St_read (env : read_env)
| St_write (data : list byte) (fwrite : nat -> list byte -> N)
| St_seek (parsed : option (Z * N)) (whence_arg : list byte)
    (fseeko : Z -> Z -> Z -> Z)
| St_close (fclose : Z -> Z).

Definition run_statement (sizeof_off_t : Z) (st : statement)
  (o : open_instance) : run :=
  match st with
  | St_read env => read_statement env (Z.to_nat (MAX_READ_SIZE + 1)) o
  | St_write data fwrite => write_func_new fwrite (S (List.length data)) data o
  | St_seek parsed whence_arg fseeko =>
      let r := seek_func_new sizeof_off_t parsed whence_arg fseeko o in
      Done (fst r) (snd r)
  | St_close fclose =>
      let r := close_func_new fclose o in
      Done (fst r) (snd r)
  end.

Fixpoint run_statements (sizeof_off_t : Z) (sts : list statement)
  (o : open_instance) : run :=
  match sts with
  | [] => Done o []
  | st :: rest =>
      match run_statement sizeof_off_t st o with
      | Done o1 log1 =>
          match run_statements sizeof_off_t rest o1 with
          | Done o2 log2 => Done o2 (log1 ++ log2)
          | stopped => stopped
          end
      | stopped => stopped
      end
  end.

(** How the life of an open instance ends. *)
Inductive session_result : Type :=
| Session_log (log : list event)
| Session_assert_failed
| Session_no_fuel.

(** The life of an open instance: the statement comes up, statements act
    on it, and it dies. *)
Definition session (sizeof_off_t : Z) (filename mode_arg mode_buf : list byte)
  (null_terminate_ok : bool) (fopen : list byte -> list byte -> option Z)
  (sts : list statement) : session_result :=
  match open_func_new filename mode_arg mode_buf null_terminate_ok fopen with
  | (None, log) => Session_log log
  | (Some o, log) =>
      match run_statements sizeof_off_t sts o with
      | Done o1 log1 => Session_log (log ++ log1 ++ open_func_die o1)
      | Assert_failed => Session_assert_failed
      | No_fuel => Session_no_fuel
      end
  end.

Definition holds (open : option Z) (h : Z) : bool :=
  match open with
  | Some h' => h' =? h
  | None => false
  end.

(** The handle that is open after a log, given the one open before it. *)
Fixpoint handle_after (open : option Z) (log : list event) : option Z :=
  match log with
  | [] => open
  | Ev_fopen _ _ result :: rest => handle_after result rest
  | Ev_fclose _ :: rest => handle_after None rest
  | _ :: rest => handle_after open rest
  end.

(** A log uses file handles properly: a file is opened only while none is
    open, and a handle is read, written, positioned, asked about and closed
    only while it is the one that is open. *)
Fixpoint disciplined (open : option Z) (log : list event) : bool :=
  match log with
  | [] => true
  | e :: rest =>
      match e with
      | Ev_fopen _ _ _ =>
          match open with None => true | Some _ => false end
      | Ev_fclose h | Ev_fread h _ | Ev_feof h | Ev_fwrite h _
      | Ev_fseeko h _ _ => holds open h
      | _ => true
      end
      && disciplined (handle_after open [e]) rest
  end.

(** What a statement that ran to its end did to the handle. *)
Definition kept (o : open_instance) (log : list event) (o' : open_instance)
  : Prop :=
  disciplined (fh o) log = true /\ handle_after (fh o) log = fh o'.

End FileOpen.

(** * Proofs *)

(** ** Running the monad *)

Lemma bind_ok {A B : Type} (c : M A) (k : A -> M B) w b w' :
  bind c k w = Ok (b, w') ->
  exists a w1, c w = Ok (a, w1) /\ k a w1 = Ok (b, w').
Proof.
  unfold bind. destruct (c w) as [[a w1]|]; [|discriminate].
  intro H. exists a, w1. auto.
Qed.

Lemma ret_ok {A : Type} (a b : A) w w' :
  ret a w = Ok (b, w') -> b = a /\ w' = w.
Proof. unfold ret. intro H. inversion H. auto. Qed.

Lemma ASSERT_ok c w u w' : ASSERT c w = Ok (u, w') -> c = true /\ w' = w.
Proof. unfold ASSERT. destruct c; intro H; inversion H; auto. Qed.

Lemma get_bs_ok w b w' : get_bs w = Ok (b, w') -> b = bs w /\ w' = w.
Proof. unfold get_bs. intro H. inversion H. auto. Qed.

Lemma modify_bs_ok f w u w' :
  modify_bs f w = Ok (u, w') -> w' = {| bs := f (bs w); os_log := os_log w |}.
Proof. unfold modify_bs. intro H. inversion H. auto. Qed.

Lemma assert_some_ok {A : Type} (o : option A) w a w' :
  assert_some o w = Ok (a, w') -> o = Some a /\ w' = w.
Proof. unfold assert_some. destruct o; intro H; inversion H; auto. Qed.

Lemma os_call_ok os c w r w' :
  os_call os c w = Ok (r, w') ->
  r = os (os_log w) c /\ w' = {| bs := bs w; os_log := c :: os_log w |}.
Proof. unfold os_call. intro H. inversion H. auto. Qed.

Lemma fail_with_ok e w r w' :
  fail_with e w = Ok (r, w') ->
  r = -1 /\ w' = {| bs := set_error e (bs w); os_log := os_log w |}.
Proof. unfold fail_with, bind, modify_bs, ret. intro H. inversion H. auto. Qed.

(** One step of a run that is known to return: split a sequence, read off
    what a primitive did, or branch on a condition. *)
Ltac mstep :=
  match goal with
  | H : bind _ _ _ = Ok _ |- _ =>
      apply bind_ok in H; destruct H as (? & ? & ? & H)
  | H : ret _ _ = Ok _ |- _ =>
      let Hv := fresh "Hv" in
      apply ret_ok in H; destruct H as [Hv ?]; inversion Hv; clear Hv; subst
  | H : ASSERT _ _ = Ok _ |- _ => apply ASSERT_ok in H; destruct H; subst
  | H : get_bs _ = Ok _ |- _ => apply get_bs_ok in H; destruct H; subst
  | H : modify_bs _ _ = Ok _ |- _ => apply modify_bs_ok in H; subst
  | H : assert_some _ _ = Ok _ |- _ =>
      apply assert_some_ok in H; destruct H; subst
  | H : os_call _ _ _ = Ok _ |- _ => apply os_call_ok in H; destruct H; subst
  | H : fail_with _ _ = Ok _ |- _ => apply fail_with_ok in H; destruct H; subst
  | H : Abort = Ok _ |- _ => discriminate H
  | H : (if ?c then _ else _) _ = Ok _ |- _ => destruct c eqn:?
  | H : (match ?p with Posix => _ | Winapi => _ end) _ = Ok _ |- _ =>
      destruct p
  | H : (match ?t with
         | BSOCKET_TYPE_STREAM => _
         | BSOCKET_TYPE_DGRAM => _
         end) _ = Ok _ |- _ => destruct t eqn:?
  | H : (match ?o with Some _ => _ | None => _ end) _ = Ok _ |- _ =>
      destruct o eqn:?
  end.

Ltac mrun := repeat (mstep; cbn beta iota in * ).

Lemma bind_abort {A B : Type} (c : M A) (k : A -> M B) w :
  bind c k w = Abort ->
  c w = Abort \/ exists a w1, c w = Ok (a, w1) /\ k a w1 = Abort.
Proof.
  unfold bind. destruct (c w) as [[a w1]|]; [|auto].
  intro H. right. exists a, w1. auto.
Qed.

Lemma ASSERT_abort c w : ASSERT c w = Abort -> c = false.
Proof. unfold ASSERT. destruct c; [discriminate | reflexivity]. Qed.

Lemma assert_some_abort {A : Type} (o : option A) w :
  assert_some o w = Abort -> o = None.
Proof. unfold assert_some. destruct o; [discriminate | reflexivity]. Qed.

(** The same for a run supposed to have stopped on an assertion. *)
Ltac astep :=
  match goal with
  | H : bind _ _ _ = Abort |- _ =>
      apply bind_abort in H; destruct H as [H | (? & ? & ? & H)]
  | H : ret _ _ = Abort |- _ => discriminate H
  | H : get_bs _ = Abort |- _ => discriminate H
  | H : modify_bs _ _ = Abort |- _ => discriminate H
  | H : os_call _ _ _ = Abort |- _ => discriminate H
  | H : fail_with _ _ = Abort |- _ => discriminate H
  | H : Ok _ = Abort |- _ => discriminate H
  | H : ASSERT _ _ = Abort |- _ => apply ASSERT_abort in H
  | H : assert_some _ _ = Abort |- _ => apply assert_some_abort in H
  | H : (if ?c then _ else _) _ = Abort |- _ => destruct c eqn:?
  | H : (match ?p with Posix => _ | Winapi => _ end) _ = Abort |- _ =>
      destruct p
  | H : (match ?t with
         | BSOCKET_TYPE_STREAM => _
         | BSOCKET_TYPE_DGRAM => _
         end) _ = Abort |- _ => destruct t eqn:?
  | H : (match ?o with Some _ => _ | None => _ end) _ = Abort |- _ =>
      destruct o eqn:?
  end.

Ltac arun := repeat (first [mstep | astep]; cbn beta iota in * ).

Lemma valid_translates plat a :
  BAddr_validb a = true -> addr_socket_to_sys plat a <> None.
Proof. destruct a; simpl; intros; discriminate. Qed.

(** Closes a case in which an assertion failed although caller and OS kept
    their side. *)
Ltac absurd_leaf :=
  cbn [bs os_log fst snd] in *;
  try solve
    [ lia
    | match goal with
      | Hv : BAddr_validb ?a = true, E : addr_socket_to_sys _ ?a = None |- _ =>
          exact (valid_translates _ _ Hv E)
      | Hw : os_well_behaved _ ?os,
        E : addr_sys_to_socket _ (r_addr (?os ?l ?c)) = None |- _ =>
          exact (proj1 (Hw l c) E)
      | Hw : os_well_behaved _ ?os,
        E : (r_ret (?os ?l (SYS_close ?fd)) =? 0) = false |- _ =>
          rewrite (proj1 (proj2 (Hw l (SYS_close fd))) fd eq_refl) in E;
          discriminate E
      | Hw : os_well_behaved _ ?os,
        E : negb (r_ret (?os ?l (SYS_WSACloseEvent ?ev)) =? 0) = false |- _ =>
          apply negb_false_iff, Z.eqb_eq in E;
          exact (proj2 (proj2 (Hw l (SYS_WSACloseEvent ev))) ev eq_refl E)
      end ].

(** ** Arithmetic and lists *)

Lemma wrap_int_small z : - 2 ^ 31 <= z <= INT_MAX -> wrap_int z = z.
Proof.
  unfold wrap_int, INT_MAX. intro H.
  rewrite Z.mod_small; lia.
Qed.

Lemma memcpy16_full (l : list byte) : length l = 16%nat -> memcpy16 l = l.
Proof.
  intro H. unfold memcpy16. apply firstn_all2. rewrite H. apply le_n.
Qed.

Lemma BAddr_validb_valid a : BAddr_validb a = true <-> BAddr_valid a.
Proof.
  destruct a; simpl; try (split; [discriminate | contradiction]);
    try tauto.
  apply Nat.eqb_eq.
Qed.

(** ** The address translator *)

Lemma addr_socket_to_sys_valid plat a :
  BAddr_valid a -> exists sa, addr_socket_to_sys plat a = Some sa.
Proof.
  destruct a; simpl; intro H; [contradiction | eexists; reflexivity ..].
Qed.

(** C8. Translating a valid portable address (IPv4 with any address and
    port, or IPv6 with a 16-byte address and any port) to the OS form
    succeeds, and translating the result back gives the address again. *)
Theorem addr_round_trip (plat : platform) (a : BAddr) :
  BAddr_valid a ->
  exists sa, addr_socket_to_sys plat a = Some sa /\
             addr_sys_to_socket plat sa = Some a.
Proof.
  destruct a as [|ip port|ip port]; simpl; intro H.
  - contradiction.
  - eexists; split; reflexivity.
  - eexists; split; [reflexivity|].
    unfold addr_sys_to_socket; simpl.
    destruct plat; simpl; now rewrite !memcpy16_full by
      (rewrite ?memcpy16_full; assumption).
Qed.

Lemma addr_round_trip_witness :
  BAddr_valid Sample.loopback /\
  exists sa, addr_socket_to_sys Posix Sample.loopback = Some sa /\
             addr_sys_to_socket Posix sa = Some Sample.loopback.
Proof.
  split; [exact I | apply (@addr_round_trip Posix Sample.loopback); exact I].
Defined.

(** ** The receive quota: setting it *)

(** C10. [BSocket_SetRecvMax] goes through exactly for a maximum that is
    positive or -1 (for 0, as for any other value, the assertion fails); it
    then stores the maximum and also puts the counter [recv_num] back to 0,
    leaving everything else as it was. *)
Theorem set_recv_max_resets_counter (max : Z) (w : World) :
  BSocket_SetRecvMax max w =
  (if (max >? 0) || (max =? -1)
   then Ok (tt, {| bs := set_recv_num 0 (set_recv_max max (bs w));
                   os_log := os_log w |})
   else Abort)
  /\ BSocket_SetRecvMax 0 w = Abort.
Proof.
  unfold BSocket_SetRecvMax, bind, ASSERT, modify_bs.
  split; [destruct ((max >? 0) || (max =? -1)) |]; reflexivity.
Qed.

(** ** The connect state machine *)

(** C7. [BSocket_Connect] requires [connecting_status] 0 (IDLE).  When the
    OS completes at once it stores NONE and returns 0; when the OS reports
    the attempt pending it moves to status 1 (IN_PROGRESS), stores
    IN_PROGRESS and returns -1.  [BSocket_GetConnectResult] requires status
    2 (COMPLETED), goes back to 0 and returns [connecting_result]. *)
Theorem connect_state_machine (plat : platform)
  (os : list syscall -> syscall -> os_reply) (a : BAddr) (sa : sys_addr)
  (w : World) :
  addr_socket_to_sys plat a = Some sa ->
  let call := SYS_connect (socket (bs w)) sa in
  let r := os (os_log w) call in
  (connecting_status (bs w) <> 0 -> BSocket_Connect plat os a w = Abort) /\
  (connecting_status (bs w) = 0 -> 0 <= r_ret r ->
   BSocket_Connect plat os a w =
   Ok (0, {| bs := set_error BSOCKET_ERROR_NONE (bs w);
             os_log := call :: os_log w |})) /\
  (connecting_status (bs w) = 0 -> r_ret r < 0 ->
   connect_pending plat (r_errno r) = true ->
   BSocket_Connect plat os a w =
   Ok (-1, {| bs := set_error BSOCKET_ERROR_IN_PROGRESS
                      (set_connecting_status 1 (bs w));
              os_log := call :: os_log w |})) /\
  (connecting_status (bs w) <> 2 -> BSocket_GetConnectResult w = Abort) /\
  (connecting_status (bs w) = 2 ->
   BSocket_GetConnectResult w =
   Ok (connecting_result (bs w),
       {| bs := set_connecting_status 0 (bs w); os_log := os_log w |})).
Proof.
  intros Hsa call r.
  unfold BSocket_Connect, BSocket_GetConnectResult, fail_with, bind, get_bs,
    ASSERT, assert_some, os_call, modify_bs, ret.
  rewrite Hsa. subst r call. cbn beta iota. cbn [bs os_log].
  repeat split.
  - intro H. apply Z.eqb_neq in H. now rewrite H.
  - intros H Hr. rewrite H. cbn.
    apply Z.ltb_ge in Hr. now rewrite Hr.
  - intros H Hr Hp. rewrite H. cbn.
    apply Z.ltb_lt in Hr. now rewrite Hr, Hp.
  - intro H. apply Z.eqb_neq in H. now rewrite H.
  - intro H. rewrite H. reflexivity.
Qed.

Lemma connect_state_machine_witness :
  BSocket_Connect Posix (Sample.os_always (Sample.reply (-1) EINPROGRESS))
    Sample.loopback (Sample.world (Sample.fresh BSOCKET_TYPE_STREAM false)) =
  Ok (-1, {| bs := set_error BSOCKET_ERROR_IN_PROGRESS
                     (set_connecting_status 1
                        (Sample.fresh BSOCKET_TYPE_STREAM false));
             os_log := [SYS_connect 3 Sample.loopback_sys] |}) /\
  BSocket_GetConnectResult
    (Sample.world
       (set_connecting_result BSOCKET_ERROR_CONNECTION_REFUSED
          (set_connecting_status 2 (Sample.fresh BSOCKET_TYPE_STREAM false)))) =
  Ok (BSOCKET_ERROR_CONNECTION_REFUSED,
      Sample.world
        (set_connecting_result BSOCKET_ERROR_CONNECTION_REFUSED
           (Sample.fresh BSOCKET_TYPE_STREAM false))).
Proof.
  split.
  - apply (@connect_state_machine Posix
             (Sample.os_always (Sample.reply (-1) EINPROGRESS))
             Sample.loopback Sample.loopback_sys
             (Sample.world (Sample.fresh BSOCKET_TYPE_STREAM false))
             eq_refl);
      [reflexivity | simpl; lia | reflexivity].
  - apply (@connect_state_machine Posix
             (Sample.os_always (Sample.reply 0 E_ok))
             Sample.loopback Sample.loopback_sys
             (Sample.world
                (set_connecting_result BSOCKET_ERROR_CONNECTION_REFUSED
                   (set_connecting_status 2
                      (Sample.fresh BSOCKET_TYPE_STREAM false))))
             eq_refl).
    reflexivity.
Defined.

(** The step to COMPLETED on the POSIX backend: when CONNECT is awaited, the
    descriptor is writable and an attempt is in progress, the handlers are
    dispatched from a state with status 2 and the outcome read with
    SO_ERROR as [connecting_result]. *)
Lemma completion_stores_result
  (os : list syscall -> syscall -> os_reply)
  (hb : BSocket_handler -> Z -> Z -> M unit) (events : Z) (w : World) :
  let q := SYS_getsockopt_SO_ERROR (socket (bs w)) in
  has_flag (waitEvents (bs w)) BSOCKET_CONNECT = true ->
  has_flag events BREACTOR_WRITE = true ->
  connecting_status (bs w) = 1 ->
  r_ret (os (os_log w) q) = 0 ->
  exists returned_events,
    file_descriptor_handler os hb events w =
    call_handlers hb returned_events
      {| bs := set_connecting_result
                 (connect_outcome (r_soerror (os (os_log w) q)))
                 (set_connecting_status 2 (bs w));
         os_log := q :: os_log w |}.
Proof.
  intros q Hc Hw Hs Hr.
  unfold file_descriptor_handler.
  unfold bind at 1. unfold get_bs at 1. cbn beta iota zeta.
  rewrite Hc, Hw. cbn [andb].
  unfold bind at 1. unfold ASSERT at 1. rewrite Hs. cbn [Z.eqb Pos.eqb].
  unfold bind at 1. unfold modify_bs at 1.
  unfold bind at 1. unfold os_call at 1. cbn [bs os_log].
  fold q.
  unfold bind at 1. unfold ASSERT at 1. rewrite Hr. cbn [Z.eqb].
  unfold bind at 1. unfold modify_bs at 1. cbn [bs os_log].
  eexists. reflexivity.
Qed.

(** ** The error slot *)

Create HintDb bsocket.

Lemma transfer_error_not_none plat ty e :
  transfer_error plat ty e <> BSOCKET_ERROR_NONE.
Proof. destruct plat, ty, e; discriminate. Qed.

Lemma bind_error_not_none plat e : bind_error plat e <> BSOCKET_ERROR_NONE.
Proof. destruct plat, e; discriminate. Qed.

Lemma listen_error_not_none e : listen_error e <> BSOCKET_ERROR_NONE.
Proof. destruct e; discriminate. Qed.

Lemma accept_error_not_none plat e :
  accept_error plat e <> BSOCKET_ERROR_NONE.
Proof. destruct plat, e; discriminate. Qed.

#[local] Hint Resolve transfer_error_not_none bind_error_not_none
  listen_error_not_none accept_error_not_none : bsocket.

Lemma status_failure e b l :
  e <> BSOCKET_ERROR_NONE ->
  status_matches_error (-1) {| bs := set_error e b; os_log := l |}.
Proof.
  intro He. unfold status_matches_error; simpl. split.
  - split; [lia | intro; contradiction].
  - intros _. auto.
Qed.

Lemma status_success r b l :
  0 <= r ->
  status_matches_error r
    {| bs := set_error BSOCKET_ERROR_NONE b; os_log := l |}.
Proof.
  intro Hr. unfold status_matches_error; simpl. split.
  - split; auto.
  - lia.
Qed.

(** Closes the goal left at the end of a run: the operation either failed
    with a mapped error or succeeded with a count that is not negative. *)
Ltac settle :=
  cbn [fst snd];
  first [ apply status_failure; solve [auto with bsocket | discriminate]
        | apply status_success; lia ].

(** The same for a success whose count came back as a DWORD. *)
Ltac counted counts :=
  match goal with
  | |- context [r_bytes (?os ?l ?c)] =>
      let Hc := fresh "Hc" in
      pose proof (counts eq_refl l c) as Hc; unfold INT_MAX in Hc;
      rewrite wrap_int_small by (unfold INT_MAX; lia);
      apply status_success; lia
  end.

Section ErrorSlot.

Variable os : list syscall -> syscall -> os_reply.
Variable CMSG_SPACE : Z -> Z.
Variable CMSG_LEN : Z -> Z.
Variable BSOCKET_DEFAULT_BACKLOG : Z.
Variable BSOCKET_DEFAULT_RECV_MAX : Z.

Lemma connect_status plat a w r w' :
  BSocket_Connect plat os a w = Ok (r, w') -> status_matches_error r w'.
Proof. unfold BSocket_Connect. intro H. mrun; settle. Qed.

Lemma bind_status plat a w r w' :
  BSocket_Bind plat os a w = Ok (r, w') -> status_matches_error r w'.
Proof. unfold BSocket_Bind. intro H. mrun; settle. Qed.

Lemma listen_status n w r w' :
  BSocket_Listen os BSOCKET_DEFAULT_BACKLOG n w = Ok (r, w') ->
  status_matches_error r w'.
Proof. unfold BSocket_Listen. intro H. mrun; settle. Qed.

Lemma accept_status plat ns wa w r w' :
  BSocket_Accept plat os BSOCKET_DEFAULT_RECV_MAX ns wa w = Ok (r, w') ->
  status_matches_error (fst (fst r)) w'.
Proof.
  unfold BSocket_Accept, close_socket, set_nonblocking. intro H.
  mrun; settle.
Qed.

Lemma send_status plat data n w r w' :
  BSocket_Send plat os data n w = Ok (r, w') -> status_matches_error r w'.
Proof. unfold BSocket_Send. intro H. mrun; settle. Qed.

Lemma recv_status plat n w r w' :
  BSocket_Recv plat os n w = Ok (r, w') -> status_matches_error r w'.
Proof. unfold BSocket_Recv, limit_recv. intro H. mrun; settle. Qed.

Lemma send_to_status plat data n a w r w' :
  BSocket_SendTo plat os data n a w = Ok (r, w') ->
  status_matches_error r w'.
Proof. unfold BSocket_SendTo. intro H. mrun; settle. Qed.

Lemma recv_from_status plat n w r w' :
  BSocket_RecvFrom plat os n w = Ok (r, w') ->
  status_matches_error (fst r) w'.
Proof. unfold BSocket_RecvFrom, limit_recv. intro H. mrun; settle. Qed.

Lemma send_to_from_status plat data n a l w r w' :
  (plat = Winapi -> os_counts_sane os) ->
  BSocket_SendToFrom plat os CMSG_SPACE CMSG_LEN data n a l w = Ok (r, w') ->
  status_matches_error r w'.
Proof.
  unfold BSocket_SendToFrom, obtain_extension. intros counts H.
  mrun; eauto using send_to_status; try settle.
  counted counts.
Qed.

Lemma recv_from_to_status plat n w r w' :
  (plat = Winapi -> os_counts_sane os) ->
  BSocket_RecvFromTo plat os CMSG_SPACE CMSG_LEN n w = Ok (r, w') ->
  status_matches_error (fst (fst r)) w'.
Proof.
  unfold BSocket_RecvFromTo, recvfromto_fallback, obtain_extension,
    limit_recv.
  intros counts H.
  mrun; cbn [fst snd]; eauto using recv_from_status; try settle;
    counted counts.
Qed.

Lemma get_peer_name_status plat w r w' :
  BSocket_GetPeerName plat os w = Ok (r, w') ->
  status_matches_error (fst r) w'.
Proof. unfold BSocket_GetPeerName. intro H. mrun; settle. Qed.

End ErrorSlot.

Lemma run_op_returns plat os cs cl bl rm op w :
  os_well_behaved plat os -> op_ready op w ->
  exists status w', run_op plat os cs cl bl rm op w = Ok (status, w').
Proof.
  intros Hw [Ha Hs].
  destruct (run_op plat os cs cl bl rm op w) as [[s w']|] eqn:H;
    [eauto|exfalso].
  destruct op; cbn [run_op op_args_ok] in *;
    try (apply andb_prop in Ha; destruct Ha as [Ha Hv]);
    unfold BSocket_Connect, BSocket_Bind, BSocket_Listen, BSocket_Accept,
      BSocket_Send, BSocket_Recv, BSocket_RecvFromTo, BSocket_SendToFrom,
      recvfromto_fallback, BSocket_SendTo, BSocket_RecvFrom,
      BSocket_GetPeerName, obtain_extension, limit_recv, close_socket,
      set_nonblocking, init_event_backend in H;
    arun; absurd_leaf.
Qed.

(** C9. Whichever of connect, bind, listen, accept, send, recv, send_to,
    recv_from, send_to_from, recv_from_to and get_peer_name is called, when
    the call returns the error slot holds NONE exactly if the status
    returned signals success (it is not negative), and a failure is the
    status -1 with a kind other than NONE in the slot; and the call does
    return when the caller's arguments pass the assertions and the OS hands
    back well-formed addresses.  Under Winapi the byte counts reported
    through WSASendMsg and WSARecvMsg are taken to fit an [int]. *)
Theorem error_slot_matches_status (plat : platform)
  (os : list syscall -> syscall -> os_reply) (CMSG_SPACE CMSG_LEN : Z -> Z)
  (BSOCKET_DEFAULT_BACKLOG BSOCKET_DEFAULT_RECV_MAX : Z)
  (op : sock_op) (w : World) :
  (plat = Winapi -> os_counts_sane os) ->
  (forall status w',
     run_op plat os CMSG_SPACE CMSG_LEN BSOCKET_DEFAULT_BACKLOG
       BSOCKET_DEFAULT_RECV_MAX op w = Ok (status, w') ->
     (0 <= status <-> error (bs w') = BSOCKET_ERROR_NONE) /\
     (status < 0 -> status = -1 /\ error (bs w') <> BSOCKET_ERROR_NONE)) /\
  (os_well_behaved plat os -> op_ready op w ->
   exists status w',
     run_op plat os CMSG_SPACE CMSG_LEN BSOCKET_DEFAULT_BACKLOG
       BSOCKET_DEFAULT_RECV_MAX op w = Ok (status, w')).
Proof.
  intros Hc. split; [|apply run_op_returns].
  intros status w' H. change (status_matches_error status w').
  destruct op; cbn [run_op] in H; mrun;
    eauto using connect_status, bind_status, listen_status, accept_status,
      send_status, recv_status, send_to_status, recv_from_status,
      send_to_from_status, recv_from_to_status, get_peer_name_status.
Qed.

Lemma sample_well_behaved : os_well_behaved Posix Sample.os_would_block.
Proof.
  intros l c. split; [|split].
  - destruct c; intro E; cbv in E; discriminate E.
  - intros fd ->. reflexivity.
  - intros ev ->. cbv. discriminate.
Defined.

Lemma error_slot_matches_status_witness :
  exists status w',
    run_op Posix Sample.os_would_block
      Sample.cmsg_space Sample.cmsg_len 128 2 (Op_recv 10)
      (Sample.world (Sample.fresh BSOCKET_TYPE_DGRAM false)) =
    Ok (status, w') /\
    (0 <= status <-> error (bs w') = BSOCKET_ERROR_NONE) /\
    (status < 0 -> status = -1 /\ error (bs w') <> BSOCKET_ERROR_NONE).
Proof.
  destruct (@error_slot_matches_status Posix Sample.os_would_block
              Sample.cmsg_space Sample.cmsg_len 128 2 (Op_recv 10)
              (Sample.world (Sample.fresh BSOCKET_TYPE_DGRAM false))
              (fun e : Posix = Winapi => ltac:(discriminate e)))
    as [Hslot Hret].
  destruct (Hret sample_well_behaved (conj eq_refl I))
    as (status & w' & Hrun).
  exists status, w'. split; [exact Hrun | exact (Hslot status w' Hrun)].
Defined.

(** ** Connection reset *)

(** Rewrites the answer of every data-transfer call in the goal by what
    [reports_reset] says about it. *)
Ltac reset_calls Hreset :=
  repeat match goal with
  | |- context [r_ret (?os ?l ?c)] =>
      lazymatch goal with
      | H : r_errno (os l c) = ECONNRESET |- _ => fail
      | _ => idtac
      end;
      let Hneg := fresh "Hneg" in
      let Herr := fresh "Herr" in
      destruct (Hreset l c eq_refl) as [Hneg Herr];
      rewrite ?Herr;
      rewrite ?(proj2 (Z.ltb_lt _ _) Hneg);
      rewrite ?(proj2 (Z.eqb_neq (r_ret (os l c)) 0)) by lia
  end.

Ltac unfold_m :=
  unfold fail_with, limit_recv, obtain_extension, bind, ASSERT, get_bs,
    assert_some, os_call, modify_bs, ret.

Lemma reset_kind_cases plat ty :
  transfer_error plat ty ECONNRESET = reset_kind plat ty.
Proof. destruct plat, ty; reflexivity. Qed.

Section Reset.

Variable os : list syscall -> syscall -> os_reply.
Variable CMSG_SPACE : Z -> Z.
Variable CMSG_LEN : Z -> Z.
Hypothesis Hreset : reports_reset os.

Lemma send_reset plat data n w :
  0 <= n ->
  exists w', BSocket_Send plat os data n w = Ok (-1, w') /\
             error (bs w') = reset_kind plat (type (bs w)).
Proof.
  intros Hn. unfold BSocket_Send. unfold_m.
  rewrite (proj2 (Z.geb_le n 0) Hn). cbn [negb bs os_log].
  reset_calls Hreset.
  eexists; split; [reflexivity|]. apply reset_kind_cases.
Qed.

Lemma send_to_reset plat data n a w :
  0 <= n -> BAddr_valid a ->
  exists w', BSocket_SendTo plat os data n a w = Ok (-1, w') /\
             error (bs w') = reset_kind plat (type (bs w)).
Proof.
  intros Hn Ha. destruct (addr_socket_to_sys_valid plat a Ha) as [sa Hsa].
  unfold BSocket_SendTo. unfold_m.
  rewrite (proj2 (Z.geb_le n 0) Hn), Hsa. cbn [negb bs os_log].
  reset_calls Hreset.
  eexists; split; [reflexivity|]. apply reset_kind_cases.
Qed.

Lemma recv_reset plat n w :
  0 <= n -> quota_left (bs w) ->
  exists w', BSocket_Recv plat os n w = Ok (-1, w') /\
             error (bs w') = reset_kind plat (type (bs w)).
Proof.
  intros Hn Hq. unfold BSocket_Recv. unfold_m.
  rewrite (proj2 (Z.geb_le n 0) Hn). cbn [negb bs os_log].
  unfold quota_left in Hq.
  destruct (recv_max (bs w) >? 0) eqn:E.
  - replace (recv_num (bs w) >=? recv_max (bs w)) with false by lia.
    cbn. reset_calls Hreset.
    eexists; split; [reflexivity|]. apply reset_kind_cases.
  - cbn. reset_calls Hreset.
    eexists; split; [reflexivity|]. apply reset_kind_cases.
Qed.

Lemma recv_from_reset plat n w :
  0 <= n -> quota_left (bs w) ->
  exists w' oa, BSocket_RecvFrom plat os n w = Ok ((-1, oa), w') /\
                error (bs w') = reset_kind plat (type (bs w)).
Proof.
  intros Hn Hq. unfold BSocket_RecvFrom. unfold_m.
  rewrite (proj2 (Z.geb_le n 0) Hn). cbn [negb bs os_log].
  unfold quota_left in Hq.
  destruct (recv_max (bs w) >? 0) eqn:E.
  - replace (recv_num (bs w) >=? recv_max (bs w)) with false by lia.
    cbn. reset_calls Hreset.
    eexists; eexists; split; [reflexivity|]. apply reset_kind_cases.
  - cbn. reset_calls Hreset.
    eexists; eexists; split; [reflexivity|]. apply reset_kind_cases.
Qed.

Lemma send_to_from_reset plat data n a l w :
  0 <= n -> BAddr_valid a ->
  exists w',
    BSocket_SendToFrom plat os CMSG_SPACE CMSG_LEN data n a l w =
    Ok (-1, w') /\
    error (bs w') = reset_kind plat (type (bs w)).
Proof.
  intros Hn Ha. destruct (addr_socket_to_sys_valid plat a Ha) as [sa Hsa].
  unfold BSocket_SendToFrom.
  unfold bind at 1. unfold ASSERT at 1. rewrite (proj2 (Z.geb_le n 0) Hn).
  unfold bind at 1. unfold get_bs at 1.
  destruct (have_pktinfo (bs w)); cbn [negb].
  2: { apply send_to_reset; auto. }
  unfold obtain_extension. destruct plat.
  - unfold_m. rewrite Hsa. cbn [negb bs os_log]. reset_calls Hreset.
    eexists; split; [reflexivity|]. reflexivity.
  - unfold bind at 1. unfold bind at 1. unfold os_call at 1. unfold ret at 1.
    destruct (r_ret _ =? 0); cbn [negb].
    + unfold_m. rewrite Hsa. cbn [negb bs os_log]. reset_calls Hreset.
      eexists; split; [reflexivity|].
      cbn. destruct (type (bs w)); reflexivity.
    + match goal with
      | |- context [BSocket_SendTo _ _ _ _ _ ?w1] =>
          destruct (@send_to_reset Winapi data n a w1 Hn Ha)
            as (w' & H1 & H2)
      end.
      exists w'. split; auto.
Qed.

Lemma recv_from_to_reset plat n w :
  0 <= n -> quota_left (bs w) ->
  exists w' oa ol,
    BSocket_RecvFromTo plat os CMSG_SPACE CMSG_LEN n w = Ok ((-1, oa, ol), w') /\
    error (bs w') = reset_kind plat (type (bs w)).
Proof.
  intros Hn Hq.
  assert (Hfb : forall w1, bs w1 = bs w ->
     exists w' oa ol,
       recvfromto_fallback plat os n w1 = Ok ((-1, oa, ol), w') /\
       error (bs w') = reset_kind plat (type (bs w))).
  { intros w1 E. unfold recvfromto_fallback. unfold bind at 1.
    destruct (@recv_from_reset plat n w1 Hn) as (w' & oa & H1 & H2).
    - now rewrite E.
    - rewrite H1. cbn. exists w', oa, None. rewrite <- E. auto. }
  unfold BSocket_RecvFromTo.
  unfold bind at 1. unfold ASSERT at 1. rewrite (proj2 (Z.geb_le n 0) Hn).
  unfold bind at 1. unfold get_bs at 1.
  destruct (have_pktinfo (bs w)); cbn [negb].
  2: { apply Hfb; auto. }
  unfold quota_left in Hq.
  unfold obtain_extension. destruct plat.
  - unfold_m. cbn [negb bs os_log].
    destruct (recv_max (bs w) >? 0) eqn:E.
    + replace (recv_num (bs w) >=? recv_max (bs w)) with false by lia.
      cbn. reset_calls Hreset.
      do 3 eexists; split; [reflexivity|]. reflexivity.
    + cbn. reset_calls Hreset.
      do 3 eexists; split; [reflexivity|]. reflexivity.
  - unfold bind at 1. unfold bind at 1. unfold os_call at 1. unfold ret at 1.
    destruct (r_ret _ =? 0); cbn [negb].
    + unfold_m. cbn [negb bs os_log].
      destruct (recv_max (bs w) >? 0) eqn:E.
      * replace (recv_num (bs w) >=? recv_max (bs w)) with false by lia.
        cbn. reset_calls Hreset.
        do 3 eexists; split; [reflexivity|].
        cbn. destruct (type (bs w)); reflexivity.
      * cbn. reset_calls Hreset.
        do 3 eexists; split; [reflexivity|].
        cbn. destruct (type (bs w)); reflexivity.
    + apply Hfb. reflexivity.
Qed.

End Reset.

(** Which answer of the OS the [switch] turns into CONNECTION_REFUSED. *)
Lemma transfer_error_refused plat ty e :
  transfer_error plat ty e = BSOCKET_ERROR_CONNECTION_REFUSED ->
  match plat with
  | Posix => e = ECONNREFUSED
  | Winapi => e = ECONNRESET /\ ty = BSOCKET_TYPE_DGRAM
  end.
Proof.
  destruct plat, ty, e; cbn; intro H; try discriminate H; auto.
Qed.

Ltac refused_leaf Herr :=
  cbn [bs os_log error set_error set_recv_num type fst snd] in *;
  first
    [ discriminate Herr
    | split; [reflexivity|];
      do 2 eexists; split; [reflexivity|]; split; [reflexivity|];
      apply transfer_error_refused in Herr; exact Herr ].

(** A transfer that leaves CONNECTION_REFUSED in the slot failed, and the
    last call it made was a transfer primitive that the OS answered with
    ECONNREFUSED (POSIX), or with a connection reset on a datagram socket
    (Windows). *)
Lemma refused_origin plat os cs cl bl rm op w s w' :
  is_transfer_op op = true ->
  run_op plat os cs cl bl rm op w = Ok (s, w') ->
  error (bs w') = BSOCKET_ERROR_CONNECTION_REFUSED ->
  s = -1 /\
  exists c l,
    os_log w' = c :: l /\ is_transfer_primitive c = true /\
    match plat with
    | Posix => r_errno (os l c) = ECONNREFUSED
    | Winapi => r_errno (os l c) = ECONNRESET /\
                type (bs w) = BSOCKET_TYPE_DGRAM
    end.
Proof.
  intros Hop H Herr.
  destruct op; try discriminate Hop; cbn [run_op] in *;
    unfold BSocket_SendToFrom, BSocket_RecvFromTo, recvfromto_fallback,
      BSocket_Send, BSocket_Recv, BSocket_SendTo, BSocket_RecvFrom,
      obtain_extension, limit_recv in H.
  - mrun; refused_leaf Herr.
  - mrun; refused_leaf Herr.
  - mrun; refused_leaf Herr.
  - mrun; refused_leaf Herr.
  - mrun; refused_leaf Herr.
  - mrun; refused_leaf Herr.
Qed.

(** C1, as the code has it.  When the OS answers a send, send_to,
    send_to_from, recv, recv_from or recv_from_to with "connection reset",
    the operation fails (status -1) and the error slot depends on the
    build: under BADVPN_USE_WINAPI a DGRAM socket gets CONNECTION_REFUSED
    and a STREAM socket CONNECTION_RESET; on POSIX the slot is
    CONNECTION_RESET whatever the kind of socket.  On POSIX a transfer
    leaves CONNECTION_REFUSED only when the primitive it called was
    answered with ECONNREFUSED; under BADVPN_USE_WINAPI only when it was
    answered with a connection reset on a DGRAM socket. *)
Theorem connection_reset_kind (plat : platform)
  (os : list syscall -> syscall -> os_reply) (CMSG_SPACE CMSG_LEN : Z -> Z)
  (BSOCKET_DEFAULT_BACKLOG BSOCKET_DEFAULT_RECV_MAX : Z)
  (op : sock_op) (w : World) :
  is_transfer_op op = true ->
  (op_args_ok op = true ->
   quota_left (bs w) ->
   reports_reset os ->
   exists w',
     run_op plat os CMSG_SPACE CMSG_LEN BSOCKET_DEFAULT_BACKLOG
       BSOCKET_DEFAULT_RECV_MAX op w = Ok (-1, w') /\
     error (bs w') =
     match plat, type (bs w) with
     | Winapi, BSOCKET_TYPE_DGRAM => BSOCKET_ERROR_CONNECTION_REFUSED
     | Winapi, BSOCKET_TYPE_STREAM => BSOCKET_ERROR_CONNECTION_RESET
     | Posix, _ => BSOCKET_ERROR_CONNECTION_RESET
     end) /\
  (forall s w',
     run_op plat os CMSG_SPACE CMSG_LEN BSOCKET_DEFAULT_BACKLOG
       BSOCKET_DEFAULT_RECV_MAX op w = Ok (s, w') ->
     error (bs w') = BSOCKET_ERROR_CONNECTION_REFUSED ->
     s = -1 /\
     exists c l,
       os_log w' = c :: l /\ is_transfer_primitive c = true /\
       match plat with
       | Posix => r_errno (os l c) = ECONNREFUSED
       | Winapi => r_errno (os l c) = ECONNRESET /\
                   type (bs w) = BSOCKET_TYPE_DGRAM
       end).
Proof.
  intros Ht. split; [|intros s w'; now apply refused_origin].
  intros Ha Hq Hr.
  assert (Hk : reset_kind plat (type (bs w)) =
               match plat, type (bs w) with
               | Winapi, BSOCKET_TYPE_DGRAM => BSOCKET_ERROR_CONNECTION_REFUSED
               | Winapi, BSOCKET_TYPE_STREAM => BSOCKET_ERROR_CONNECTION_RESET
               | Posix, _ => BSOCKET_ERROR_CONNECTION_RESET
               end)
    by (destruct plat, (type (bs w)); reflexivity).
  rewrite <- Hk.
  destruct op; try discriminate Ht; cbn [run_op op_args_ok] in *.
  - apply send_reset; auto. lia.
  - apply recv_reset; auto. lia.
  - apply andb_prop in Ha. destruct Ha as [Hn Hv].
    apply send_to_reset; auto; [lia | now apply BAddr_validb_valid].
  - destruct (@recv_from_reset os Hr plat n w) as (w' & oa & H1 & H2);
      auto; [lia|].
    exists w'. unfold bind. rewrite H1. auto.
  - apply andb_prop in Ha. destruct Ha as [Hn Hv].
    apply send_to_from_reset; auto; [lia | now apply BAddr_validb_valid].
  - destruct (@recv_from_to_reset os CMSG_SPACE CMSG_LEN Hr plat n w)
      as (w' & oa & ol & H1 & H2); auto; [lia|].
    exists w'. unfold bind. rewrite H1. auto.
Qed.

Lemma sample_reports_reset :
  reports_reset (Sample.os_always (Sample.reply (-1) ECONNRESET)).
Proof. intros l c _. simpl. split; [lia | reflexivity]. Defined.

Lemma connection_reset_kind_witness :
  exists w',
    run_op Winapi (Sample.os_always (Sample.reply (-1) ECONNRESET))
      Sample.cmsg_space Sample.cmsg_len 128 2
      (Op_send_to_from [] 0 Sample.loopback (BIPAddr_ipv4 16777343))
      (Sample.world (Sample.fresh BSOCKET_TYPE_DGRAM true)) = Ok (-1, w') /\
    error (bs w') = BSOCKET_ERROR_CONNECTION_REFUSED /\
    exists c l,
      os_log w' = c :: l /\ is_transfer_primitive c = true /\
      r_errno (Sample.os_always (Sample.reply (-1) ECONNRESET) l c) =
      ECONNRESET.
Proof.
  destruct (@connection_reset_kind Winapi
              (Sample.os_always (Sample.reply (-1) ECONNRESET))
              Sample.cmsg_space Sample.cmsg_len 128 2
              (Op_send_to_from [] 0 Sample.loopback (BIPAddr_ipv4 16777343))
              (Sample.world (Sample.fresh BSOCKET_TYPE_DGRAM true))
              eq_refl) as [Hreset Hrefused].
  destruct (Hreset eq_refl) as (w' & Hrun & Herr).
  - unfold quota_left. simpl. lia.
  - exact sample_reports_reset.
  - exists w'. split; [exact Hrun|]. split; [exact Herr|].
    destruct (Hrefused _ _ Hrun Herr) as (_ & c & l & Hl & Hc & He & _).
    exists c, l. auto.
Defined.

(** C1 as worded fails on the POSIX build: a DGRAM socket whose [send] is
    answered with ECONNRESET ends with CONNECTION_RESET in the slot, not
    CONNECTION_REFUSED. *)
Lemma dgram_reset_posix_counterexample :
  type (bs (Sample.world (Sample.fresh BSOCKET_TYPE_DGRAM false))) =
  BSOCKET_TYPE_DGRAM /\
  reports_reset (Sample.os_always (Sample.reply (-1) ECONNRESET)) /\
  exists w',
    run_op Posix (Sample.os_always (Sample.reply (-1) ECONNRESET))
      Sample.cmsg_space Sample.cmsg_len 128 2 (Op_send [] 0)
      (Sample.world (Sample.fresh BSOCKET_TYPE_DGRAM false)) = Ok (-1, w') /\
    error (bs w') = BSOCKET_ERROR_CONNECTION_RESET /\
    error (bs w') <> BSOCKET_ERROR_CONNECTION_REFUSED.
Proof.
  split; [reflexivity|]. split; [exact sample_reports_reset|].
  eexists. split; [cbv; reflexivity|]. split; [reflexivity | discriminate].
Qed.

(** ** Send with source *)

(** C3. Without pktinfo support, and under Winapi when WSASendMsg cannot be
    obtained, [BSocket_SendToFrom] is [BSocket_SendTo].  Otherwise it issues
    one sendmsg whose control buffer is keyed by the local-address hint: no
    record for "none"; for IPv4 one record of level IPPROTO_IP and type
    IP_PKTINFO whose source-selection field ([ipi_spec_dst] on POSIX,
    [ipi_addr] under Winapi) is the hint; for IPv6 one record of level
    IPPROTO_IPV6 and type IPV6_PKTINFO with [ipi6_addr] the hint and
    interface index 0.  The control length handed over is the sum of
    CMSG_SPACE(payload) over the records, hence 0 for "none". *)
Theorem send_to_from_control (plat : platform)
  (os : list syscall -> syscall -> os_reply) (CMSG_SPACE CMSG_LEN : Z -> Z)
  (data : list byte) (n : Z) (a : BAddr) (local : BIPAddr) (w : World) :
  let ioctl := SYS_WSAIoctl_get_sendmsg (socket (bs w)) in
  (have_pktinfo (bs w) = false ->
   BSocket_SendToFrom plat os CMSG_SPACE CMSG_LEN data n a local w =
   BSocket_SendTo plat os data n a w) /\
  (have_pktinfo (bs w) = true ->
   r_ret (os (os_log w) ioctl) <> 0 ->
   BSocket_SendToFrom Winapi os CMSG_SPACE CMSG_LEN data n a local w =
   BSocket_SendTo Winapi os data n a
     {| bs := bs w; os_log := ioctl :: os_log w |}) /\
  (have_pktinfo (bs w) = true ->
   (plat = Winapi -> r_ret (os (os_log w) ioctl) = 0) ->
   0 <= n ->
   forall sa, addr_socket_to_sys plat a = Some sa ->
   exists status w' msg,
     BSocket_SendToFrom plat os CMSG_SPACE CMSG_LEN data n a local w =
     Ok (status, w') /\
     os_log w' =
     SYS_sendmsg (socket (bs w)) msg (send_flags plat)
     :: log_after_extension plat ioctl (os_log w) /\
     msg_name msg = sa /\ msg_iov_base msg = data /\ msg_iov_len msg = n /\
     msg_controllen msg = control_space CMSG_SPACE plat (msg_control msg) /\
     match local with
     | BIPAddr_none => msg_control msg = [] /\ msg_controllen msg = 0
     | BIPAddr_ipv4 ip =>
         exists p,
           msg_control msg =
           [{| out_level := IPPROTO_IP; out_type := IP_PKTINFO plat;
               out_len := CMSG_LEN (sizeof_in_pktinfo plat);
               out_data := Data_in p |}] /\
           source_selection plat p = ip /\ ipi_ifindex p = 0 /\
           msg_controllen msg = CMSG_SPACE (sizeof_in_pktinfo plat)
     | BIPAddr_ipv6 ip =>
         msg_control msg =
         [{| out_level := IPPROTO_IPV6; out_type := IPV6_PKTINFO plat;
             out_len := CMSG_LEN sizeof_in6_pktinfo;
             out_data := Data_in6 {| ipi6_addr := firstn 16 ip;
                                     ipi6_ifindex := 0 |} |}] /\
         msg_controllen msg = CMSG_SPACE sizeof_in6_pktinfo
     end).
Proof.
  intro ioctl. split; [|split].
  - intro Hp. unfold BSocket_SendToFrom.
    unfold bind at 1. unfold ASSERT at 1.
    destruct (n >=? 0) eqn:En.
    + unfold bind at 1. unfold get_bs at 1. now rewrite Hp.
    + unfold BSocket_SendTo, bind, ASSERT. now rewrite En.
  - intros Hp Hr. unfold BSocket_SendToFrom.
    unfold bind at 1. unfold ASSERT at 1.
    destruct (n >=? 0) eqn:En.
    + unfold bind at 1. unfold get_bs at 1. rewrite Hp. cbn [negb].
      unfold obtain_extension.
      unfold bind at 1. unfold bind at 1. unfold os_call at 1.
      unfold ret at 1. fold ioctl.
      apply Z.eqb_neq in Hr. now rewrite Hr.
    + unfold BSocket_SendTo, bind, ASSERT. now rewrite En.
  - intros Hp Hext Hn sa Hsa.
    unfold BSocket_SendToFrom. unfold_m.
    rewrite (proj2 (Z.geb_le n 0) Hn). cbn [bs os_log].
    rewrite Hp. cbn [negb bs os_log].
    assert (Hctl :
      control_space CMSG_SPACE plat
        (fst (build_control plat CMSG_SPACE CMSG_LEN local)) =
      snd (build_control plat CMSG_SPACE CMSG_LEN local)).
    { destruct local; cbn; lia. }
    assert (Hrec :
      match local with
      | BIPAddr_none =>
          fst (build_control plat CMSG_SPACE CMSG_LEN local) = [] /\
          snd (build_control plat CMSG_SPACE CMSG_LEN local) = 0
      | BIPAddr_ipv4 ip =>
          exists p,
            fst (build_control plat CMSG_SPACE CMSG_LEN local) =
            [{| out_level := IPPROTO_IP; out_type := IP_PKTINFO plat;
                out_len := CMSG_LEN (sizeof_in_pktinfo plat);
                out_data := Data_in p |}] /\
            source_selection plat p = ip /\ ipi_ifindex p = 0 /\
            snd (build_control plat CMSG_SPACE CMSG_LEN local) =
            CMSG_SPACE (sizeof_in_pktinfo plat)
      | BIPAddr_ipv6 ip =>
          fst (build_control plat CMSG_SPACE CMSG_LEN local) =
          [{| out_level := IPPROTO_IPV6; out_type := IPV6_PKTINFO plat;
              out_len := CMSG_LEN sizeof_in6_pktinfo;
              out_data := Data_in6 {| ipi6_addr := firstn 16 ip;
                                      ipi6_ifindex := 0 |} |}] /\
          snd (build_control plat CMSG_SPACE CMSG_LEN local) =
          CMSG_SPACE sizeof_in6_pktinfo
      end).
    { destruct local; cbn; auto.
      eexists. split; [reflexivity|]. destruct plat; cbn; auto. }
    destruct plat.
    + rewrite Hsa. cbn [negb bs os_log].
      match goal with |- context [if ?c then _ else _] => destruct c end;
        (do 3 eexists; split; [reflexivity|]; cbn [os_log msg_name
           msg_iov_base msg_iov_len msg_control msg_controllen
           log_after_extension];
         repeat split; auto).
    + specialize (Hext eq_refl). fold ioctl. rewrite Hext.
      cbn [Z.eqb negb bs os_log]. rewrite Hsa. cbn [negb bs os_log].
      match goal with |- context [if ?c then _ else _] => destruct c end;
        (do 3 eexists; split; [reflexivity|]; cbn [os_log msg_name
           msg_iov_base msg_iov_len msg_control msg_controllen negb
           log_after_extension];
         repeat split; auto).
Qed.

Lemma send_to_from_control_witness :
  exists status w' msg,
    BSocket_SendToFrom Posix (Sample.os_always (Sample.reply 1 E_ok))
      Sample.cmsg_space Sample.cmsg_len ["x"%byte] 1 Sample.loopback
      (BIPAddr_ipv4 16777343)
      (Sample.world (Sample.fresh BSOCKET_TYPE_DGRAM true)) =
    Ok (status, w') /\
    os_log w' = [SYS_sendmsg 3 msg MSG_NOSIGNAL] /\
    msg_controllen msg = 32.
Proof.
  destruct (@send_to_from_control Posix
              (Sample.os_always (Sample.reply 1 E_ok))
              Sample.cmsg_space Sample.cmsg_len ["x"%byte] 1 Sample.loopback
              (BIPAddr_ipv4 16777343)
              (Sample.world (Sample.fresh BSOCKET_TYPE_DGRAM true)))
    as (_ & _ & H).
  destruct (H eq_refl (fun e : Posix = Winapi => ltac:(discriminate e))
              ltac:(lia) Sample.loopback_sys eq_refl)
    as (status & w' & msg & H1 & H2 & _ & _ & _ & _ & p & _ & _ & _ & H6).
  exists status, w', msg.
  split; [exact H1|]. split; [exact H2|]. rewrite H6. reflexivity.
Defined.

(** ** Receive with destination *)











(** A packet-information record behind a timestamp does not fit the
    buffer: the walk ends before it and the local address is "none". *)
Lemma record_beyond_buffer_not_seen :
  exists status oa w',
    BSocket_RecvFromTo Posix (Sample.os_always Sample.behind_timestamp)
      Sample.cmsg_space Sample.cmsg_len 100
      (Sample.world (Sample.fresh BSOCKET_TYPE_DGRAM true)) =
    Ok ((status, oa, Some BIPAddr_none), w') /\
    map snd
      (cmsg_walk Sample.cmsg_space Sample.cmsg_len
         (sizeof_cdata Posix Sample.cmsg_space) 0
         (cb_headers (r_control Sample.behind_timestamp))) =
    [Build_cmsg_in 32 1 29].
Proof. do 3 eexists. split; [cbv; reflexivity | reflexivity]. Qed.

(** A packet-information record cut short to its header is still read as
    if it held the structure: here the structure lies beyond the 40 bytes
    of the buffer, and the local address reported is what the memory there
    happens to hold. *)
Lemma cut_short_record_read_beyond_buffer :
  exists status oa w',
    BSocket_RecvFromTo Posix (Sample.os_always Sample.cut_short)
      Sample.cmsg_space Sample.cmsg_len 100
      (Sample.world (Sample.fresh BSOCKET_TYPE_DGRAM true)) =
    Ok ((status, oa, Some (BIPAddr_ipv4 16777343)), w') /\
    existsb
      (fun oc =>
         negb (cmsg_complete Posix Sample.cmsg_len (snd oc))
         && negb (read_within Posix Sample.cmsg_len
                    (sizeof_cdata Posix Sample.cmsg_space) oc))
      (cmsg_walk Sample.cmsg_space Sample.cmsg_len
         (sizeof_cdata Posix Sample.cmsg_space) 0
         (cb_headers (r_control Sample.cut_short))) = true.
Proof. do 3 eexists. split; [cbv; reflexivity | reflexivity]. Qed.

(** ** The dispatcher *)

Section Dispatch.
Variable hb : BSocket_handler -> Z -> Z -> M unit.

Lemma invoke_ok h u e w inv w' :
  invoke hb h u e w = Ok (inv, w') ->
  hb h u e w = Ok (tt, w') /\
  inv = {| inv_handler := h; inv_user := u; inv_events := e; inv_after := w' |}.
Proof.
  unfold invoke. destruct (hb h u e w) as [[[] w1]|]; [|discriminate].
  intro H. inversion H. auto.
Qed.

Lemma call_handlers_blocks ev w :
  call_handlers hb ev w =
  match global_handler (bs w) with
  | Some h =>
      (inv <- invoke hb h (global_handler_user (bs w)) ev;; ret [inv])
        (reset_recv_num w)
  | None => blocks hb dispatch_blocks ev [] (reset_recv_num w)
  end.
Proof.
  unfold call_handlers. unfold bind at 1. unfold modify_bs at 1.
  unfold bind at 1. unfold get_bs at 1.
  cbn [bs set_recv_num global_handler global_handler_user].
  destruct (global_handler (bs w)); reflexivity.
Qed.

Lemma call_event_handler_ok i e w inv killed w' :
  call_event_handler hb i e w = Ok ((inv, killed), w') ->
  exists h,
    array4_get (handlers (bs w)) i = Some h /\
    hb h (array4_get (handlers_user (bs w)) i) e w = Ok (tt, w') /\
    inv = {| inv_handler := h;
             inv_user := array4_get (handlers_user (bs w)) i;
             inv_events := e; inv_after := w' |} /\
    killed = dead (bs w').
Proof.
  unfold call_event_handler, DEAD_ENTER, DEAD_LEAVE. intro H.
  apply bind_ok in H. destruct H as (b & w0 & Hb & H).
  apply get_bs_ok in Hb. destruct Hb as [-> ->].
  apply bind_ok in H. destruct H as (h & w0 & Hh & H).
  apply assert_some_ok in Hh. destruct Hh as [Hh ->].
  apply bind_ok in H. destruct H as (u & w0 & Hu & H).
  apply ret_ok in Hu. destruct Hu as [_ ->].
  apply bind_ok in H. destruct H as (inv' & w0 & Hi & H).
  apply invoke_ok in Hi. destruct Hi as [Hrun ->].
  apply bind_ok in H. destruct H as (k & w1 & Hk & H).
  apply bind_ok in Hk. destruct Hk as (b & w2 & Hb & Hk).
  apply get_bs_ok in Hb. destruct Hb as [-> ->].
  apply ret_ok in Hk. destruct Hk as [-> ->].
  apply ret_ok in H. destruct H as [H ->]. inversion H; subst.
  exists h. auto.
Qed.

Lemma blocks_chain l :
  Forall (fun p => get_event_index (snd p) = Some (fst p)) l ->
  forall ev tr w tr' w',
  blocks hb l ev tr w = Ok (tr', w') ->
  exists new rest,
    tr' = tr ++ new /\
    handler_chain hb called_as_event w new w' /\
    filter (has_flag ev) (map snd l) = map inv_events new ++ rest /\
    (rest <> [] -> dead (bs w') = true).
Proof.
  induction 1 as [|[i e] t Hie Ht IH]; intros ev tr w tr' w' H.
  - cbn in H. apply ret_ok in H. destruct H; subst.
    exists [], []. rewrite app_nil_r.
    split; [reflexivity|]. split; [constructor|]. split; [reflexivity|].
    intro C. now contradiction C.
  - cbn [blocks] in H. unfold event_block in H. cbn [map filter snd].
    cbn [fst snd] in Hie.
    destruct (has_flag ev e) eqn:Ef.
    + apply bind_ok in H. destruct H as ([inv killed] & w1 & Hc & H).
      cbn [fst snd] in H.
      apply call_event_handler_ok in Hc.
      destruct Hc as (h & Hh & Hrun & Hinv & Hk).
      assert (Hsrc : called_as_event w inv).
      { exists i. subst inv. cbn. auto. }
      assert (Hafter : inv_after inv = w1) by (subst inv; reflexivity).
      assert (Hrun' : hb (inv_handler inv) (inv_user inv) (inv_events inv) w
                      = Ok (tt, inv_after inv)) by (subst inv; exact Hrun).
      assert (Hev : inv_events inv = e) by (subst inv; reflexivity).
      rewrite Hk in H. destruct (dead (bs w1)) eqn:Ed.
      * apply ret_ok in H. destruct H as [-> ->].
        exists [inv], (filter (has_flag ev) (map snd t)).
        split; [reflexivity|]. split; [|split].
        -- apply chain_cons; auto. rewrite Hafter. constructor.
        -- cbn. now rewrite Hev.
        -- auto.
      * apply IH in H. destruct H as (new & rest & -> & Hch & Hf & Hr).
        exists (inv :: new), rest.
        split; [now rewrite <- app_assoc|]. split; [|split].
        -- apply chain_cons; auto.
           ++ rewrite Hafter, Ed. discriminate.
           ++ now rewrite Hafter.
        -- cbn. now rewrite Hev, Hf.
        -- auto.
    + apply IH in H. exact H.
Qed.

Lemma handler_chain_abort source w tr w' :
  handler_chain hb source w tr w' ->
  forall pre inv post, tr = pre ++ inv :: post ->
  dead (bs (inv_after inv)) = true ->
  post = [] /\ w' = inv_after inv.
Proof.
  induction 1 as [w|w inv0 rest w' Hs Hrun Hd Hch IH];
    intros pre inv post E Hdead.
  - now destruct pre.
  - destruct pre as [|p pre]; cbn in E; inversion E; subst.
    + specialize (Hd Hdead). subst post. inversion Hch; subst. auto.
    + eapply IH; eauto.
Qed.

End Dispatch.

Lemma call_handlers_run (hb : BSocket_handler -> Z -> Z -> M unit)
  (returned_events : Z) (w : World) (tr : list invocation) (w' : World) :
  call_handlers hb returned_events w = Ok (tr, w') ->
  match global_handler (bs w) with
  | Some h =>
      tr = [{| inv_handler := h; inv_user := global_handler_user (bs w);
               inv_events := returned_events; inv_after := w' |}] /\
      hb h (global_handler_user (bs w)) returned_events (reset_recv_num w) =
      Ok (tt, w')
  | None =>
      handler_chain hb called_as_event (reset_recv_num w) tr w' /\
      exists rest,
        dispatch_order returned_events = map inv_events tr ++ rest /\
        (rest <> [] -> dead (bs w') = true)
  end.
Proof.
  rewrite call_handlers_blocks.
  destruct (global_handler (bs w)) as [h|]; intro H.
  - apply bind_ok in H. destruct H as (inv & w1 & Hi & H).
    apply invoke_ok in Hi. destruct Hi as [Hrun ->].
    apply ret_ok in H. destruct H as [-> ->]. auto.
  - apply blocks_chain in H.
    + destruct H as (new & rest & -> & Hch & Hf & Hr). cbn [app].
      split; [exact Hch|]. exists rest. auto.
    + repeat constructor.
Qed.

(** C4. A dispatch with a global handler installed calls that handler once,
    with the whole returned set.  Without one it calls the per-event
    handlers of the returned events in the order READ, WRITE, ACCEPT,
    CONNECT, each with its own event, each starting from the state the
    previous one left; and a handler that leaves the socket destroyed is the
    last one called, the state it left being the final state, untouched. *)
Theorem dispatch_order_and_abort (hb : BSocket_handler -> Z -> Z -> M unit)
  (returned_events : Z) (w : World) (tr : list invocation) (w' : World) :
  call_handlers hb returned_events w = Ok (tr, w') ->
  match global_handler (bs w) with
  | Some h =>
      tr = [{| inv_handler := h; inv_user := global_handler_user (bs w);
               inv_events := returned_events; inv_after := w' |}] /\
      hb h (global_handler_user (bs w)) returned_events (reset_recv_num w) =
      Ok (tt, w')
  | None =>
      handler_chain hb called_as_event (reset_recv_num w) tr w' /\
      (exists rest,
         dispatch_order returned_events = map inv_events tr ++ rest /\
         (rest <> [] -> dead (bs w') = true)) /\
      (forall pre inv post,
         tr = pre ++ inv :: post ->
         dead (bs (inv_after inv)) = true ->
         post = [] /\ w' = inv_after inv)
  end.
Proof.
  intro H. apply call_handlers_run in H.
  destruct (global_handler (bs w)) as [h|]; [exact H|].
  destruct H as (Hch & Hrest).
  split; [exact Hch|]. split; [exact Hrest|].
  intros pre inv post E Hd. eapply handler_chain_abort; eauto.
Qed.


Ltac quota_leaf :=
  unfold quota_outcome;
  cbn [bs os_log recv_max recv_num error set_error set_recv_num filter
       is_recv_primitive fst snd] in *;
  try solve [exfalso; lia];
  (split; [reflexivity|]);
  first
    [ solve [left; repeat split; solve [lia | reflexivity]]
    | solve [right; left; repeat split; try lia;
             do 2 eexists; split; reflexivity]
    | solve [right; right; repeat split; try lia;
             do 2 eexists; split; reflexivity] ].

Lemma dispatch_order_and_abort_witness :
  exists tr w',
    call_handlers Sample.closing
      (Z.lor BSOCKET_READ BSOCKET_WRITE)
      (Sample.world
         (set_handlers
            {| slot0 := Some 7; slot1 := Some 8; slot2 := None;
               slot3 := None |}
            (Sample.fresh BSOCKET_TYPE_STREAM false))) = Ok (tr, w') /\
    map inv_events tr = [BSOCKET_READ] /\
    dead (bs w') = true.
Proof.
  eexists. eexists. split; [cbv; reflexivity|].
  split; [reflexivity|].
  pose proof (@dispatch_order_and_abort Sample.closing
                (Z.lor BSOCKET_READ BSOCKET_WRITE)
                (Sample.world
                   (set_handlers
                      {| slot0 := Some 7; slot1 := Some 8; slot2 := None;
                         slot3 := None |}
                      (Sample.fresh BSOCKET_TYPE_STREAM false)))
                _ _ eq_refl) as H.
  cbn [global_handler bs Sample.world set_handlers Sample.fresh] in H.
  destruct H as (_ & (rest & Hrest & Hdead) & _).
  apply Hdead. intro E. rewrite E in Hrest. discriminate Hrest.
Defined.

(** ** The receive quota: counting *)

Lemma recv_op_quota plat os CMSG_SPACE CMSG_LEN bl rm op w s w' :
  is_recv_op op = true ->
  run_op plat os CMSG_SPACE CMSG_LEN bl rm op w = Ok (s, w') ->
  recv_max (bs w') = recv_max (bs w) /\ quota_outcome w s w'.
Proof.
  intros Hop H.
  destruct op; try discriminate Hop; cbn [run_op] in H;
    unfold BSocket_RecvFromTo, recvfromto_fallback, obtain_extension,
      BSocket_Recv, BSocket_RecvFrom, limit_recv in H.
  - mrun; quota_leaf.
  - mrun. all: try quota_leaf.
  - mrun. all: try quota_leaf.
Qed.

Section Quota.

Variable plat : platform.
Variable os : list syscall -> syscall -> os_reply.
Variable CMSG_SPACE : Z -> Z.
Variable CMSG_LEN : Z -> Z.
Variable BSOCKET_DEFAULT_BACKLOG : Z.
Variable BSOCKET_DEFAULT_RECV_MAX : Z.

Lemma run_ops_count ops :
  Forall (fun op => is_recv_op op = true) ops ->
  forall w ss w',
  0 <= recv_num (bs w) ->
  recv_num (bs w) + Z.of_nat (length ops) <= recv_max (bs w) ->
  recv_max (bs w) <= INT_MAX ->
  run_ops plat os CMSG_SPACE CMSG_LEN BSOCKET_DEFAULT_BACKLOG
    BSOCKET_DEFAULT_RECV_MAX ops w = Ok (ss, w') ->
  recv_num (bs w') = recv_num (bs w) + Z.of_nat (length ops) /\
  recv_max (bs w') = recv_max (bs w).
Proof.
  induction 1 as [|op ops Hop Hops IH]; intros w ss w' H0 Hsum Hmax Hrun.
  - cbn in Hrun. apply ret_ok in Hrun. destruct Hrun as [_ ->].
    cbn. split; [lia | reflexivity].
  - cbn [run_ops] in Hrun. cbn [length] in *.
    apply bind_ok in Hrun. destruct Hrun as (s & w1 & Hs & Hrun).
    apply bind_ok in Hrun. destruct Hrun as (ss' & w2 & Hss & Hrun).
    apply ret_ok in Hrun. destruct Hrun as [_ ->].
    apply recv_op_quota in Hs; [|assumption].
    destruct Hs as [Hmax1 Hq].
    assert (Hn1 : recv_num (bs w1) = recv_num (bs w) + 1).
    { destruct Hq as [(? & _)|[(_ & _ & E & _)|(? & _)]]; try lia.
      rewrite E. apply wrap_int_small. unfold INT_MAX in *. lia. }
    apply IH in Hss; lia.
Qed.

Lemma recv_op_limited op w :
  is_recv_op op = true ->
  op_args_ok op = true ->
  0 < recv_max (bs w) <= recv_num (bs w) ->
  exists w',
    run_op plat os CMSG_SPACE CMSG_LEN BSOCKET_DEFAULT_BACKLOG
      BSOCKET_DEFAULT_RECV_MAX op w = Ok (-1, w') /\
    error (bs w') = BSOCKET_ERROR_LATER /\
    filter is_recv_primitive (os_log w') =
    filter is_recv_primitive (os_log w).
Proof.
  intros Hop Ha Hq.
  assert (Hgt : (recv_max (bs w) >? 0) = true) by lia.
  assert (Hge : (recv_num (bs w) >=? recv_max (bs w)) = true) by lia.
  destruct op; try discriminate Hop; cbn [run_op op_args_ok] in *.
  - unfold BSocket_Recv. unfold_m. rewrite Ha. cbn [bs os_log].
    rewrite Hgt, Hge. cbn.
    eexists. split; [reflexivity|]. split; reflexivity.
  - unfold BSocket_RecvFrom. unfold_m. rewrite Ha. cbn [bs os_log].
    rewrite Hgt, Hge. cbn.
    eexists. split; [reflexivity|]. split; reflexivity.
  - unfold BSocket_RecvFromTo, recvfromto_fallback, BSocket_RecvFrom.
    unfold_m. rewrite Ha. cbn [bs os_log].
    destruct (have_pktinfo (bs w)); cbn [negb].
    + destruct plat.
      * cbn [negb bs os_log]. rewrite Hgt, Hge. cbn.
        eexists. split; [reflexivity|]. split; reflexivity.
      * cbn [negb bs os_log].
        match goal with |- context [negb ?c] => destruct c end;
          cbn [negb bs os_log]; rewrite ?Ha; cbn [bs os_log];
          rewrite Hgt, Hge; cbn;
          (eexists; split; [reflexivity|]; split; reflexivity).
    + rewrite Hgt, Hge. cbn.
      eexists. split; [reflexivity|]. split; reflexivity.
Qed.

End Quota.

(** C5. For a socket whose [recv_max] is N > 0: a dispatch puts [recv_num]
    back to 0 before any handler runs; each recv, recv_from or recv_from_to
    made while the count is below N adds one to [recv_num], so N of them
    after a reset bring it to N; the call after those fails with LATER
    without any OS receive primitive being called.  With [recv_max] -1 a
    receive call always reaches the OS and the counter stays as it is. *)
Theorem recv_quota (plat : platform)
  (os : list syscall -> syscall -> os_reply)
  (handler_body : BSocket_handler -> Z -> Z -> M unit)
  (CMSG_SPACE CMSG_LEN : Z -> Z)
  (BSOCKET_DEFAULT_BACKLOG BSOCKET_DEFAULT_RECV_MAX : Z) (N : Z) :
  0 < N <= INT_MAX ->
  let run := run_op plat os CMSG_SPACE CMSG_LEN BSOCKET_DEFAULT_BACKLOG
               BSOCKET_DEFAULT_RECV_MAX in
  let run_all := run_ops plat os CMSG_SPACE CMSG_LEN BSOCKET_DEFAULT_BACKLOG
                   BSOCKET_DEFAULT_RECV_MAX in
  (forall returned_events w tr w',
     call_handlers handler_body returned_events w = Ok (tr, w') ->
     recv_num (bs (reset_recv_num w)) = 0 /\
     match tr with
     | [] => w' = reset_recv_num w
     | inv :: _ =>
         handler_body (inv_handler inv) (inv_user inv) (inv_events inv)
           (reset_recv_num w) = Ok (tt, inv_after inv)
     end) /\
  (forall op w status w',
     is_recv_op op = true ->
     recv_max (bs w) = N -> 0 <= recv_num (bs w) < N ->
     run op w = Ok (status, w') ->
     recv_num (bs w') = recv_num (bs w) + 1 /\ recv_max (bs w') = N) /\
  (forall ops w statuses w',
     Forall (fun op => is_recv_op op = true) ops ->
     recv_max (bs w) = N -> recv_num (bs w) = 0 ->
     Z.of_nat (length ops) = N ->
     run_all ops w = Ok (statuses, w') ->
     recv_num (bs w') = N /\ recv_max (bs w') = N /\
     forall op, is_recv_op op = true -> op_args_ok op = true ->
       exists w'',
         run op w' = Ok (-1, w'') /\
         error (bs w'') = BSOCKET_ERROR_LATER /\
         filter is_recv_primitive (os_log w'') =
         filter is_recv_primitive (os_log w')) /\
  (forall op w status w',
     is_recv_op op = true ->
     recv_max (bs w) = -1 ->
     run op w = Ok (status, w') ->
     recv_num (bs w') = recv_num (bs w) /\
     exists c l, os_log w' = c :: l /\ is_recv_primitive c = true).
Proof.
  intros HN run run_all. repeat apply conj.
  - intros ev w tr w' H. split; [reflexivity|].
    pose proof (call_handlers_run _ _ _ H) as D.
    destruct (global_handler (bs w)) as [h|].
    + destruct D as [-> D]. exact D.
    + destruct D as (Hch & _). inversion Hch; subst; auto.
  - intros op w status w' Hop Hmax Hnum H.
    apply recv_op_quota in H; [|assumption].
    destruct H as [Hmax1 Hq]. split; [|congruence].
    destruct Hq as [(? & _)|[(_ & _ & E & _)|(? & _)]]; try lia.
    rewrite E. apply wrap_int_small. unfold INT_MAX in *. lia.
  - intros ops w statuses w' Hops Hmax Hnum Hlen H.
    apply run_ops_count in H; try assumption; try lia.
    destruct H as [E1 E2].
    assert (Hn : recv_num (bs w') = N) by lia.
    assert (Hm : recv_max (bs w') = N) by lia.
    split; [exact Hn|]. split; [exact Hm|].
    intros op Hop Ha. apply recv_op_limited; auto. lia.
  - intros op w status w' Hop Hmax H.
    apply recv_op_quota in H; [|assumption].
    destruct H as [_ Hq].
    destruct Hq as [(? & _)|[(? & _)|(_ & E & Hc)]]; try lia. auto.
Qed.

Lemma recv_quota_witness :
  exists statuses w' w'',
    run_ops Posix (Sample.os_always (Sample.reply 1 E_ok))
      Sample.cmsg_space Sample.cmsg_len 128 2 [Op_recv 10; Op_recv_from 10]
      (Sample.world (Sample.fresh BSOCKET_TYPE_DGRAM false)) =
    Ok (statuses, w') /\
    recv_num (bs w') = 2 /\
    run_op Posix (Sample.os_always (Sample.reply 1 E_ok))
      Sample.cmsg_space Sample.cmsg_len 128 2 (Op_recv 10) w' =
    Ok (-1, w'') /\
    error (bs w'') = BSOCKET_ERROR_LATER /\
    filter is_recv_primitive (os_log w'') =
    filter is_recv_primitive (os_log w').
Proof.
  destruct (@recv_quota Posix (Sample.os_always (Sample.reply 1 E_ok))
              Sample.quiet Sample.cmsg_space Sample.cmsg_len 128 2 2
              ltac:(unfold INT_MAX; lia))
    as (_ & _ & H & _).
  assert (Hrun :
    exists statuses w',
      run_ops Posix (Sample.os_always (Sample.reply 1 E_ok))
        Sample.cmsg_space Sample.cmsg_len 128 2
        [Op_recv 10; Op_recv_from 10]
        (Sample.world (Sample.fresh BSOCKET_TYPE_DGRAM false)) =
      Ok (statuses, w')).
  { eexists. eexists. cbv. reflexivity. }
  destruct Hrun as (statuses & w' & Hrun).
  destruct (H [Op_recv 10; Op_recv_from 10]
              (Sample.world (Sample.fresh BSOCKET_TYPE_DGRAM false))
              statuses w'
              ltac:(repeat constructor) eq_refl eq_refl eq_refl Hrun)
    as (Hn & _ & Hnext).
  destruct (Hnext (Op_recv 10) eq_refl eq_refl) as (w'' & H1 & H2 & H3).
  exists statuses, w', w''. auto.
Defined.

(** ** The enabled events *)

Lemma land_pow2 x k :
  0 <= k -> Z.land x (2 ^ k) = if Z.testbit x k then 2 ^ k else 0.
Proof.
  intro Hk. apply Z.bits_inj'. intros n Hn.
  rewrite Z.land_spec, Z.pow2_bits_eqb by assumption.
  destruct (Z.eqb_spec k n) as [->|Hne].
  - destruct (Z.testbit x n) eqn:E.
    + now rewrite Z.pow2_bits_true.
    + now rewrite Z.bits_0.
  - rewrite andb_false_r.
    destruct (Z.testbit x k).
    + rewrite Z.pow2_bits_false; auto.
    + now rewrite Z.bits_0.
Qed.

Lemma has_flag_testbit x k : 0 <= k -> has_flag x (2 ^ k) = Z.testbit x k.
Proof.
  intro Hk. unfold has_flag. rewrite land_pow2 by assumption.
  destruct (Z.testbit x k).
  - assert (0 < 2 ^ k) by (apply Z.pow_pos_nonneg; lia).
    destruct (Z.eqb_spec (2 ^ k) 0); [lia | reflexivity].
  - reflexivity.
Qed.

Lemma has_flag_lor x y f :
  event_bit f -> has_flag (Z.lor x y) f = has_flag x f || has_flag y f.
Proof.
  intros (k & Hk & ->). rewrite !has_flag_testbit by assumption.
  apply Z.lor_spec.
Qed.

Lemma has_flag_clear x y f :
  event_bit f ->
  has_flag (Z.land x (Z.lnot y)) f = has_flag x f && negb (has_flag y f).
Proof.
  intros (k & Hk & ->). rewrite !has_flag_testbit by assumption.
  rewrite Z.land_spec, Z.lnot_spec by assumption. reflexivity.
Qed.

Lemma event_bits :
  event_bit BSOCKET_READ /\ event_bit BSOCKET_WRITE /\
  event_bit BSOCKET_ACCEPT /\ event_bit BSOCKET_CONNECT.
Proof.
  repeat split; [exists 0 | exists 1 | exists 2 | exists 3];
    (split; [lia | reflexivity]).
Qed.

(** Decides a statement about the four flags of [w] by cases. *)
Ltac flag_cases w :=
  repeat match goal with
         | H : context [has_flag w _] |- _ => revert H
         end;
  generalize (has_flag w BSOCKET_READ), (has_flag w BSOCKET_WRITE),
    (has_flag w BSOCKET_ACCEPT), (has_flag w BSOCKET_CONNECT);
  intros [] [] [] []; cbv; intros;
  first [reflexivity | discriminate | congruence].

Lemma get_event_index_some ev i :
  get_event_index ev = Some i ->
  ev = BSOCKET_READ \/ ev = BSOCKET_WRITE \/ ev = BSOCKET_ACCEPT \/
  ev = BSOCKET_CONNECT.
Proof.
  unfold get_event_index.
  destruct (Z.eqb_spec ev BSOCKET_READ); auto.
  destruct (Z.eqb_spec ev BSOCKET_WRITE); auto.
  destruct (Z.eqb_spec ev BSOCKET_ACCEPT); auto.
  destruct (Z.eqb_spec ev BSOCKET_CONNECT); auto.
  discriminate.
Qed.

Lemma update_event_backend_ok plat os w u w' :
  update_event_backend plat os w = Ok (u, w') -> bs w' = bs w.
Proof. unfold update_event_backend. intro H. mrun; reflexivity. Qed.

Lemma disable_exclusive plat os ev w u w' :
  BSocket_DisableEvent plat os ev w = Ok (u, w') ->
  families_exclusive (waitEvents (bs w)) = true ->
  families_exclusive (waitEvents (bs w')) = true.
Proof.
  unfold BSocket_DisableEvent. intros H Hx.
  apply bind_ok in H. destruct H as (i & w1 & Hi & H).
  apply assert_some_ok in Hi. destruct Hi as [Hi ->].
  apply bind_ok in H. destruct H as (b & w1 & Hb & H).
  apply get_bs_ok in Hb. destruct Hb as [-> ->].
  apply bind_ok in H. destruct H as (? & w1 & Ha & H).
  apply ASSERT_ok in Ha. destruct Ha as [_ ->].
  apply bind_ok in H. destruct H as (? & w1 & Ha & H).
  apply ASSERT_ok in Ha. destruct Ha as [_ ->].
  apply bind_ok in H. destruct H as (? & w1 & Hm & H).
  apply modify_bs_ok in Hm. subst w1.
  apply update_event_backend_ok in H. rewrite H. cbn [bs waitEvents set_waitEvents].
  destruct event_bits as (B1 & B2 & B3 & B4).
  unfold families_exclusive in *.
  rewrite !has_flag_clear by assumption.
  apply get_event_index_some in Hi.
  destruct Hi as [-> | [-> | [-> | ->]]]; flag_cases (waitEvents (bs w)).
Qed.

Lemma enable_exclusive plat os ev w u w' :
  BSocket_EnableEvent plat os ev w = Ok (u, w') ->
  families_exclusive (waitEvents (bs w')) = true.
Proof.
  unfold BSocket_EnableEvent. intros H.
  apply bind_ok in H. destruct H as (? & w1 & Hc & H).
  apply bind_ok in H. destruct H as (b & w2 & Hb & H).
  apply get_bs_ok in Hb. destruct Hb as [-> ->].
  apply bind_ok in H. destruct H as (i & w2 & Hi & H).
  apply assert_some_ok in Hi. destruct Hi as [Hi ->].
  apply bind_ok in H. destruct H as (? & w2 & Ha & H).
  apply ASSERT_ok in Ha. destruct Ha as [_ ->].
  apply bind_ok in H. destruct H as (? & w2 & Ha & H).
  apply ASSERT_ok in Ha. destruct Ha as [Hoff ->].
  apply bind_ok in H. destruct H as (? & w2 & Hm & H).
  apply modify_bs_ok in Hm. subst w2.
  apply update_event_backend_ok in H. rewrite H.
  cbn [bs waitEvents set_waitEvents].
  destruct event_bits as (B1 & B2 & B3 & B4).
  unfold families_exclusive.
  rewrite !has_flag_lor by assumption.
  unfold check_incompatible in Hc.
  apply get_event_index_some in Hi.
  destruct Hi as [-> | [-> | [-> | ->]]];
    cbn [Z.eqb BSOCKET_READ BSOCKET_WRITE BSOCKET_ACCEPT BSOCKET_CONNECT
         Pos.eqb orb] in Hc;
    mrun;
    match goal with
    | |- context [has_flag (waitEvents (bs ?v)) _] =>
        flag_cases (waitEvents (bs v))
    end.
Qed.

Lemma run_op_waitEvents plat os cs cl bl rm op w s w' :
  run_op plat os cs cl bl rm op w = Ok (s, w') ->
  waitEvents (bs w') = waitEvents (bs w).
Proof.
  destruct op; cbn [run_op];
    unfold BSocket_Connect, BSocket_Bind, BSocket_Listen, BSocket_Accept,
      BSocket_Send, BSocket_Recv, BSocket_RecvFromTo, BSocket_SendToFrom,
      recvfromto_fallback, BSocket_SendTo, BSocket_RecvFrom,
      BSocket_GetPeerName, obtain_extension, limit_recv, close_socket,
      set_nonblocking, init_event_backend;
    intro H; mrun; reflexivity.
Qed.

Lemma init_waitEvents plat os rm reactor domain ty w0 w :
  BSocket_Init plat os rm reactor domain ty w0 = Ok (0, w) ->
  waitEvents (bs w) = 0.
Proof.
  unfold BSocket_Init, init_event_backend, set_nonblocking, set_pktinfo,
    set_pktinfo6, close_socket.
  intro H. mrun; try reflexivity.
  all: destruct ty, domain; mrun; reflexivity.
Qed.

Lemma accept_waitEvents plat os rm ns0 want_addr w ns a w' :
  BSocket_Accept plat os rm (Some ns0) want_addr w = Ok ((0, Some ns, a), w') ->
  waitEvents ns = 0.
Proof.
  unfold BSocket_Accept, init_event_backend, set_nonblocking, close_socket.
  intro H. mrun; reflexivity.
Qed.

Lemma run_call_exclusive plat os cs cl bl rm c w w' :
  mask_compatible c = true ->
  run_call plat os cs cl bl rm c w = Ok (tt, w') ->
  families_exclusive (waitEvents (bs w)) = true ->
  families_exclusive (waitEvents (bs w')) = true.
Proof.
  intros Hc H Hx. destruct c; cbn [run_call mask_compatible] in *.
  - mrun. erewrite run_op_waitEvents; eauto.
  - unfold BSocket_SetRecvMax in H. mrun. exact Hx.
  - unfold BSocket_GetConnectResult in H. mrun. exact Hx.
  - unfold BSocket_AddGlobalEventHandler in H. mrun. exact Hx.
  - unfold BSocket_RemoveGlobalEventHandler in H. mrun. reflexivity.
  - unfold BSocket_SetGlobalEvents in H.
    apply bind_ok in H. destruct H as (b & w1 & Hb & H).
    apply get_bs_ok in Hb. destruct Hb as [-> ->].
    apply bind_ok in H. destruct H as (? & w1 & Ha & H).
    apply ASSERT_ok in Ha. destruct Ha as [_ ->].
    apply bind_ok in H. destruct H as (? & w1 & Hm & H).
    apply modify_bs_ok in Hm. subst w1.
    apply update_event_backend_ok in H. rewrite H. exact Hc.
  - unfold BSocket_AddEventHandler in H. mrun. exact Hx.
  - unfold BSocket_RemoveEventHandler in H.
    apply bind_ok in H. destruct H as (i & w1 & Hi & H).
    apply assert_some_ok in Hi. destruct Hi as [Hi ->].
    apply bind_ok in H. destruct H as (b & w1 & Hb & H).
    apply get_bs_ok in Hb. destruct Hb as [-> ->].
    apply bind_ok in H. destruct H as (? & w1 & Ha & H).
    apply ASSERT_ok in Ha. destruct Ha as [_ ->].
    apply bind_ok in H. destruct H as (? & w1 & Hd & H).
    apply modify_bs_ok in H. subst w'. cbn [bs waitEvents set_handlers].
    destruct (has_flag (waitEvents (bs w)) ev).
    + eapply disable_exclusive; eauto.
    + apply ret_ok in Hd. destruct Hd as [_ ->]. exact Hx.
  - eapply enable_exclusive; eauto.
  - eapply disable_exclusive; eauto.
Qed.

(** *** Dispatches keep what the calls keep *)

Lemma path_preserves plat os cs cl bl rm allowed (P : BSocket -> Prop) :
  (forall c w w', allowed c = true ->
     run_call plat os cs cl bl rm c w = Ok (tt, w') ->
     P (bs w) -> P (bs w')) ->
  forall w w',
    interface_path plat os cs cl bl rm allowed w w' -> P (bs w) -> P (bs w').
Proof.
  intros Hcall w w'. induction 1 as [w | w c w1 w' Ha Hrun Hp IH]; auto.
  intro HP. apply IH. exact (Hcall c w w1 Ha Hrun HP).
Qed.

Lemma chain_preserves hb src (P : BSocket -> Prop) :
  (forall h user ev w w',
     hb h user ev w = Ok (tt, w') -> P (bs w) -> P (bs w')) ->
  forall w tr w',
    handler_chain hb src w tr w' -> P (bs w) -> P (bs w').
Proof.
  intros Hh w tr w'.
  induction 1 as [w | w inv rest w' Hs Hrun Hd Hch IH]; auto.
  intro HP. apply IH. exact (Hh _ _ _ _ _ Hrun HP).
Qed.

(** [call_handlers] resets the counter of receives and then only calls
    handlers. *)
Lemma call_handlers_preserves hb (P : BSocket -> Prop) :
  (forall h user ev w w',
     hb h user ev w = Ok (tt, w') -> P (bs w) -> P (bs w')) ->
  (forall b, P b -> P (set_recv_num 0 b)) ->
  forall ev w tr w',
    call_handlers hb ev w = Ok (tr, w') -> P (bs w) -> P (bs w').
Proof.
  intros Hh Hreset ev w tr w' H HP.
  apply call_handlers_run in H.
  assert (HP0 : P (bs (reset_recv_num w))) by (apply Hreset; exact HP).
  destruct (global_handler (bs w)) as [h|].
  - destruct H as [_ Hrun]. exact (Hh _ _ _ _ _ Hrun HP0).
  - destruct H as [Hch _].
    eapply chain_preserves; [exact Hh | exact Hch | exact HP0].
Qed.

(** What a backend does before it calls [call_handlers]: nothing to the
    socket, or, when CONNECT is enabled and reported and an attempt is
    under way, it marks the attempt completed and stores its outcome. *)
Lemma backend_dispatch_start plat os hb events w tr w' :
  backend_dispatch plat os hb events w = Ok (tr, w') ->
  exists ev w1,
    call_handlers hb ev w1 = Ok (tr, w') /\
    (bs w1 = bs w \/
     (connecting_status (bs w) = 1 /\
      has_flag (waitEvents (bs w)) BSOCKET_CONNECT = true /\
      exists r, bs w1 =
                set_connecting_result r (set_connecting_status 2 (bs w)))).
Proof.
  unfold backend_dispatch. destruct plat; intro H.
  - unfold file_descriptor_handler in H.
    apply bind_ok in H. destruct H as (b & w0 & Hb & H).
    apply get_bs_ok in Hb. destruct Hb as [-> ->].
    cbn beta iota zeta in H.
    destruct (has_flag (waitEvents (bs w)) BSOCKET_CONNECT
              && has_flag events BREACTOR_WRITE) eqn:Ec.
    + apply andb_prop in Ec. destruct Ec as [Ec _].
      apply bind_ok in H. destruct H as (? & w1 & Ha & H).
      apply ASSERT_ok in Ha. destruct Ha as [Hst ->].
      apply bind_ok in H. destruct H as (? & w1 & Hm & H).
      apply modify_bs_ok in Hm. subst w1.
      apply bind_ok in H. destruct H as (r & w1 & Hr & H).
      apply os_call_ok in Hr. destruct Hr as [-> ->].
      apply bind_ok in H. destruct H as (? & w1 & Ha & H).
      apply ASSERT_ok in Ha. destruct Ha as [_ ->].
      apply bind_ok in H. destruct H as (? & w1 & Hm & H).
      apply modify_bs_ok in Hm. subst w1.
      do 2 eexists. split; [exact H|]. right.
      split; [now apply Z.eqb_eq|]. split; [exact Ec|].
      eexists. reflexivity.
    + do 2 eexists. split; [exact H|]. now left.
  - unfold handle_handler in H.
    apply bind_ok in H. destruct H as (b & w0 & Hb & H).
    apply get_bs_ok in Hb. destruct Hb as [-> ->].
    apply bind_ok in H. destruct H as (r & w1 & Hr & H).
    apply os_call_ok in Hr. destruct Hr as [-> ->].
    apply bind_ok in H. destruct H as (? & w1 & Ha & H).
    apply ASSERT_ok in Ha. destruct Ha as [_ ->].
    cbn beta iota zeta in H. cbn [bs os_log] in H.
    match type of H with
    | (if ?c then _ else _) _ = _ => destruct c eqn:Ec
    end.
    + apply andb_prop in Ec. destruct Ec as [Ec _].
      apply bind_ok in H. destruct H as (? & w1 & Ha & H).
      apply ASSERT_ok in Ha. destruct Ha as [Hst ->].
      apply bind_ok in H. destruct H as (? & w1 & Hm & H).
      apply modify_bs_ok in Hm. subst w1.
      apply bind_ok in H. destruct H as (? & w1 & Hm & H).
      apply modify_bs_ok in Hm. subst w1.
      do 2 eexists. split; [exact H|]. right.
      split; [now apply Z.eqb_eq|]. split; [exact Ec|].
      eexists. reflexivity.
    + do 2 eexists. split; [exact H|]. now left.
Qed.

(** A property of the socket that the allowed calls keep, and that neither
    the reset of the counter of receives nor the completion of a connection
    attempt touches, is kept by a dispatch. *)
Lemma backend_dispatch_preserves plat os cs cl bl rm allowed
  (P : BSocket -> Prop) :
  (forall c w w', allowed c = true ->
     run_call plat os cs cl bl rm c w = Ok (tt, w') ->
     P (bs w) -> P (bs w')) ->
  (forall b, P b -> P (set_recv_num 0 b)) ->
  (forall b r, connecting_status b = 1 -> P b ->
     P (set_connecting_result r (set_connecting_status 2 b))) ->
  forall hb events w tr w',
    handlers_use_interface plat os cs cl bl rm allowed hb ->
    backend_dispatch plat os hb events w = Ok (tr, w') ->
    P (bs w) -> P (bs w').
Proof.
  intros Hcall Hreset Hconn hb events w tr w' Huse H HP.
  apply backend_dispatch_start in H.
  destruct H as (ev & w1 & H & Hstart).
  assert (HP1 : P (bs w1)).
  { destruct Hstart as [-> | (Hst & _ & r & ->)]; auto. }
  eapply (@call_handlers_preserves hb P);
    [ | exact Hreset | exact H | exact HP1 ].
  intros h user e u u' Hrun.
  eapply path_preserves; [exact Hcall | exact (Huse _ _ _ _ _ Hrun)].
Qed.

Lemma quiet_uses_interface plat os cs cl bl rm allowed :
  handlers_use_interface plat os cs cl bl rm allowed Sample.quiet.
Proof.
  intros h user ev w w' H. unfold Sample.quiet in H.
  apply ret_ok in H. destruct H as [_ ->]. constructor.
Qed.

(** C6, as the code has it.  In every state of a socket in use, that is
    created by a successful [BSocket_Init] or [BSocket_Accept] and then
    driven through calls of the socket operations that pass their
    assertions and through dispatches of the backend whose callbacks make
    such calls, [waitEvents] never holds two of the families {READ or
    WRITE}, {ACCEPT}, {CONNECT}, provided every mask passed to
    [BSocket_SetGlobalEvents] is itself free of two families.  Each such
    call keeps the property from whatever state it starts in, and so does
    each such dispatch, the completion of a connection attempt included:
    enable_event, disable_event, remove_event_handler and
    remove_global_handler keep it by themselves, while
    [BSocket_SetGlobalEvents] stores the mask it is given without looking
    at it. *)
Theorem wait_events_exclusive (plat : platform)
  (os : list syscall -> syscall -> os_reply) (CMSG_SPACE CMSG_LEN : Z -> Z)
  (BSOCKET_DEFAULT_BACKLOG BSOCKET_DEFAULT_RECV_MAX : Z) :
  (forall w,
     reachable plat os CMSG_SPACE CMSG_LEN BSOCKET_DEFAULT_BACKLOG
       BSOCKET_DEFAULT_RECV_MAX mask_compatible w ->
     families_exclusive (waitEvents (bs w)) = true) /\
  (forall c w w',
     mask_compatible c = true ->
     run_call plat os CMSG_SPACE CMSG_LEN BSOCKET_DEFAULT_BACKLOG
       BSOCKET_DEFAULT_RECV_MAX c w = Ok (tt, w') ->
     families_exclusive (waitEvents (bs w)) = true ->
     families_exclusive (waitEvents (bs w')) = true) /\
  (forall handler_body events w tr w',
     handlers_use_interface plat os CMSG_SPACE CMSG_LEN
       BSOCKET_DEFAULT_BACKLOG BSOCKET_DEFAULT_RECV_MAX mask_compatible
       handler_body ->
     backend_dispatch plat os handler_body events w = Ok (tr, w') ->
     families_exclusive (waitEvents (bs w)) = true ->
     families_exclusive (waitEvents (bs w')) = true) /\
  (forall events w w',
     BSocket_SetGlobalEvents plat os events w = Ok (tt, w') ->
     waitEvents (bs w') = events).
Proof.
  assert (Hcall : forall c w w',
     mask_compatible c = true ->
     run_call plat os CMSG_SPACE CMSG_LEN BSOCKET_DEFAULT_BACKLOG
       BSOCKET_DEFAULT_RECV_MAX c w = Ok (tt, w') ->
     families_exclusive (waitEvents (bs w)) = true ->
     families_exclusive (waitEvents (bs w')) = true).
  { intros c w w'. apply run_call_exclusive. }
  assert (Hdisp : forall handler_body events w tr w',
     handlers_use_interface plat os CMSG_SPACE CMSG_LEN
       BSOCKET_DEFAULT_BACKLOG BSOCKET_DEFAULT_RECV_MAX mask_compatible
       handler_body ->
     backend_dispatch plat os handler_body events w = Ok (tr, w') ->
     families_exclusive (waitEvents (bs w)) = true ->
     families_exclusive (waitEvents (bs w')) = true).
  { intros hb events w tr w' Huse H.
    apply (@backend_dispatch_preserves plat os CMSG_SPACE CMSG_LEN
             BSOCKET_DEFAULT_BACKLOG BSOCKET_DEFAULT_RECV_MAX mask_compatible
             (fun b => families_exclusive (waitEvents b) = true)
             Hcall (fun b Hb => Hb) (fun b r _ Hb => Hb)
             hb events w tr w' Huse H). }
  split; [|split; [exact Hcall | split; [exact Hdisp|]]].
  - induction 1 as [w0 reactor domain ty w Hi
                    | l ns0 want_addr ns a l' Ha
                    | w c w' Hr IH Hc Hs
                    | w hb events tr w' Hr IH Huse Hd].
    + apply init_waitEvents in Hi. now rewrite Hi.
    + apply accept_waitEvents in Ha. cbn [bs]. now rewrite Ha.
    + eapply Hcall; eauto.
    + eapply Hdisp; eauto.
  - intros events w w' H. unfold BSocket_SetGlobalEvents in H.
    apply bind_ok in H. destruct H as (b & w1 & Hb & H).
    apply get_bs_ok in Hb. destruct Hb as [-> ->].
    apply bind_ok in H. destruct H as (? & w1 & Ha & H).
    apply ASSERT_ok in Ha. destruct Ha as [_ ->].
    apply bind_ok in H. destruct H as (? & w1 & Hm & H).
    apply modify_bs_ok in Hm. subst w1.
    apply update_event_backend_ok in H. now rewrite H.
Qed.

Lemma wait_events_exclusive_witness :
  exists w,
    reachable Posix Scenario.os_connecting Sample.cmsg_space Sample.cmsg_len
      128 2 mask_compatible w /\
    waitEvents (bs w) = BSOCKET_CONNECT /\
    connecting_status (bs w) = 2 /\
    families_exclusive (waitEvents (bs w)) = true.
Proof.
  assert (R : exists w,
    reachable Posix Scenario.os_connecting Sample.cmsg_space Sample.cmsg_len
      128 2 mask_compatible w /\
    waitEvents (bs w) = BSOCKET_CONNECT /\
    connecting_status (bs w) = 2).
  { eexists. split.
    - eapply reach_dispatch
        with (handler_body := Sample.quiet) (events := BREACTOR_WRITE).
      + eapply reach_step with (c := Call_enable_event BSOCKET_CONNECT).
        * eapply reach_step with (c := Call_op (Op_connect Sample.loopback)).
          -- eapply reach_step
               with (c := Call_add_event_handler BSOCKET_CONNECT (Some 7) 0).
             ++ eapply reach_init
                  with (w0 := Sample.world
                                (Sample.fresh BSOCKET_TYPE_STREAM false))
                       (reactor := 1) (domain := BADDR_TYPE_IPV4)
                       (ty := BSOCKET_TYPE_STREAM).
                cbv. reflexivity.
             ++ reflexivity.
             ++ cbv. reflexivity.
          -- reflexivity.
          -- cbv. reflexivity.
        * reflexivity.
        * cbv. reflexivity.
      + apply quiet_uses_interface.
      + cbv. reflexivity.
    - split; reflexivity. }
  destruct R as (w & Hr & Hw & Hc). exists w.
  split; [exact Hr|]. split; [exact Hw|]. split; [exact Hc|].
  exact (proj1 (@wait_events_exclusive Posix Scenario.os_connecting
                  Sample.cmsg_space Sample.cmsg_len 128 2) w Hr).
Defined.

(** C6 as worded fails: with a global handler installed,
    [BSocket_SetGlobalEvents] accepts READ together with ACCEPT, and the
    state it leaves holds both. *)
Lemma set_global_events_counterexample :
  exists w,
    reachable Posix Sample.os_opening Sample.cmsg_space Sample.cmsg_len
      128 2 any_call w /\
    waitEvents (bs w) = Z.lor BSOCKET_READ BSOCKET_ACCEPT /\
    families_exclusive (waitEvents (bs w)) = false.
Proof.
  eexists. split; [|split].
  - eapply reach_step
      with (c := Call_set_global_events (Z.lor BSOCKET_READ BSOCKET_ACCEPT)).
    + eapply reach_step with (c := Call_add_global_handler (Some 7) 0).
      * eapply reach_init
          with (w0 := Sample.world (Sample.fresh BSOCKET_TYPE_STREAM false))
               (reactor := 1) (domain := BADDR_TYPE_IPV4)
               (ty := BSOCKET_TYPE_STREAM).
        cbv. reflexivity.
      * reflexivity.
      * cbv. reflexivity.
    + reflexivity.
    + cbv. reflexivity.
  - reflexivity.
  - reflexivity.
Qed.

(** * Further properties of the code *)

(** ** Delivery of readiness *)

Lemma gather_flags c1 c2 c3 c4 :
  has_flag (gather c1 c2 c3 c4) BSOCKET_READ = c1 /\
  has_flag (gather c1 c2 c3 c4) BSOCKET_WRITE = c2 /\
  has_flag (gather c1 c2 c3 c4) BSOCKET_ACCEPT = c3 /\
  has_flag (gather c1 c2 c3 c4) BSOCKET_CONNECT = c4.
Proof. destruct c1, c2, c3, c4; repeat split; reflexivity. Qed.

Lemma event_flags_cases f :
  In f event_flags ->
  f = BSOCKET_READ \/ f = BSOCKET_WRITE \/ f = BSOCKET_ACCEPT \/
  f = BSOCKET_CONNECT.
Proof.
  intros [H | [H | [H | [H | []]]]]; auto.
Qed.

Lemma gather_flag (ready : Z -> bool) f :
  In f event_flags ->
  has_flag (gather (ready BSOCKET_READ) (ready BSOCKET_WRITE)
              (ready BSOCKET_ACCEPT) (ready BSOCKET_CONNECT)) f = ready f.
Proof.
  intro Hf.
  destruct (gather_flags (ready BSOCKET_READ) (ready BSOCKET_WRITE)
              (ready BSOCKET_ACCEPT) (ready BSOCKET_CONNECT))
    as (H1 & H2 & H3 & H4).
  apply event_flags_cases in Hf.
  destruct Hf as [-> | [-> | [-> | ->]]]; assumption.
Qed.

Lemma dispatch_order_gather (ready : Z -> bool) :
  dispatch_order (gather (ready BSOCKET_READ) (ready BSOCKET_WRITE)
                    (ready BSOCKET_ACCEPT) (ready BSOCKET_CONNECT)) =
  filter ready event_flags.
Proof.
  unfold dispatch_order. apply filter_ext_in. intros f Hf.
  now apply gather_flag.
Qed.

Lemma flag_of_flag e f :
  In e event_flags -> In f event_flags -> has_flag e f = true -> e = f.
Proof.
  intros He Hf. apply event_flags_cases in He, Hf.
  destruct He as [-> | [-> | [-> | ->]]];
    destruct Hf as [-> | [-> | [-> | ->]]];
    intro H; try reflexivity; discriminate H.
Qed.

(** What a dispatch of the events gathered under [ready] delivers. *)
Lemma gathered_dispatch hb (ready : Z -> bool) w1 tr w' :
  call_handlers hb
    (gather (ready BSOCKET_READ) (ready BSOCKET_WRITE)
       (ready BSOCKET_ACCEPT) (ready BSOCKET_CONNECT)) w1 = Ok (tr, w') ->
  (forall inv f,
     In inv tr -> In f event_flags ->
     has_flag (inv_events inv) f = true -> ready f = true) /\
  (global_handler (bs w1) = None -> dead (bs w') = false ->
   map inv_events tr = filter ready event_flags) /\
  (global_handler (bs w1) <> None ->
   exists inv, tr = [inv] /\
     forall f, In f event_flags -> has_flag (inv_events inv) f = ready f).
Proof.
  intro H. apply call_handlers_run in H.
  destruct (global_handler (bs w1)) as [h|].
  - destruct H as [-> _]. repeat apply conj.
    + intros inv f [<- | []] Hf Hflag. cbn [inv_events] in Hflag.
      now rewrite gather_flag in Hflag.
    + discriminate.
    + intros _. eexists. split; [reflexivity|].
      intros f Hf. cbn [inv_events]. now apply gather_flag.
  - destruct H as (_ & rest & Hord & Hdead).
    rewrite dispatch_order_gather in Hord. repeat apply conj.
    + intros inv f Hin Hf Hflag.
      assert (He : In (inv_events inv) (filter ready event_flags)).
      { rewrite Hord. apply in_or_app. left. now apply in_map. }
      apply filter_In in He. destruct He as [He Hr].
      now rewrite <- (flag_of_flag He Hf Hflag).
    + intros _ Halive. destruct rest as [|x rest].
      * now rewrite app_nil_r in Hord.
      * rewrite Hdead in Halive by discriminate. discriminate Halive.
    + intro C. now contradiction C.
Qed.

Lemma fd_handler_dispatch os hb events w tr w' :
  file_descriptor_handler os hb events w = Ok (tr, w') ->
  exists w1,
    call_handlers hb
      (gather (fd_ready (waitEvents (bs w)) events BSOCKET_READ)
         (fd_ready (waitEvents (bs w)) events BSOCKET_WRITE)
         (fd_ready (waitEvents (bs w)) events BSOCKET_ACCEPT)
         (fd_ready (waitEvents (bs w)) events BSOCKET_CONNECT)) w1 =
    Ok (tr, w') /\
    global_handler (bs w1) = global_handler (bs w) /\
    dead (bs w1) = dead (bs w).
Proof.
  unfold file_descriptor_handler. intro H.
  apply bind_ok in H. destruct H as (b & w0 & Hb & H).
  apply get_bs_ok in Hb. destruct Hb as [-> ->].
  cbn beta iota zeta in H.
  change (has_flag events BREACTOR_READ)
    with (has_flag events (readiness_of BSOCKET_READ)) in H.
  change (has_flag events BREACTOR_WRITE)
    with (has_flag events (readiness_of BSOCKET_WRITE)) in H.
  unfold gather, fd_ready.
  change (readiness_of BSOCKET_ACCEPT) with (readiness_of BSOCKET_READ).
  change (readiness_of BSOCKET_CONNECT) with (readiness_of BSOCKET_WRITE).
  destruct (has_flag (waitEvents (bs w)) BSOCKET_CONNECT
            && has_flag events (readiness_of BSOCKET_WRITE)) eqn:Ec.
  - apply bind_ok in H. destruct H as (? & w1 & Ha & H).
    apply ASSERT_ok in Ha. destruct Ha as [_ ->].
    apply bind_ok in H. destruct H as (? & w1 & Hm & H).
    apply modify_bs_ok in Hm. subst w1.
    apply bind_ok in H. destruct H as (r & w1 & Hr & H).
    apply os_call_ok in Hr. destruct Hr as [-> ->].
    apply bind_ok in H. destruct H as (? & w1 & Ha & H).
    apply ASSERT_ok in Ha. destruct Ha as [_ ->].
    apply bind_ok in H. destruct H as (? & w1 & Hm & H).
    apply modify_bs_ok in Hm. subst w1.
    eexists. split; [exact H | split; reflexivity].
  - eexists. split; [exact H | split; reflexivity].
Qed.

(** X1. On the POSIX backend a handler is only ever called for events that
    are enabled in [waitEvents] and whose readiness the reactor reported;
    without a global handler, and unless a handler destroyed the socket, the
    events delivered are exactly the enabled and ready ones, in the order
    READ, WRITE, ACCEPT, CONNECT; a global handler receives exactly the set
    of the enabled and ready events. *)
Theorem fd_handler_delivers_enabled_ready
  (os : list syscall -> syscall -> os_reply)
  (hb : BSocket_handler -> Z -> Z -> M unit) (events : Z) (w : World)
  (tr : list invocation) (w' : World) :
  file_descriptor_handler os hb events w = Ok (tr, w') ->
  (forall inv f,
     In inv tr -> In f event_flags ->
     has_flag (inv_events inv) f = true ->
     fd_ready (waitEvents (bs w)) events f = true) /\
  (global_handler (bs w) = None -> dead (bs w') = false ->
   map inv_events tr = filter (fd_ready (waitEvents (bs w)) events)
                         event_flags) /\
  (global_handler (bs w) <> None ->
   exists inv, tr = [inv] /\
     forall f, In f event_flags ->
       has_flag (inv_events inv) f = fd_ready (waitEvents (bs w)) events f).
Proof.
  intro H. apply fd_handler_dispatch in H.
  destruct H as (w1 & H & Hg & _). rewrite <- Hg.
  exact (gathered_dispatch hb (fd_ready (waitEvents (bs w)) events) w1 H).
Qed.

Lemma handle_handler_dispatch os hb w tr w' :
  handle_handler os hb w = Ok (tr, w') ->
  let net := r_events (os (os_log w)
                         (SYS_WSAEnumNetworkEvents (socket (bs w))
                            (event (bs w)))) in
  exists w1,
    call_handlers hb
      (gather (wsa_ready (waitEvents (bs w)) net BSOCKET_READ)
         (wsa_ready (waitEvents (bs w)) net BSOCKET_WRITE)
         (wsa_ready (waitEvents (bs w)) net BSOCKET_ACCEPT)
         (wsa_ready (waitEvents (bs w)) net BSOCKET_CONNECT)) w1 =
    Ok (tr, w') /\
    global_handler (bs w1) = global_handler (bs w) /\
    dead (bs w1) = dead (bs w).
Proof.
  intros H net. unfold handle_handler in H.
  apply bind_ok in H. destruct H as (b & w0 & Hb & H).
  apply get_bs_ok in Hb. destruct Hb as [-> ->].
  apply bind_ok in H. destruct H as (r & w1 & Hr & H).
  apply os_call_ok in Hr. destruct Hr as [-> ->].
  apply bind_ok in H. destruct H as (? & w1 & Ha & H).
  apply ASSERT_ok in Ha. destruct Ha as [_ ->].
  cbn beta iota zeta in H. cbn [bs os_log] in H.
  fold net in H.
  unfold gather, wsa_ready.
  change (wsa_signalled net BSOCKET_READ)
    with (has_flag net FD_READ || has_flag net FD_CLOSE).
  change (wsa_signalled net BSOCKET_WRITE)
    with (has_flag net FD_WRITE || has_flag net FD_CLOSE).
  change (wsa_signalled net BSOCKET_ACCEPT) with (has_flag net FD_ACCEPT).
  change (wsa_signalled net BSOCKET_CONNECT) with (has_flag net FD_CONNECT).
  destruct (has_flag (waitEvents (bs w)) BSOCKET_CONNECT
            && has_flag net FD_CONNECT) eqn:Ec.
  - apply bind_ok in H. destruct H as (? & w1 & Ha & H).
    apply ASSERT_ok in Ha. destruct Ha as [_ ->].
    apply bind_ok in H. destruct H as (? & w1 & Hm & H).
    apply modify_bs_ok in Hm. subst w1.
    apply bind_ok in H. destruct H as (? & w1 & Hm & H).
    apply modify_bs_ok in Hm. subst w1.
    eexists. split; [exact H | split; reflexivity].
  - eexists. split; [exact H | split; reflexivity].
Qed.

Lemma fd_handler_delivers_enabled_ready_witness :
  exists tr w',
    file_descriptor_handler (Sample.os_always (Sample.reply 0 E_ok))
      Sample.quiet BREACTOR_READ
      (Sample.world
         (set_waitEvents (Z.lor BSOCKET_READ BSOCKET_WRITE)
            (set_handlers
               {| slot0 := Some 7; slot1 := Some 8; slot2 := None;
                  slot3 := None |}
               (Sample.fresh BSOCKET_TYPE_STREAM false)))) = Ok (tr, w') /\
    map inv_events tr = [BSOCKET_READ].
Proof.
  eexists. eexists. split; [cbv; reflexivity|].
  pose proof (@fd_handler_delivers_enabled_ready
                (Sample.os_always (Sample.reply 0 E_ok))
                Sample.quiet BREACTOR_READ
                (Sample.world
                   (set_waitEvents (Z.lor BSOCKET_READ BSOCKET_WRITE)
                      (set_handlers
                         {| slot0 := Some 7; slot1 := Some 8; slot2 := None;
                            slot3 := None |}
                         (Sample.fresh BSOCKET_TYPE_STREAM false))))
                _ _ eq_refl) as H.
  destruct H as (_ & H & _). apply H; reflexivity.
Defined.

(** X2. On the Windows backend a handler is only ever called for events
    that are enabled in [waitEvents] and signalled by the network events
    that were enumerated (a close signals both READ and WRITE); without a
    global handler, and unless a handler destroyed the socket, the events
    delivered are exactly those, in the order READ, WRITE, ACCEPT, CONNECT;
    a global handler receives exactly their set. *)
Theorem handle_handler_delivers_enabled_signalled
  (os : list syscall -> syscall -> os_reply)
  (hb : BSocket_handler -> Z -> Z -> M unit) (w : World)
  (tr : list invocation) (w' : World) :
  handle_handler os hb w = Ok (tr, w') ->
  let net := r_events (os (os_log w)
                         (SYS_WSAEnumNetworkEvents (socket (bs w))
                            (event (bs w)))) in
  (forall inv f,
     In inv tr -> In f event_flags ->
     has_flag (inv_events inv) f = true ->
     wsa_ready (waitEvents (bs w)) net f = true) /\
  (global_handler (bs w) = None -> dead (bs w') = false ->
   map inv_events tr = filter (wsa_ready (waitEvents (bs w)) net)
                         event_flags) /\
  (global_handler (bs w) <> None ->
   exists inv, tr = [inv] /\
     forall f, In f event_flags ->
       has_flag (inv_events inv) f = wsa_ready (waitEvents (bs w)) net f).
Proof.
  intros H net. apply handle_handler_dispatch in H.
  destruct H as (w1 & H & Hg & _). rewrite <- Hg.
  exact (gathered_dispatch hb (wsa_ready (waitEvents (bs w)) net) w1 H).
Qed.

Lemma handle_handler_delivers_enabled_signalled_witness :
  exists tr w',
    handle_handler
      (Sample.os_always
         {| r_ret := 0; r_errno := E_ok; r_bytes := 0; r_soerror := E_ok;
            r_events := FD_CLOSE; r_addr := Sample.loopback_sys;
            r_control := no_control |})
      Sample.quiet
      (Sample.world
         (set_waitEvents (Z.lor BSOCKET_READ BSOCKET_WRITE)
            (set_handlers
               {| slot0 := Some 7; slot1 := Some 8; slot2 := None;
                  slot3 := None |}
               (Sample.fresh BSOCKET_TYPE_STREAM false)))) = Ok (tr, w') /\
    map inv_events tr = [BSOCKET_READ; BSOCKET_WRITE].
Proof.
  eexists. eexists. split; [cbv; reflexivity|].
  pose proof (@handle_handler_delivers_enabled_signalled
                (Sample.os_always
                   {| r_ret := 0; r_errno := E_ok; r_bytes := 0;
                      r_soerror := E_ok; r_events := FD_CLOSE;
                      r_addr := Sample.loopback_sys; r_control := no_control |})
                Sample.quiet
                (Sample.world
                   (set_waitEvents (Z.lor BSOCKET_READ BSOCKET_WRITE)
                      (set_handlers
                         {| slot0 := Some 7; slot1 := Some 8; slot2 := None;
                            slot3 := None |}
                         (Sample.fresh BSOCKET_TYPE_STREAM false))))
                _ _ eq_refl) as H.
  destruct H as (_ & H & _). apply H; reflexivity.
Defined.

(** ** Registration with the backend *)

Lemma has_flag_union x f g :
  has_flag x (Z.lor f g) = has_flag x f || has_flag x g.
Proof.
  unfold has_flag. rewrite Z.land_lor_distr_r.
  destruct (Z.eqb_spec (Z.land x f) 0) as [Ef | Ef];
    destruct (Z.eqb_spec (Z.land x g) 0) as [Eg | Eg];
    destruct (Z.eqb_spec (Z.lor (Z.land x f) (Z.land x g)) 0) as [E | E];
    try reflexivity; exfalso.
  - apply E. apply Z.lor_eq_0_iff. auto.
  - apply Z.lor_eq_0_iff in E. tauto.
  - apply Z.lor_eq_0_iff in E. tauto.
  - apply Z.lor_eq_0_iff in E. tauto.
Qed.

Lemma has_flag_zero x : has_flag x 0 = false.
Proof. unfold has_flag. now rewrite Z.land_0_r. Qed.

Lemma reactor_mask_ready wait events :
  has_flag events (get_reactor_fd_events wait) =
  existsb (fd_ready wait events) event_flags.
Proof.
  unfold get_reactor_fd_events, event_flags, existsb, fd_ready.
  change (readiness_of BSOCKET_READ) with BREACTOR_READ.
  change (readiness_of BSOCKET_ACCEPT) with BREACTOR_READ.
  change (readiness_of BSOCKET_WRITE) with BREACTOR_WRITE.
  change (readiness_of BSOCKET_CONNECT) with BREACTOR_WRITE.
  destruct (has_flag wait BSOCKET_READ), (has_flag wait BSOCKET_WRITE),
    (has_flag wait BSOCKET_ACCEPT), (has_flag wait BSOCKET_CONNECT);
    cbn [orb andb]; rewrite ?has_flag_union, ?Z.lor_0_l, ?has_flag_zero;
    destruct (has_flag events BREACTOR_READ),
      (has_flag events BREACTOR_WRITE); reflexivity.
Qed.

Lemma wsa_mask_ready wait net :
  has_flag net (get_wsa_events wait) =
  existsb (wsa_ready wait net) event_flags.
Proof.
  unfold get_wsa_events, event_flags, existsb, wsa_ready.
  change (wsa_signalled net BSOCKET_READ)
    with (has_flag net FD_READ || has_flag net FD_CLOSE).
  change (wsa_signalled net BSOCKET_WRITE)
    with (has_flag net FD_WRITE || has_flag net FD_CLOSE).
  change (wsa_signalled net BSOCKET_ACCEPT) with (has_flag net FD_ACCEPT).
  change (wsa_signalled net BSOCKET_CONNECT) with (has_flag net FD_CONNECT).
  destruct (has_flag wait BSOCKET_READ), (has_flag wait BSOCKET_WRITE),
    (has_flag wait BSOCKET_ACCEPT), (has_flag wait BSOCKET_CONNECT);
    cbn [orb andb]; rewrite ?has_flag_union, ?Z.lor_0_l, ?has_flag_zero;
    destruct (has_flag net FD_READ), (has_flag net FD_WRITE),
      (has_flag net FD_CLOSE), (has_flag net FD_ACCEPT),
      (has_flag net FD_CONNECT); reflexivity.
Qed.

Lemma existsb_filter {A : Type} (f : A -> bool) (l : list A) :
  existsb f l = true <-> filter f l <> [].
Proof.
  induction l as [|a l IH]; cbn.
  - split; [discriminate | congruence].
  - destruct (f a); cbn.
    + split; [discriminate | reflexivity].
    + exact IH.
Qed.

(** A dispatch on a live socket without a global handler calls no handler
    exactly when no gathered event is ready. *)
Lemma gathered_dispatch_empty hb (ready : Z -> bool) w1 tr w' :
  call_handlers hb
    (gather (ready BSOCKET_READ) (ready BSOCKET_WRITE)
       (ready BSOCKET_ACCEPT) (ready BSOCKET_CONNECT)) w1 = Ok (tr, w') ->
  dead (bs w1) = false ->
  global_handler (bs w1) = None ->
  (tr <> [] <-> existsb ready event_flags = true).
Proof.
  intros H Halive Hg. apply call_handlers_run in H. rewrite Hg in H.
  destruct H as (Hch & rest & Hord & Hdead).
  rewrite dispatch_order_gather in Hord. rewrite existsb_filter, Hord.
  split.
  - intros Htr E. apply app_eq_nil in E. destruct E as [E _].
    destruct tr; [now apply Htr | discriminate E].
  - intros Hne ->. cbn [map app] in *. inversion Hch; subst.
    specialize (Hdead Hne). cbn in Hdead. congruence.
Qed.

(** X3. On the POSIX backend, with per-event handlers on a live socket, a
    readiness report calls at least one handler exactly when it contains a
    bit of the mask that [get_reactor_fd_events] derives from the enabled
    events: what was asked of the reactor is never swallowed, and what was
    not asked calls nothing. *)
Theorem fd_handler_answers_requested_mask
  (os : list syscall -> syscall -> os_reply)
  (hb : BSocket_handler -> Z -> Z -> M unit) (events : Z) (w : World)
  (tr : list invocation) (w' : World) :
  file_descriptor_handler os hb events w = Ok (tr, w') ->
  dead (bs w) = false ->
  global_handler (bs w) = None ->
  (tr <> [] <->
   has_flag events (get_reactor_fd_events (waitEvents (bs w))) = true).
Proof.
  intros H Halive Hg. apply fd_handler_dispatch in H.
  destruct H as (w1 & H & Hg1 & Hd1).
  rewrite reactor_mask_ready.
  apply (@gathered_dispatch_empty hb (fd_ready (waitEvents (bs w)) events)
           w1 tr w' H);
    congruence.
Qed.

Lemma fd_handler_answers_requested_mask_witness :
  exists tr w',
    file_descriptor_handler (Sample.os_always (Sample.reply 0 E_ok))
      Sample.quiet BREACTOR_WRITE
      (Sample.world
         (set_waitEvents BSOCKET_READ
            (set_handlers
               {| slot0 := Some 7; slot1 := Some 8; slot2 := None;
                  slot3 := None |}
               (Sample.fresh BSOCKET_TYPE_STREAM false)))) = Ok (tr, w') /\
    ~ tr <> [].
Proof.
  eexists. eexists. split; [cbv; reflexivity|].
  pose proof (@fd_handler_answers_requested_mask
                (Sample.os_always (Sample.reply 0 E_ok))
                Sample.quiet BREACTOR_WRITE
                (Sample.world
                   (set_waitEvents BSOCKET_READ
                      (set_handlers
                         {| slot0 := Some 7; slot1 := Some 8; slot2 := None;
                            slot3 := None |}
                         (Sample.fresh BSOCKET_TYPE_STREAM false))))
                _ _ eq_refl eq_refl eq_refl) as H.
  intro Hne. apply H in Hne. discriminate Hne.
Defined.

(** X4. On the Windows backend, with per-event handlers on a live socket,
    an enumeration of network events calls at least one handler exactly when
    it contains a bit of the mask that [get_wsa_events] derives from the
    enabled events. *)
Theorem handle_handler_answers_requested_mask
  (os : list syscall -> syscall -> os_reply)
  (hb : BSocket_handler -> Z -> Z -> M unit) (w : World)
  (tr : list invocation) (w' : World) :
  handle_handler os hb w = Ok (tr, w') ->
  dead (bs w) = false ->
  global_handler (bs w) = None ->
  (tr <> [] <->
   has_flag
     (r_events (os (os_log w)
                  (SYS_WSAEnumNetworkEvents (socket (bs w)) (event (bs w)))))
     (get_wsa_events (waitEvents (bs w))) = true).
Proof.
  intros H Halive Hg. apply handle_handler_dispatch in H.
  destruct H as (w1 & H & Hg1 & Hd1).
  rewrite wsa_mask_ready.
  apply (@gathered_dispatch_empty hb _ w1 tr w' H); congruence.
Qed.

Lemma handle_handler_answers_requested_mask_witness :
  exists tr w',
    handle_handler
      (Sample.os_always
         {| r_ret := 0; r_errno := E_ok; r_bytes := 0; r_soerror := E_ok;
            r_events := FD_CLOSE; r_addr := Sample.loopback_sys;
            r_control := no_control |})
      Sample.quiet
      (Sample.world
         (set_waitEvents BSOCKET_WRITE
            (set_handlers
               {| slot0 := Some 7; slot1 := Some 8; slot2 := None;
                  slot3 := None |}
               (Sample.fresh BSOCKET_TYPE_STREAM false)))) = Ok (tr, w') /\
    tr <> [].
Proof.
  eexists. eexists. split; [cbv; reflexivity|].
  apply (@handle_handler_answers_requested_mask
           (Sample.os_always
              {| r_ret := 0; r_errno := E_ok; r_bytes := 0;
                 r_soerror := E_ok; r_events := FD_CLOSE;
                 r_addr := Sample.loopback_sys; r_control := no_control |})
           Sample.quiet
           (Sample.world
              (set_waitEvents BSOCKET_WRITE
                 (set_handlers
                    {| slot0 := Some 7; slot1 := Some 8; slot2 := None;
                       slot3 := None |}
                    (Sample.fresh BSOCKET_TYPE_STREAM false))))
           _ _ eq_refl eq_refl eq_refl).
  reflexivity.
Defined.

Lemma update_event_backend_log plat os w u w' :
  update_event_backend plat os w = Ok (u, w') ->
  w' = {| bs := bs w; os_log := registration plat (bs w) :: os_log w |}.
Proof.
  unfold update_event_backend, registration. intro H.
  apply bind_ok in H. destruct H as (b & w1 & Hb & H).
  apply get_bs_ok in Hb. destruct Hb as [-> ->].
  destruct plat; mrun; reflexivity.
Qed.

Lemma disable_event_log plat os ev w u w' :
  BSocket_DisableEvent plat os ev w = Ok (u, w') ->
  has_flag (waitEvents (bs w)) ev = true /\
  bs w' = set_waitEvents (Z.land (waitEvents (bs w)) (Z.lnot ev)) (bs w) /\
  os_log w' = registration plat (bs w') :: os_log w.
Proof.
  unfold BSocket_DisableEvent. intro H.
  apply bind_ok in H. destruct H as (i & w1 & Hi & H).
  apply assert_some_ok in Hi. destruct Hi as [Hi ->].
  apply bind_ok in H. destruct H as (b & w1 & Hb & H).
  apply get_bs_ok in Hb. destruct Hb as [-> ->].
  apply bind_ok in H. destruct H as (? & w1 & Ha & H).
  apply ASSERT_ok in Ha. destruct Ha as [_ ->].
  apply bind_ok in H. destruct H as (? & w1 & Ha & H).
  apply ASSERT_ok in Ha. destruct Ha as [Hen ->].
  apply bind_ok in H. destruct H as (? & w1 & Hm & H).
  apply modify_bs_ok in Hm. subst w1.
  apply update_event_backend_log in H. subst w'. cbn [bs os_log]. auto.
Qed.

(** X5. A call of the handler interface that returns talks to the backend
    only to register the enabled events: setting the global events,
    enabling or disabling an event, and removing the handler of an enabled
    event make exactly one call, which registers the mask derived from the
    enabled events as the call leaves them; the other calls make none.  In
    particular removing the global handler clears the enabled events
    without telling the backend. *)
Theorem handler_call_registration (plat : platform)
  (os : list syscall -> syscall -> os_reply) (CMSG_SPACE CMSG_LEN : Z -> Z)
  (BSOCKET_DEFAULT_BACKLOG BSOCKET_DEFAULT_RECV_MAX : Z)
  (c : api_call) (w w' : World) :
  is_handler_call c = true ->
  run_call plat os CMSG_SPACE CMSG_LEN BSOCKET_DEFAULT_BACKLOG
    BSOCKET_DEFAULT_RECV_MAX c w = Ok (tt, w') ->
  os_log w' = (if registers_again c (bs w)
               then registration plat (bs w') :: os_log w
               else os_log w) /\
  (c = Call_remove_global_handler -> waitEvents (bs w') = 0).
Proof.
  intros Hc H. destruct c; try discriminate Hc; cbn [run_call] in H;
    cbn [registers_again].
  - (* add global handler *)
    unfold BSocket_AddGlobalEventHandler in H. mrun.
    split; [reflexivity | discriminate].
  - (* remove global handler *)
    unfold BSocket_RemoveGlobalEventHandler in H. mrun.
    split; [reflexivity | reflexivity].
  - (* set global events *)
    unfold BSocket_SetGlobalEvents in H.
    apply bind_ok in H. destruct H as (b & w1 & Hb & H).
    apply get_bs_ok in Hb. destruct Hb as [-> ->].
    apply bind_ok in H. destruct H as (? & w1 & Ha & H).
    apply ASSERT_ok in Ha. destruct Ha as [_ ->].
    apply bind_ok in H. destruct H as (? & w1 & Hm & H).
    apply modify_bs_ok in Hm. subst w1.
    apply update_event_backend_log in H. subst w'.
    split; [reflexivity | discriminate].
  - (* add event handler *)
    unfold BSocket_AddEventHandler in H. mrun.
    split; [reflexivity | discriminate].
  - (* remove event handler *)
    unfold BSocket_RemoveEventHandler in H.
    apply bind_ok in H. destruct H as (i & w1 & Hi & H).
    apply assert_some_ok in Hi. destruct Hi as [Hi ->].
    apply bind_ok in H. destruct H as (b & w1 & Hb & H).
    apply get_bs_ok in Hb. destruct Hb as [-> ->].
    apply bind_ok in H. destruct H as (? & w1 & Ha & H).
    apply ASSERT_ok in Ha. destruct Ha as [_ ->].
    apply bind_ok in H. destruct H as (? & w1 & Hd & H).
    apply modify_bs_ok in H. subst w'. cbn [bs os_log].
    split; [|discriminate].
    destruct (has_flag (waitEvents (bs w)) ev).
    + apply disable_event_log in Hd. destruct Hd as (_ & Hbs & Hlog).
      rewrite Hlog, Hbs. destruct plat; reflexivity.
    + apply ret_ok in Hd. destruct Hd as [_ ->]. reflexivity.
  - (* enable event *)
    unfold BSocket_EnableEvent in H.
    apply bind_ok in H. destruct H as (? & w1 & Hk & H).
    assert (w1 = w) as ->.
    { unfold check_incompatible in Hk. mrun; reflexivity. }
    apply bind_ok in H. destruct H as (b & w1 & Hb & H).
    apply get_bs_ok in Hb. destruct Hb as [-> ->].
    apply bind_ok in H. destruct H as (i & w1 & Hi & H).
    apply assert_some_ok in Hi. destruct Hi as [Hi ->].
    apply bind_ok in H. destruct H as (? & w1 & Ha & H).
    apply ASSERT_ok in Ha. destruct Ha as [_ ->].
    apply bind_ok in H. destruct H as (? & w1 & Ha & H).
    apply ASSERT_ok in Ha. destruct Ha as [_ ->].
    apply bind_ok in H. destruct H as (? & w1 & Hm & H).
    apply modify_bs_ok in Hm. subst w1.
    apply update_event_backend_log in H. subst w'.
    split; [reflexivity | discriminate].
  - (* disable event *)
    apply disable_event_log in H. destruct H as (_ & _ & Hlog).
    split; [exact Hlog | discriminate].
Qed.

Lemma handler_call_registration_witness :
  exists w',
    run_call Posix (Sample.os_always (Sample.reply 0 E_ok))
      Sample.cmsg_space Sample.cmsg_len 5 2 (Call_enable_event BSOCKET_READ)
      (Sample.world
         (set_handlers
            {| slot0 := Some 7; slot1 := None; slot2 := None;
               slot3 := None |}
            (Sample.fresh BSOCKET_TYPE_STREAM false))) = Ok (tt, w') /\
    os_log w' = [R_SetFileDescriptorEvents 1 3 BREACTOR_READ].
Proof.
  eexists. split; [cbv; reflexivity|].
  exact (proj1 (@handler_call_registration Posix
                  (Sample.os_always (Sample.reply 0 E_ok))
                  Sample.cmsg_space Sample.cmsg_len 5 2
                  (Call_enable_event BSOCKET_READ)
                  (Sample.world
                     (set_handlers
                        {| slot0 := Some 7; slot1 := None; slot2 := None;
                           slot3 := None |}
                        (Sample.fresh BSOCKET_TYPE_STREAM false)))
                  _ eq_refl eq_refl)).
Defined.

(** ** Creation and destruction *)

(** Splits a log given as an explicit list on a known tail. *)
Ltac log_prefix_from x acc :=
  first
    [ let l := eval cbn [rev app] in (rev acc) in
      exists l; split; [reflexivity|]
    | lazymatch x with
      | ?a :: ?t => log_prefix_from t (a :: acc)
      end ].

Ltac log_prefix :=
  cbn [bs os_log];
  lazymatch goal with
  | |- exists l, ?x = l ++ _ /\ _ => log_prefix_from x (@nil syscall)
  end.

Ltac not_among :=
  cbn [In]; intro; repeat match goal with
                          | H : _ \/ _ |- _ => destruct H
                          | H : False |- _ => destruct H
                          | H : _ = _ |- _ => discriminate H
                          end.

(** X6. [BSocket_Init] returns 0 or -1 and never leaks the descriptor.
    When socket() fails nothing else is called and the object is left as it
    was; when a later step fails the last call closes the descriptor; on
    success the descriptor is stored in the object and was not closed. *)
Theorem init_descriptor (plat : platform)
  (os : list syscall -> syscall -> os_reply) (BSOCKET_DEFAULT_RECV_MAX : Z)
  (reactor : Z) (domain : addr_domain) (ty : socket_type)
  (w : World) (s : Z) (w' : World) :
  BSocket_Init plat os BSOCKET_DEFAULT_RECV_MAX reactor domain ty w =
  Ok (s, w') ->
  domain <> BADDR_TYPE_NONE /\
  exists l,
    os_log w' = l ++ socket_call plat domain ty :: os_log w /\
    let fd := r_ret (os (os_log w) (socket_call plat domain ty)) in
    (s = 0 /\ 0 <= fd /\ socket (bs w') = fd /\ ~ In (SYS_close fd) l) \/
    (s = -1 /\ fd < 0 /\ l = [] /\ bs w' = bs w) \/
    (s = -1 /\ 0 <= fd /\ exists l', l = SYS_close fd :: l').
Proof.
  unfold BSocket_Init, socket_call. intro H.
  apply bind_ok in H. destruct H as (sd & w1 & Hd & H).
  apply assert_some_ok in Hd. destruct Hd as [Hd ->].
  split; [intros ->; discriminate Hd|].
  assert (sd = match domain with
               | BADDR_TYPE_IPV6 => AF_INET6 plat
               | _ => AF_INET
               end) as ->
    by (destruct domain; congruence).
  clear Hd.
  apply bind_ok in H. destruct H as (r & w1 & Hr & H).
  apply os_call_ok in Hr. destruct Hr as [-> ->].
  cbn beta iota zeta in H.
  match type of H with
  | context [SYS_socket ?d ?t] => set (call := SYS_socket d t) in *
  end.
  destruct (r_ret (os (os_log w) call) <? 0) eqn:Efd.
  - apply ret_ok in H. destruct H as [Hv ->]. inversion Hv; subst s.
    exists []. split; [reflexivity|]. right. left.
    apply Z.ltb_lt in Efd. auto.
  - apply Z.ltb_ge in Efd.
    unfold init_event_backend, set_nonblocking, set_pktinfo, set_pktinfo6,
      close_socket in H.
    mrun.
    all: try (destruct ty, domain; mrun).
    all: log_prefix.
    all: first
           [ left; split; [reflexivity|]; split; [exact Efd|];
             split; [reflexivity|]; not_among
           | right; right; split; [reflexivity|]; split; [exact Efd|];
             eexists; reflexivity ].
Qed.

Lemma init_descriptor_witness :
  exists s w',
    BSocket_Init Posix Sample.os_opening 2 1 BADDR_TYPE_IPV4
      BSOCKET_TYPE_STREAM
      (Sample.world (Sample.fresh BSOCKET_TYPE_STREAM false)) = Ok (s, w') /\
    exists l,
      os_log w' = l ++ [socket_call Posix BADDR_TYPE_IPV4 BSOCKET_TYPE_STREAM]
      /\ ~ In (SYS_close 1) l.
Proof.
  eexists. eexists. split; [cbv; reflexivity|].
  destruct (@init_descriptor Posix Sample.os_opening 2 1 BADDR_TYPE_IPV4
              BSOCKET_TYPE_STREAM
              (Sample.world (Sample.fresh BSOCKET_TYPE_STREAM false))
              _ _ eq_refl) as (_ & l & Hl & H).
  exists l. split; [exact Hl|].
  destruct H as [(_ & _ & _ & H) | [(H & _) | (H & _)]];
    [exact H | discriminate H | discriminate H].
Defined.

Ltac fresh_fields :=
  cbn [bs os_log init_variables DEAD_INIT init_handlers set_dead set_bsys
         set_type set_socket set_have_pktinfo set_error set_global_handler
         set_handlers set_waitEvents set_connecting_status set_recv_max
         set_recv_num set_event dead error global_handler handlers
         waitEvents connecting_status recv_max recv_num bsys type socket
         have_pktinfo fst snd].

Lemma init_created (plat : platform)
  (os : list syscall -> syscall -> os_reply) (BSOCKET_DEFAULT_RECV_MAX : Z)
  (reactor : Z) (domain : addr_domain) (ty : socket_type)
  (w w' : World) :
  BSocket_Init plat os BSOCKET_DEFAULT_RECV_MAX reactor domain ty w =
  Ok (0, w') ->
  fresh_state BSOCKET_DEFAULT_RECV_MAX (bs w') /\
  type (bs w') = ty /\
  (have_pktinfo (bs w') = true -> ty = BSOCKET_TYPE_DGRAM).
Proof.
  unfold BSocket_Init, init_event_backend, set_nonblocking, set_pktinfo,
    set_pktinfo6, close_socket, fresh_state.
  intro H. destruct ty, domain; mrun; fresh_fields;
    (split; [repeat split|]); (split; [reflexivity|]);
    first [discriminate | reflexivity].
Qed.

(** X7. A socket that [BSocket_Init] reports as created is in the fresh
    state with the default receive cap, belongs to the reactor and has the
    type that were asked for, and has packet information exactly when it is
    a datagram socket whose request for that option, made right after the
    descriptor was set non-blocking, answered 0. *)
Theorem init_state (plat : platform)
  (os : list syscall -> syscall -> os_reply) (BSOCKET_DEFAULT_RECV_MAX : Z)
  (reactor : Z) (domain : addr_domain) (ty : socket_type)
  (w w' : World) :
  BSocket_Init plat os BSOCKET_DEFAULT_RECV_MAX reactor domain ty w =
  Ok (0, w') ->
  fresh_state BSOCKET_DEFAULT_RECV_MAX (bs w') /\
  bsys (bs w') = reactor /\
  type (bs w') = ty /\
  let fd := r_ret (os (os_log w) (socket_call plat domain ty)) in
  (have_pktinfo (bs w') = true <->
   ty = BSOCKET_TYPE_DGRAM /\
   r_ret (os (SYS_set_nonblocking fd :: socket_call plat domain ty
                :: os_log w)
            (pktinfo_request plat domain fd)) = 0).
Proof.
  unfold BSocket_Init, socket_call, pktinfo_request, fresh_state. intro H.
  apply bind_ok in H. destruct H as (sd & w1 & Hd & H).
  apply assert_some_ok in Hd. destruct Hd as [Hd ->].
  assert (sd = match domain with
               | BADDR_TYPE_IPV6 => AF_INET6 plat
               | _ => AF_INET
               end) as ->
    by (destruct domain; congruence).
  assert (Hdom : domain <> BADDR_TYPE_NONE) by (intros ->; discriminate Hd).
  clear Hd.
  apply bind_ok in H. destruct H as (r & w1 & Hr & H).
  apply os_call_ok in Hr. destruct Hr as [-> ->].
  cbn beta iota zeta in H.
  unfold init_event_backend, set_nonblocking, set_pktinfo, set_pktinfo6,
    close_socket in H.
  destruct ty, domain; try (now contradiction Hdom); mrun;
    cbn [bs os_log init_variables DEAD_INIT init_handlers set_dead set_bsys
           set_type set_socket set_have_pktinfo set_error set_global_handler
           set_handlers set_waitEvents set_connecting_status set_recv_max
           set_recv_num set_event dead error global_handler handlers
           waitEvents connecting_status recv_max recv_num bsys type
           have_pktinfo fst snd];
    (split; [repeat split|]); (split; [reflexivity|]);
    (split; [reflexivity|]);
    try (split; [discriminate | intros [E _]; discriminate E]);
    (split; [intro E; apply Z.eqb_eq in E; auto
            | intros [_ E]; apply Z.eqb_eq; exact E]).
Qed.

Lemma init_state_witness :
  exists w',
    BSocket_Init Posix Sample.os_opening 2 1 BADDR_TYPE_IPV4
      BSOCKET_TYPE_STREAM
      (Sample.world (Sample.fresh BSOCKET_TYPE_DGRAM true)) = Ok (0, w') /\
    type (bs w') = BSOCKET_TYPE_STREAM.
Proof.
  eexists. split; [cbv; reflexivity|].
  exact (proj1 (proj2 (proj2 (@init_state Posix Sample.os_opening 2 1
                                BADDR_TYPE_IPV4 BSOCKET_TYPE_STREAM
                                (Sample.world
                                   (Sample.fresh BSOCKET_TYPE_DGRAM true))
                                _ eq_refl)))).
Defined.

(** X8. [BSocket_Accept] changes nothing of the listening socket but its
    error slot, and ends in one of four ways.  accept() failed: nothing
    else is called, no socket is written, the status is -1 and the error is
    LATER or UNKNOWN.  No object was given for the new socket: the accepted
    descriptor is closed at once and the call succeeds.  A later step
    failed: the last call closes the accepted descriptor, the status is -1
    with UNKNOWN.  Otherwise the new socket is in the fresh state, holds the
    accepted descriptor, which was not closed, has the type and the reactor
    of the listener and no packet information.  On success the address
    returned is the translation of the one accept() stored, when one was
    asked for. *)
Theorem accept_outcomes (plat : platform)
  (os : list syscall -> syscall -> os_reply) (BSOCKET_DEFAULT_RECV_MAX : Z)
  (newsock : option BSocket) (want_addr : bool) (w : World) (s : Z)
  (ns : option BSocket) (a : option BAddr) (w' : World) :
  BSocket_Accept plat os BSOCKET_DEFAULT_RECV_MAX newsock want_addr w =
  Ok ((s, ns, a), w') ->
  let r := os (os_log w) (SYS_accept (socket (bs w))) in
  let fd := r_ret r in
  bs w' = set_error (error (bs w')) (bs w) /\
  (s = 0 ->
   a = if want_addr then addr_sys_to_socket plat (r_addr r) else None) /\
  exists l,
    os_log w' = l ++ SYS_accept (socket (bs w)) :: os_log w /\
    ((fd < 0 /\ s = -1 /\ l = [] /\ ns = None /\
      error (bs w') = accept_error plat (r_errno r)) \/
     (0 <= fd /\ newsock = None /\ s = 0 /\ l = [SYS_close fd] /\
      ns = None /\ error (bs w') = BSOCKET_ERROR_NONE) \/
     (0 <= fd /\ newsock <> None /\ s = -1 /\
      error (bs w') = BSOCKET_ERROR_UNKNOWN /\
      exists l', l = SYS_close fd :: l') \/
     (0 <= fd /\ s = 0 /\ error (bs w') = BSOCKET_ERROR_NONE /\
      ~ In (SYS_close fd) l /\
      exists n, ns = Some n /\
        fresh_state BSOCKET_DEFAULT_RECV_MAX n /\
        socket n = fd /\ type n = type (bs w) /\ bsys n = bsys (bs w) /\
        have_pktinfo n = false)).
Proof.
  intros H r fd. unfold BSocket_Accept in H. unfold fresh_state.
  apply bind_ok in H. destruct H as (b & w1 & Hb & H).
  apply get_bs_ok in Hb. destruct Hb as [-> ->].
  apply bind_ok in H. destruct H as (r0 & w1 & Hr & H).
  apply os_call_ok in Hr. destruct Hr as [-> ->].
  cbn beta iota zeta in H. fold r in H. fold fd in H.
  destruct (fd <? 0) eqn:Efd.
  - apply Z.ltb_lt in Efd. mrun.
    split; [reflexivity|]. split; [discriminate|].
    exists []. split; [reflexivity|]. left. repeat split; auto.
  - apply Z.ltb_ge in Efd.
    unfold init_event_backend, set_nonblocking, close_socket in H.
    destruct newsock as [ns0|].
    + mrun.
      all: (split; [reflexivity|]);
           (split; [first [discriminate | reflexivity
                          | intros _; symmetry; assumption]|]).
      all: log_prefix.
      all: first
             [ solve [right; right; left; split; [exact Efd|];
                      split; [discriminate|]; split; [reflexivity|];
                      split; [reflexivity|]; eexists; reflexivity]
             | right; right; right; split; [exact Efd|];
               split; [reflexivity|]; split; [reflexivity|];
               split; [not_among|];
               eexists; split; [reflexivity|]; fresh_fields;
               repeat split ].
    + mrun.
      all: (split; [reflexivity|]);
           (split; [first [reflexivity | intros _; symmetry; assumption]|]).
      all: log_prefix; right; left; repeat split; auto.
Qed.

Lemma accept_outcomes_witness :
  exists s ns a w',
    BSocket_Accept Posix Sample.os_opening 2
      (Some (Sample.fresh BSOCKET_TYPE_DGRAM true)) true
      (Sample.world (Sample.fresh BSOCKET_TYPE_STREAM false)) =
    Ok ((s, ns, a), w') /\
    (s = 0 -> a = Some Sample.loopback).
Proof.
  eexists. eexists. eexists. eexists. split; [cbv; reflexivity|].
  exact (proj1 (proj2 (@accept_outcomes Posix Sample.os_opening 2
                         (Some (Sample.fresh BSOCKET_TYPE_DGRAM true)) true
                         (Sample.world
                            (Sample.fresh BSOCKET_TYPE_STREAM false))
                         _ _ _ _ eq_refl))).
Defined.

Lemma free_spec plat os w u w' :
  BSocket_Free plat os w = Ok (u, w') ->
  bs w' = set_dead true (bs w) /\
  os_log w' =
  SYS_close (socket (bs w)) :: unregistration plat (bs w) ++ os_log w.
Proof.
  unfold BSocket_Free, free_event_backend, close_socket, unregistration,
    DEAD_KILL.
  intro H. apply bind_ok in H. destruct H as (? & w1 & Hf & H).
  apply bind_ok in Hf. destruct Hf as (b & w2 & Hb & Hf).
  apply get_bs_ok in Hb. destruct Hb as [-> ->].
  destruct plat; mrun; split; reflexivity.
Qed.

Lemma freed_state plat os wm u w1 :
  BSocket_Free plat os wm = Ok (u, w1) ->
  dead (bs w1) = true /\
  exists l,
    os_log w1 =
    SYS_close (socket (bs w1)) :: unregistration plat (bs w1) ++ l.
Proof.
  intro H. apply free_spec in H. destruct H as [Hbs Hlog].
  split; [now rewrite Hbs|]. exists (os_log wm). rewrite Hlog, Hbs.
  destruct plat; reflexivity.
Qed.

Lemma chain_freed hb src w0 tr w' inv :
  handler_chain hb src w0 tr w' ->
  In inv tr ->
  dead (bs (inv_after inv)) = true ->
  (exists before, tr = before ++ [inv]) /\ w' = inv_after inv.
Proof.
  induction 1 as [w | w i rest w' Hsrc Hrun Hlast Hch IH]; intros Hin Hd.
  - destruct Hin.
  - destruct Hin as [-> | Hin].
    + specialize (Hlast Hd). subst rest. inversion Hch; subst.
      split; [exists []; reflexivity | reflexivity].
    + destruct (IH Hin Hd) as ((before & ->) & Hw).
      split; [exists (i :: before); reflexivity | exact Hw].
Qed.

(** X9. [BSocket_Free] called from an event handler ends the dispatch.
    Whatever the handler did before, if the last thing its call did was
    [BSocket_Free], then that call is the last one [call_handlers] makes,
    and the dispatcher leaves the state exactly as the handler left it,
    with the socket marked destroyed, after it was taken off the backend
    and its descriptor was closed, in that order. *)
Theorem free_ends_dispatch (plat : platform)
  (os : list syscall -> syscall -> os_reply)
  (hb : BSocket_handler -> Z -> Z -> M unit) (returned_events : Z)
  (w : World) (tr : list invocation) (w' : World) (inv : invocation) :
  call_handlers hb returned_events w = Ok (tr, w') ->
  In inv tr ->
  (exists wm, BSocket_Free plat os wm = Ok (tt, inv_after inv)) ->
  (exists before, tr = before ++ [inv]) /\
  w' = inv_after inv /\
  dead (bs w') = true /\
  exists l,
    os_log w' =
    SYS_close (socket (bs w')) :: unregistration plat (bs w') ++ l.
Proof.
  intros H Hin [wm Hfree]. apply freed_state in Hfree.
  destruct Hfree as [Hd Hlog].
  apply call_handlers_run in H.
  assert (Hend : (exists before, tr = before ++ [inv]) /\ w' = inv_after inv).
  { destruct (global_handler (bs w)) as [h|].
    - destruct H as [-> _]. destruct Hin as [<- | []].
      split; [exists []; reflexivity | reflexivity].
    - destruct H as [Hch _]. eapply chain_freed; eassumption. }
  destruct Hend as [Hlast ->]. auto.
Qed.

Lemma free_ends_dispatch_witness :
  exists tr w' inv,
    call_handlers (Scenario.receiving_then_freeing Posix Scenario.os_zero)
      (Z.lor BSOCKET_READ BSOCKET_WRITE)
      (Sample.world Scenario.two_handlers) = Ok (tr, w') /\
    In inv tr /\
    length tr = 1%nat /\
    dead (bs w') = true.
Proof.
  eexists. eexists. eexists. split; [cbv; reflexivity|].
  split; [left; reflexivity|]. split; [reflexivity|].
  refine (proj1 (proj2 (proj2
    (@free_ends_dispatch Posix Scenario.os_zero
       (Scenario.receiving_then_freeing Posix Scenario.os_zero)
       (Z.lor BSOCKET_READ BSOCKET_WRITE)
       (Sample.world Scenario.two_handlers) _ _ _
       eq_refl (or_introl eq_refl) _)))).
  exists (match BSocket_Recv Posix Scenario.os_zero 100
                  (reset_recv_num (Sample.world Scenario.two_handlers)) with
          | Ok (_, wm) => wm
          | Abort => Sample.world Scenario.two_handlers
          end).
  cbv. reflexivity.
Defined.

(** ** What stays true of a socket in use *)

(** An operation leaves everything but the error slot, the state of the
    connection attempt and the receive counter as it was. *)
Lemma run_op_frame plat os cs cl bl rm op w s w' :
  run_op plat os cs cl bl rm op w = Ok (s, w') ->
  bs w' = set_recv_num (recv_num (bs w'))
            (set_connecting_status (connecting_status (bs w'))
               (set_error (error (bs w')) (bs w))).
Proof.
  destruct op; cbn [run_op];
    unfold BSocket_Connect, BSocket_Bind, BSocket_Listen, BSocket_Accept,
      BSocket_Send, BSocket_Recv, BSocket_RecvFromTo, BSocket_SendToFrom,
      recvfromto_fallback, BSocket_SendTo, BSocket_RecvFrom,
      BSocket_GetPeerName, obtain_extension, limit_recv, close_socket,
      set_nonblocking, init_event_backend;
    intro H; mrun; reflexivity.
Qed.

Lemma run_call_identity plat os cs cl bl rm c w w' :
  run_call plat os cs cl bl rm c w = Ok (tt, w') ->
  same_identity (bs w) (bs w').
Proof.
  unfold same_identity. intro H. destruct c; cbn [run_call] in H.
  - mrun.
    match goal with
    | Hop : run_op _ _ _ _ _ _ _ _ = Ok _ |- _ =>
        apply run_op_frame in Hop; rewrite Hop
    end.
    repeat split.
  - unfold BSocket_SetRecvMax in H. mrun. repeat split.
  - unfold BSocket_GetConnectResult in H. mrun. repeat split.
  - unfold BSocket_AddGlobalEventHandler in H. mrun. repeat split.
  - unfold BSocket_RemoveGlobalEventHandler in H. mrun. repeat split.
  - unfold BSocket_SetGlobalEvents, update_event_backend in H. mrun;
      repeat split.
  - unfold BSocket_AddEventHandler in H. mrun. repeat split.
  - unfold BSocket_RemoveEventHandler, BSocket_DisableEvent,
      update_event_backend in H. mrun; repeat split.
  - unfold BSocket_EnableEvent, check_incompatible, update_event_backend in H.
    mrun; repeat split.
  - unfold BSocket_DisableEvent, update_event_backend in H. mrun;
      repeat split.
Qed.

Lemma event_index_cases f i :
  get_event_index f = Some i ->
  (f = BSOCKET_READ /\ i = HANDLER_READ) \/
  (f = BSOCKET_WRITE /\ i = HANDLER_WRITE) \/
  (f = BSOCKET_ACCEPT /\ i = HANDLER_ACCEPT) \/
  (f = BSOCKET_CONNECT /\ i = HANDLER_CONNECT).
Proof.
  unfold get_event_index.
  destruct (Z.eqb_spec f BSOCKET_READ); [intro E; inversion E; auto|].
  destruct (Z.eqb_spec f BSOCKET_WRITE); [intro E; inversion E; auto|].
  destruct (Z.eqb_spec f BSOCKET_ACCEPT); [intro E; inversion E; auto|].
  destruct (Z.eqb_spec f BSOCKET_CONNECT); [intro E; inversion E; auto 6|].
  discriminate.
Qed.

Lemma event_index_flag f i :
  get_event_index f = Some i -> In f event_flags.
Proof.
  intro H. apply event_index_cases in H. unfold event_flags.
  destruct H as [[-> _] | [[-> _] | [[-> _] | [-> _]]]]; cbn; auto.
Qed.

Lemma event_flag_bit f : In f event_flags -> event_bit f.
Proof.
  intro H. destruct event_bits as (B1 & B2 & B3 & B4).
  apply event_flags_cases in H.
  destruct H as [-> | [-> | [-> | ->]]]; assumption.
Qed.

Lemma flag_after_set w ev f :
  In ev event_flags -> In f event_flags ->
  has_flag (Z.lor w ev) f = has_flag w f || (f =? ev).
Proof.
  intros He Hf. rewrite has_flag_lor by now apply event_flag_bit.
  f_equal. apply event_flags_cases in He, Hf.
  destruct He as [-> | [-> | [-> | ->]]];
    destruct Hf as [-> | [-> | [-> | ->]]]; reflexivity.
Qed.

Lemma flag_after_clear w ev f :
  In ev event_flags -> In f event_flags ->
  has_flag (Z.land w (Z.lnot ev)) f = has_flag w f && negb (f =? ev).
Proof.
  intros He Hf. rewrite has_flag_clear by now apply event_flag_bit.
  f_equal. f_equal. apply event_flags_cases in He, Hf.
  destruct He as [-> | [-> | [-> | ->]]];
    destruct Hf as [-> | [-> | [-> | ->]]]; reflexivity.
Qed.

(** The slot of an event is its own. *)
Lemma event_slot_set {A : Type} (a : array4 A) ev i f j v :
  get_event_index ev = Some i -> get_event_index f = Some j ->
  array4_get (array4_set a i v) j = if f =? ev then v else array4_get a j.
Proof.
  intros He Hf. apply event_index_cases in He, Hf.
  destruct He as [[-> ->] | [[-> ->] | [[-> ->] | [-> ->]]]];
    destruct Hf as [[-> ->] | [[-> ->] | [[-> ->] | [-> ->]]]]; reflexivity.
Qed.

Lemma no_handlers_slots (a : array4 (option BSocket_handler)) :
  negb (is_some (array4_get a 0)) = true ->
  negb (is_some (array4_get a 1)) = true ->
  negb (is_some (array4_get a 2)) = true ->
  negb (is_some (array4_get a 3)) = true ->
  a = no_handlers.
Proof.
  destruct a as [[?|] [?|] [?|] [?|]]; cbn; intros; try discriminate.
  reflexivity.
Qed.

Lemma is_some_not_none {A : Type} (o : option A) :
  is_some o = true -> o <> None.
Proof. destruct o; [discriminate | discriminate]. Qed.

Lemma consistent_per_event b i :
  handlers_consistent b ->
  is_some (array4_get (handlers b) i) = true ->
  global_handler b = None.
Proof.
  intros [H1 _] Hs. destruct (global_handler b) as [h|] eqn:E; [|reflexivity].
  rewrite H1 in Hs by discriminate.
  destruct i as [|[|[|[|i]]]]; discriminate Hs.
Qed.

Lemma run_call_consistent plat os cs cl bl rm c w w' :
  run_call plat os cs cl bl rm c w = Ok (tt, w') ->
  handlers_consistent (bs w) -> handlers_consistent (bs w').
Proof.
  intros H Hinv. destruct c; cbn [run_call] in H.
  - mrun.
    match goal with
    | Hop : run_op _ _ _ _ _ _ _ _ = Ok _ |- _ =>
        apply run_op_frame in Hop; rewrite Hop
    end.
    exact Hinv.
  - unfold BSocket_SetRecvMax in H. mrun. exact Hinv.
  - unfold BSocket_GetConnectResult in H. mrun. exact Hinv.
  - unfold BSocket_AddGlobalEventHandler in H. mrun.
    split; cbn [bs global_handler handlers waitEvents set_global_handler
                  set_global_handler_user].
    + intros _. now apply no_handlers_slots.
    + intros f i _ _. left. now apply is_some_not_none.
  - unfold BSocket_RemoveGlobalEventHandler in H. mrun.
    split; cbn [bs global_handler handlers waitEvents set_global_handler
                  set_waitEvents].
    + intro C. now contradiction C.
    + intros f i _ C. discriminate C.
  - unfold BSocket_SetGlobalEvents, update_event_backend in H.
    mrun; (split; cbn [bs global_handler handlers waitEvents set_waitEvents];
           [exact (proj1 Hinv)
           | intros f i _ _; left; now apply is_some_not_none]).
  - unfold BSocket_AddEventHandler in H. mrun.
    destruct Hinv as [Hglob Hslot].
    split; cbn [bs global_handler handlers waitEvents set_handlers
                  set_handlers_user].
    + intro C. exfalso. apply C.
      destruct (global_handler (bs w)); [discriminate | reflexivity].
    + intros f j Hj Hf. destruct (Hslot f j Hj Hf) as [C | C]; [now left|].
      right.
      match goal with
      | Hi : get_event_index ev = Some _ |- _ =>
          rewrite (@event_slot_set _ _ ev _ f j _ Hi Hj)
      end.
      destruct (f =? ev); [now apply is_some_not_none | exact C].
  - unfold BSocket_RemoveEventHandler in H.
    apply bind_ok in H. destruct H as (i & w1 & Hi & H).
    apply assert_some_ok in Hi. destruct Hi as [Hi ->].
    apply bind_ok in H. destruct H as (b & w1 & Hb & H).
    apply get_bs_ok in Hb. destruct Hb as [-> ->].
    apply bind_ok in H. destruct H as (? & w1 & Ha & H).
    apply ASSERT_ok in Ha. destruct Ha as [Hsome ->].
    apply bind_ok in H. destruct H as (? & w1 & Hd & H).
    apply modify_bs_ok in H. subst w'.
    pose proof (@consistent_per_event _ _ Hinv Hsome) as Hg.
    destruct Hinv as [Hglob Hslot].
    assert (Hw : bs w1 = bs w \/
                 bs w1 = set_waitEvents
                           (Z.land (waitEvents (bs w)) (Z.lnot ev)) (bs w)).
    { destruct (has_flag (waitEvents (bs w)) ev).
      - right. unfold BSocket_DisableEvent, update_event_backend in Hd.
        mrun; reflexivity.
      - left. apply ret_ok in Hd. destruct Hd as [_ ->]. reflexivity. }
    assert (Hoff : has_flag (waitEvents (bs w1)) ev = false).
    { destruct (has_flag (waitEvents (bs w)) ev) eqn:E.
      - unfold BSocket_DisableEvent, update_event_backend in Hd.
        mrun; cbn [bs waitEvents set_waitEvents];
          rewrite flag_after_clear by (eapply event_index_flag; eassumption);
          rewrite Z.eqb_refl; apply andb_false_r.
      - apply ret_ok in Hd. destruct Hd as [_ ->]. exact E. }
    split; cbn [bs global_handler handlers waitEvents set_handlers].
    + destruct Hw as [-> | ->]; cbn [global_handler set_waitEvents];
        intro C; now contradiction C.
    + intros f j Hj Hf. right.
      rewrite (@event_slot_set _ _ ev _ f j _ Hi Hj).
      destruct (Z.eqb_spec f ev) as [-> | Hne]; [congruence|].
      assert (Hf0 : has_flag (waitEvents (bs w)) f = true).
      { destruct Hw as [E | E]; rewrite E in Hf; [exact Hf|].
        cbn [waitEvents set_waitEvents] in Hf.
        rewrite flag_after_clear in Hf
          by (eapply event_index_flag; eassumption).
        apply andb_true_iff in Hf. tauto. }
      destruct (Hslot f j Hj Hf0) as [C | C]; [now contradiction C|].
      destruct Hw as [-> | ->]; exact C.
  - unfold BSocket_EnableEvent in H.
    apply bind_ok in H. destruct H as (? & w1 & Hk & H).
    assert (w1 = w) as ->.
    { unfold check_incompatible in Hk. mrun; reflexivity. }
    unfold update_event_backend in H. destruct Hinv as [Hglob Hslot].
    mrun;
      (split; cbn [bs global_handler handlers waitEvents set_waitEvents];
       [exact Hglob|]);
      intros f j Hj Hf;
      (rewrite flag_after_set in Hf by (eapply event_index_flag; eassumption));
      (destruct (Z.eqb_spec f ev) as [-> | Hne];
       [right; apply is_some_not_none; congruence
       | rewrite orb_false_r in Hf; exact (Hslot f j Hj Hf)]).
  - unfold BSocket_DisableEvent, update_event_backend in H.
    destruct Hinv as [Hglob Hslot].
    mrun;
      (split; cbn [bs global_handler handlers waitEvents set_waitEvents];
       [exact Hglob|]);
      intros f j Hj Hf;
      (rewrite flag_after_clear in Hf by (eapply event_index_flag; eassumption));
      apply andb_true_iff in Hf; destruct Hf as [Hf _];
      exact (Hslot f j Hj Hf).
Qed.

Lemma other_op_recv_num plat os cs cl bl rm op w s w' :
  is_recv_op op = false ->
  run_op plat os cs cl bl rm op w = Ok (s, w') ->
  recv_num (bs w') = recv_num (bs w).
Proof.
  intro Hop. destruct op; try discriminate Hop; cbn [run_op];
    unfold BSocket_Connect, BSocket_Bind, BSocket_Listen, BSocket_Accept,
      BSocket_Send, BSocket_SendToFrom, BSocket_SendTo, BSocket_GetPeerName,
      obtain_extension, close_socket, set_nonblocking, init_event_backend;
    intro H; mrun; reflexivity.
Qed.

Lemma run_call_quota plat os cs cl bl rm c w w' :
  int_sized c = true ->
  run_call plat os cs cl bl rm c w = Ok (tt, w') ->
  quota_kept (bs w) -> quota_kept (bs w').
Proof.
  unfold quota_kept. intros Hc H [Hq Hmax].
  destruct c; cbn [run_call int_sized] in *.
  - apply bind_ok in H. destruct H as (s & w1 & Hrun & H).
    apply ret_ok in H. destruct H as [_ ->].
    pose proof (run_op_frame _ _ _ _ _ _ _ _ Hrun) as Hf.
    assert (Hm : recv_max (bs w1) = recv_max (bs w)) by now rewrite Hf.
    rewrite Hm. split; [|exact Hmax].
    destruct (is_recv_op op) eqn:Hop.
    + destruct (recv_op_quota _ _ _ _ _ _ _ _ Hop Hrun) as [_ Ho].
      destruct Ho as [(_ & _ & _ & E & _)
                     | [(Hpos & Hlt & E & _) | (_ & E & _)]].
      * now rewrite E.
      * rewrite E, wrap_int_small by (unfold INT_MAX in *; lia). lia.
      * now rewrite E.
    + now rewrite (other_op_recv_num _ _ _ _ _ _ _ _ Hop Hrun).
  - unfold BSocket_SetRecvMax in H. mrun.
    cbn [bs recv_num recv_max set_recv_num set_recv_max]. lia.
  - unfold BSocket_GetConnectResult in H. mrun. auto.
  - unfold BSocket_AddGlobalEventHandler in H. mrun. auto.
  - unfold BSocket_RemoveGlobalEventHandler in H. mrun. auto.
  - unfold BSocket_SetGlobalEvents, update_event_backend in H. mrun; auto.
  - unfold BSocket_AddEventHandler in H. mrun. auto.
  - unfold BSocket_RemoveEventHandler, BSocket_DisableEvent,
      update_event_backend in H. mrun; auto.
  - unfold BSocket_EnableEvent, check_incompatible, update_event_backend in H.
    mrun; auto.
  - unfold BSocket_DisableEvent, update_event_backend in H. mrun; auto.
Qed.

Lemma accept_created plat os rm ns0 want_addr w ns a w' :
  BSocket_Accept plat os rm (Some ns0) want_addr w =
  Ok ((0, Some ns, a), w') ->
  fresh_state rm ns /\ have_pktinfo ns = false.
Proof.
  unfold BSocket_Accept, init_event_backend, set_nonblocking, close_socket,
    fresh_state.
  intro H. mrun; fresh_fields; repeat split.
Qed.

(** X10. What a socket is does not change once it is created: no call of
    the interface changes its reactor, type, descriptor, event object or
    whether it has packet information, nor destroys it.  So every socket in
    use is alive, and has packet information only if it is a datagram
    socket. *)
Theorem identity_fixed (plat : platform)
  (os : list syscall -> syscall -> os_reply) (CMSG_SPACE CMSG_LEN : Z -> Z)
  (BSOCKET_DEFAULT_BACKLOG BSOCKET_DEFAULT_RECV_MAX : Z) :
  (forall c w w',
     run_call plat os CMSG_SPACE CMSG_LEN BSOCKET_DEFAULT_BACKLOG
       BSOCKET_DEFAULT_RECV_MAX c w = Ok (tt, w') ->
     same_identity (bs w) (bs w')) /\
  (forall w,
     reachable plat os CMSG_SPACE CMSG_LEN BSOCKET_DEFAULT_BACKLOG
       BSOCKET_DEFAULT_RECV_MAX any_call w ->
     dead (bs w) = false /\
     (have_pktinfo (bs w) = true -> type (bs w) = BSOCKET_TYPE_DGRAM)).
Proof.
  split.
  - intros c w w'. apply run_call_identity.
  - induction 1 as [w0 reactor domain ty w Hi
                    | l ns0 want_addr ns a l' Ha
                    | w c w' Hr IH Hc Hs
                    | w hb events tr w' Hr IH Huse Hd].
    + apply init_created in Hi.
      destruct Hi as ((Hd & _) & Hty & Hp). split; [exact Hd|].
      intro E. rewrite Hty. now apply Hp.
    + apply accept_created in Ha. destruct Ha as ((Hd & _) & Hp).
      cbn [bs]. split; [exact Hd | congruence].
    + apply run_call_identity in Hs.
      destruct Hs as (Hd & _ & Hty & _ & _ & Hp).
      rewrite Hd, Hty, Hp. exact IH.
    + apply (@backend_dispatch_preserves plat os CMSG_SPACE CMSG_LEN
               BSOCKET_DEFAULT_BACKLOG BSOCKET_DEFAULT_RECV_MAX any_call
               (fun b => dead b = false /\
                         (have_pktinfo b = true ->
                          type b = BSOCKET_TYPE_DGRAM)))
        with (hb := hb) (events := events) (w := w) (tr := tr);
        auto.
      intros c u u' _ Hs HP. apply run_call_identity in Hs.
      destruct Hs as (E1 & _ & E2 & _ & _ & E3).
      rewrite E1, E2, E3. exact HP.
Qed.

Lemma identity_fixed_witness :
  exists w,
    reachable Posix Scenario.os_datagram Sample.cmsg_space Sample.cmsg_len
      128 2 any_call w /\
    have_pktinfo (bs w) = true /\
    type (bs w) = BSOCKET_TYPE_DGRAM.
Proof.
  assert (R : exists w,
    reachable Posix Scenario.os_datagram Sample.cmsg_space Sample.cmsg_len
      128 2 any_call w /\
    have_pktinfo (bs w) = true).
  { eexists. split.
    - eapply reach_init
        with (w0 := Sample.world (Sample.fresh BSOCKET_TYPE_STREAM false))
             (reactor := 1) (domain := BADDR_TYPE_IPV4)
             (ty := BSOCKET_TYPE_DGRAM).
      cbv. reflexivity.
    - reflexivity. }
  destruct R as (w & Hr & Hp). exists w.
  split; [exact Hr|]. split; [exact Hp|].
  exact (proj2 (proj2 (@identity_fixed Posix Scenario.os_datagram
                         Sample.cmsg_space Sample.cmsg_len 128 2) w Hr) Hp).
Defined.

Lemma fresh_consistent rm b : fresh_state rm b -> handlers_consistent b.
Proof.
  intros (_ & _ & Hg & _ & Hw & _). split.
  - intro C. now contradiction C.
  - intros f i _ Hf. rewrite Hw in Hf. discriminate Hf.
Qed.

(** X11. In every state of a socket in use, whether left by a call of the
    interface or by a dispatch of the backend whose callbacks make such
    calls, the two kinds of handler do not coexist (while a global handler
    is installed the per-event table is empty), and every enabled event has
    a handler to go to: the global one, or its own.  Every call that passes
    its assertions keeps this from whatever state it starts in, and so does
    every such dispatch, the completion of a connection attempt
    included. *)
Theorem handlers_stay_consistent (plat : platform)
  (os : list syscall -> syscall -> os_reply) (CMSG_SPACE CMSG_LEN : Z -> Z)
  (BSOCKET_DEFAULT_BACKLOG BSOCKET_DEFAULT_RECV_MAX : Z) :
  (forall w,
     reachable plat os CMSG_SPACE CMSG_LEN BSOCKET_DEFAULT_BACKLOG
       BSOCKET_DEFAULT_RECV_MAX any_call w ->
     handlers_consistent (bs w)) /\
  (forall c w w',
     run_call plat os CMSG_SPACE CMSG_LEN BSOCKET_DEFAULT_BACKLOG
       BSOCKET_DEFAULT_RECV_MAX c w = Ok (tt, w') ->
     handlers_consistent (bs w) -> handlers_consistent (bs w')) /\
  (forall handler_body events w tr w',
     handlers_use_interface plat os CMSG_SPACE CMSG_LEN
       BSOCKET_DEFAULT_BACKLOG BSOCKET_DEFAULT_RECV_MAX any_call
       handler_body ->
     backend_dispatch plat os handler_body events w = Ok (tr, w') ->
     handlers_consistent (bs w) -> handlers_consistent (bs w')).
Proof.
  assert (Hcall : forall c w w',
     any_call c = true ->
     run_call plat os CMSG_SPACE CMSG_LEN BSOCKET_DEFAULT_BACKLOG
       BSOCKET_DEFAULT_RECV_MAX c w = Ok (tt, w') ->
     handlers_consistent (bs w) -> handlers_consistent (bs w')).
  { intros c w w' _. apply run_call_consistent. }
  assert (Hdisp : forall handler_body events w tr w',
     handlers_use_interface plat os CMSG_SPACE CMSG_LEN
       BSOCKET_DEFAULT_BACKLOG BSOCKET_DEFAULT_RECV_MAX any_call
       handler_body ->
     backend_dispatch plat os handler_body events w = Ok (tr, w') ->
     handlers_consistent (bs w) -> handlers_consistent (bs w')).
  { intros hb events w tr w' Huse H.
    apply (@backend_dispatch_preserves plat os CMSG_SPACE CMSG_LEN
             BSOCKET_DEFAULT_BACKLOG BSOCKET_DEFAULT_RECV_MAX any_call
             handlers_consistent Hcall (fun b Hb => Hb) (fun b r _ Hb => Hb)
             hb events w tr w' Huse H). }
  split; [|split; [|exact Hdisp]].
  - induction 1 as [w0 reactor domain ty w Hi
                   | l ns0 want_addr ns a l' Ha
                   | w c w' Hr IH Hc Hs
                   | w hb events tr w' Hr IH Huse Hd].
    + apply init_created in Hi. destruct Hi as (Hf & _).
      exact (fresh_consistent Hf).
    + apply accept_created in Ha. destruct Ha as (Hf & _).
      exact (fresh_consistent Hf).
    + exact (Hcall _ _ _ Hc Hs IH).
    + exact (Hdisp _ _ _ _ _ Huse Hd IH).
  - intros c w w'. apply Hcall. reflexivity.
Qed.

Lemma handlers_stay_consistent_witness :
  exists w,
    reachable Posix Scenario.os_connecting Sample.cmsg_space Sample.cmsg_len
      128 2 any_call w /\
    waitEvents (bs w) = BSOCKET_CONNECT /\
    connecting_status (bs w) = 2 /\
    handlers_consistent (bs w).
Proof.
  assert (R : exists w,
    reachable Posix Scenario.os_connecting Sample.cmsg_space Sample.cmsg_len
      128 2 any_call w /\
    waitEvents (bs w) = BSOCKET_CONNECT /\
    connecting_status (bs w) = 2).
  { eexists. split.
    - eapply reach_dispatch
        with (handler_body := Sample.quiet) (events := BREACTOR_WRITE).
      + eapply reach_step with (c := Call_enable_event BSOCKET_CONNECT).
        * eapply reach_step with (c := Call_op (Op_connect Sample.loopback)).
          -- eapply reach_step
               with (c := Call_add_event_handler BSOCKET_CONNECT (Some 7) 0).
             ++ eapply reach_init
                  with (w0 := Sample.world
                                (Sample.fresh BSOCKET_TYPE_STREAM false))
                       (reactor := 1) (domain := BADDR_TYPE_IPV4)
                       (ty := BSOCKET_TYPE_STREAM).
                cbv. reflexivity.
             ++ reflexivity.
             ++ cbv. reflexivity.
          -- reflexivity.
          -- cbv. reflexivity.
        * reflexivity.
        * cbv. reflexivity.
      + apply quiet_uses_interface.
      + cbv. reflexivity.
    - split; reflexivity. }
  destruct R as (w & Hr & Hw & Hc). exists w.
  split; [exact Hr|]. split; [exact Hw|]. split; [exact Hc|].
  exact (proj1 (@handlers_stay_consistent Posix Scenario.os_connecting
                  Sample.cmsg_space Sample.cmsg_len 128 2) w Hr).
Defined.

(** X12. With a default cap and caps passed to [BSocket_SetRecvMax] that
    are [int]s, the receive counter of a socket in use is never negative
    and never above a positive cap, and is 0 while there is no cap,
    whatever calls of the interface are made in whatever order and whatever
    dispatches of the backend, each of which resets the counter before it
    calls the handlers, come in between.  Every such call keeps this from
    whatever state it starts in, so does [call_handlers] and so does every
    dispatch whose callbacks make such calls. *)
Theorem quota_stays_kept (plat : platform)
  (os : list syscall -> syscall -> os_reply) (CMSG_SPACE CMSG_LEN : Z -> Z)
  (BSOCKET_DEFAULT_BACKLOG BSOCKET_DEFAULT_RECV_MAX : Z) :
  BSOCKET_DEFAULT_RECV_MAX <= INT_MAX ->
  (forall w,
     reachable plat os CMSG_SPACE CMSG_LEN BSOCKET_DEFAULT_BACKLOG
       BSOCKET_DEFAULT_RECV_MAX int_sized w ->
     quota_kept (bs w)) /\
  (forall c w w',
     int_sized c = true ->
     run_call plat os CMSG_SPACE CMSG_LEN BSOCKET_DEFAULT_BACKLOG
       BSOCKET_DEFAULT_RECV_MAX c w = Ok (tt, w') ->
     quota_kept (bs w) -> quota_kept (bs w')) /\
  (forall handler_body returned_events w tr w',
     handlers_use_interface plat os CMSG_SPACE CMSG_LEN
       BSOCKET_DEFAULT_BACKLOG BSOCKET_DEFAULT_RECV_MAX int_sized
       handler_body ->
     call_handlers handler_body returned_events w = Ok (tr, w') ->
     quota_kept (bs w) -> quota_kept (bs w')) /\
  (forall handler_body events w tr w',
     handlers_use_interface plat os CMSG_SPACE CMSG_LEN
       BSOCKET_DEFAULT_BACKLOG BSOCKET_DEFAULT_RECV_MAX int_sized
       handler_body ->
     backend_dispatch plat os handler_body events w = Ok (tr, w') ->
     quota_kept (bs w) -> quota_kept (bs w')).
Proof.
  intro Hrm.
  assert (Hcall : forall c w w',
     int_sized c = true ->
     run_call plat os CMSG_SPACE CMSG_LEN BSOCKET_DEFAULT_BACKLOG
       BSOCKET_DEFAULT_RECV_MAX c w = Ok (tt, w') ->
     quota_kept (bs w) -> quota_kept (bs w')).
  { intros c w w'. apply run_call_quota. }
  assert (Hreset : forall b, quota_kept b -> quota_kept (set_recv_num 0 b)).
  { unfold quota_kept. intros b [Hq Hm].
    cbn [recv_num recv_max set_recv_num]. lia. }
  assert (Hdisp : forall handler_body events w tr w',
     handlers_use_interface plat os CMSG_SPACE CMSG_LEN
       BSOCKET_DEFAULT_BACKLOG BSOCKET_DEFAULT_RECV_MAX int_sized
       handler_body ->
     backend_dispatch plat os handler_body events w = Ok (tr, w') ->
     quota_kept (bs w) -> quota_kept (bs w')).
  { intros hb events w tr w' Huse H.
    apply (@backend_dispatch_preserves plat os CMSG_SPACE CMSG_LEN
             BSOCKET_DEFAULT_BACKLOG BSOCKET_DEFAULT_RECV_MAX int_sized
             quota_kept Hcall Hreset (fun b r _ Hb => Hb)
             hb events w tr w' Huse H). }
  split; [|split; [exact Hcall | split; [|exact Hdisp]]].
  - induction 1 as [w0 reactor domain ty w Hi
                   | l ns0 want_addr ns a l' Ha
                   | w c w' Hr IH Hc Hs
                   | w hb events tr w' Hr IH Huse Hd].
    + apply init_created in Hi.
      destruct Hi as ((_ & _ & _ & _ & _ & _ & Hm & Hn) & _).
      unfold quota_kept. rewrite Hm, Hn. lia.
    + apply accept_created in Ha.
      destruct Ha as ((_ & _ & _ & _ & _ & _ & Hm & Hn) & _).
      unfold quota_kept. cbn [bs]. rewrite Hm, Hn. lia.
    + exact (Hcall _ _ _ Hc Hs IH).
    + exact (Hdisp _ _ _ _ _ Huse Hd IH).
  - intros hb ev w tr w' Huse H HP.
    eapply (@call_handlers_preserves hb quota_kept);
      [ | exact Hreset | exact H | exact HP ].
    intros h user e u u' Hrun.
    eapply path_preserves; [exact Hcall | exact (Huse _ _ _ _ _ Hrun)].
Qed.

Lemma receiving_uses_interface plat os cs cl bl rm :
  handlers_use_interface plat os cs cl bl rm int_sized
    (fun _ _ _ => BSocket_Recv plat os 1;;; ret tt).
Proof.
  intros h user ev w w' H.
  apply path_call with (c := Call_op (Op_recv 1)) (w1 := w');
    [reflexivity | exact H | constructor].
Qed.

Lemma quota_stays_kept_witness :
  exists w,
    reachable Posix Sample.os_opening Sample.cmsg_space Sample.cmsg_len
      128 2 int_sized w /\
    recv_num (bs w) = 1 /\
    quota_kept (bs w).
Proof.
  assert (R : exists w,
    reachable Posix Sample.os_opening Sample.cmsg_space Sample.cmsg_len
      128 2 int_sized w /\
    recv_num (bs w) = 1).
  { eexists. split.
    - eapply reach_dispatch
        with (handler_body := fun _ _ _ =>
                BSocket_Recv Posix Sample.os_opening 1;;; ret tt)
             (events := BREACTOR_READ).
      + eapply reach_step with (c := Call_enable_event BSOCKET_READ).
        * eapply reach_step
            with (c := Call_add_event_handler BSOCKET_READ (Some 7) 0).
          -- eapply reach_step with (c := Call_op (Op_recv 1)).
             ++ eapply reach_step with (c := Call_op (Op_recv 1)).
                ** eapply reach_init
                     with (w0 := Sample.world
                                   (Sample.fresh BSOCKET_TYPE_STREAM false))
                          (reactor := 1) (domain := BADDR_TYPE_IPV4)
                          (ty := BSOCKET_TYPE_STREAM).
                   cbv. reflexivity.
                ** reflexivity.
                ** cbv. reflexivity.
             ++ reflexivity.
             ++ cbv. reflexivity.
          -- reflexivity.
          -- cbv. reflexivity.
        * reflexivity.
        * cbv. reflexivity.
      + apply receiving_uses_interface.
      + cbv. reflexivity.
    - reflexivity. }
  destruct R as (w & Hr & Hw). exists w.
  split; [exact Hr|]. split; [exact Hw|].
  apply (@quota_stays_kept Posix Sample.os_opening
           Sample.cmsg_space Sample.cmsg_len 128 2); [|exact Hr].
  unfold INT_MAX. lia.
Defined.

(** ** Failures of the operations *)

Lemma transfer_error_kinds plat ty e :
  transfer_error plat ty e = BSOCKET_ERROR_LATER \/
  transfer_error plat ty e = BSOCKET_ERROR_CONNECTION_REFUSED \/
  transfer_error plat ty e = BSOCKET_ERROR_CONNECTION_RESET \/
  transfer_error plat ty e = BSOCKET_ERROR_UNKNOWN.
Proof. destruct plat, ty, e; cbn; auto. Qed.

Ltac transfer_leaf Herr :=
  cbn [bs os_log error set_error set_recv_num recv_max recv_num type
         fst snd] in *;
  first
    [ solve [exfalso; apply Herr; reflexivity]
    | split; [reflexivity|]; split;
      [ first
          [ solve [right; do 2 eexists; split; [reflexivity|];
                   split; reflexivity]
          | left; split; [reflexivity|]; split; [lia|];
            split; reflexivity ]
      | first [ now (right; right; right)
              | now left
              | apply transfer_error_kinds ] ] ].

(** X13. When send, recv, send_to, recv_from, send_to_from or recv_from_to
    leaves an error, the status is -1 and the cause is one of two.  Either
    the receive quota was used up: the error is LATER and no transfer
    primitive was called.  Or the last call made was a transfer primitive,
    and the error is what the [switch] makes of the code that call left.
    The only kinds a transfer reports are LATER, CONNECTION_REFUSED,
    CONNECTION_RESET and UNKNOWN. *)
Theorem transfer_failure_diagnosis (plat : platform)
  (os : list syscall -> syscall -> os_reply) (CMSG_SPACE CMSG_LEN : Z -> Z)
  (BSOCKET_DEFAULT_BACKLOG BSOCKET_DEFAULT_RECV_MAX : Z)
  (op : sock_op) (w : World) (s : Z) (w' : World) :
  is_transfer_op op = true ->
  run_op plat os CMSG_SPACE CMSG_LEN BSOCKET_DEFAULT_BACKLOG
    BSOCKET_DEFAULT_RECV_MAX op w = Ok (s, w') ->
  error (bs w') <> BSOCKET_ERROR_NONE ->
  s = -1 /\
  ((is_recv_op op = true /\
    0 < recv_max (bs w) <= recv_num (bs w) /\
    error (bs w') = BSOCKET_ERROR_LATER /\
    filter is_transfer_primitive (os_log w') =
    filter is_transfer_primitive (os_log w)) \/
   (exists c l,
      os_log w' = c :: l /\ is_transfer_primitive c = true /\
      error (bs w') = transfer_error plat (type (bs w)) (r_errno (os l c))))
  /\
  (error (bs w') = BSOCKET_ERROR_LATER \/
   error (bs w') = BSOCKET_ERROR_CONNECTION_REFUSED \/
   error (bs w') = BSOCKET_ERROR_CONNECTION_RESET \/
   error (bs w') = BSOCKET_ERROR_UNKNOWN).
Proof.
  intros Hop H Herr.
  destruct op; try discriminate Hop; cbn [run_op is_recv_op] in *;
    unfold BSocket_SendToFrom, BSocket_RecvFromTo, recvfromto_fallback,
      BSocket_Send, BSocket_Recv, BSocket_SendTo, BSocket_RecvFrom,
      obtain_extension, limit_recv in H.
  - mrun; transfer_leaf Herr.
  - mrun; transfer_leaf Herr.
  - mrun; transfer_leaf Herr.
  - mrun; transfer_leaf Herr.
  - mrun; transfer_leaf Herr.
  - mrun; transfer_leaf Herr.
Qed.

Lemma transfer_failure_diagnosis_witness :
  exists s w',
    run_op Posix Sample.os_would_block Sample.cmsg_space Sample.cmsg_len
      128 2 (Op_recv 1)
      (Sample.world (Sample.fresh BSOCKET_TYPE_STREAM false)) = Ok (s, w') /\
    s = -1.
Proof.
  eexists. eexists. split; [cbv; reflexivity|].
  apply (@transfer_failure_diagnosis Posix Sample.os_would_block
           Sample.cmsg_space Sample.cmsg_len 128 2 (Op_recv 1)
           (Sample.world (Sample.fresh BSOCKET_TYPE_STREAM false))
           _ _ eq_refl eq_refl).
  discriminate.
Defined.

(** X14. [BSocket_Bind] asks for SO_REUSEADDR before binding on a stream
    socket and never on a datagram socket, and what that request answers
    plays no part: the outcome is decided by bind() alone, 0 with NONE or
    -1 with the kind the [switch] gives, where ACCESS_DENIED can only come
    out on POSIX.  [BSocket_Listen] hands listen() the default backlog in
    place of a negative one, so with a default that is not negative it
    never passes a negative backlog. *)
Theorem bind_and_listen_calls (plat : platform)
  (os : list syscall -> syscall -> os_reply) (BSOCKET_DEFAULT_BACKLOG : Z) :
  (forall a w s w',
     BSocket_Bind plat os a w = Ok (s, w') ->
     exists sa,
       addr_socket_to_sys plat a = Some sa /\
       let reuse := SYS_setsockopt (socket (bs w)) (SOL_SOCKET plat)
                      (SO_REUSEADDR plat) in
       let before := match type (bs w) with
                     | BSOCKET_TYPE_STREAM => reuse :: os_log w
                     | BSOCKET_TYPE_DGRAM => os_log w
                     end in
       let call := SYS_bind (socket (bs w)) sa in
       os_log w' = call :: before /\
       ((0 <= r_ret (os before call) /\ s = 0 /\
         error (bs w') = BSOCKET_ERROR_NONE) \/
        (r_ret (os before call) < 0 /\ s = -1 /\
         error (bs w') = bind_error plat (r_errno (os before call)))) /\
       (error (bs w') = BSOCKET_ERROR_ACCESS_DENIED -> plat = Posix)) /\
  (forall backlog w s w',
     BSocket_Listen os BSOCKET_DEFAULT_BACKLOG backlog w = Ok (s, w') ->
     exists passed,
       os_log w' = SYS_listen (socket (bs w)) passed :: os_log w /\
       (0 <= backlog -> passed = backlog) /\
       (backlog < 0 -> passed = BSOCKET_DEFAULT_BACKLOG) /\
       (0 <= BSOCKET_DEFAULT_BACKLOG -> 0 <= passed)).
Proof.
  split.
  - intros a w s w' H. unfold BSocket_Bind in H.
    apply bind_ok in H. destruct H as (sa & w1 & Hsa & H).
    apply assert_some_ok in Hsa. destruct Hsa as [Hsa ->].
    exists sa. split; [exact Hsa|].
    apply bind_ok in H. destruct H as (b & w1 & Hb & H).
    apply get_bs_ok in Hb. destruct Hb as [-> ->].
    cbn zeta.
    destruct (type (bs w)) eqn:Ety; mrun;
      cbn [bs os_log error set_error] in *;
      (split; [reflexivity|]);
      (split;
       [ first [ left; split; [lia|]; split; reflexivity
               | right; split; [lia|]; split; reflexivity ]
       | first [ discriminate
               | destruct plat; [reflexivity|];
                 match goal with
                 | |- bind_error _ ?e = _ -> _ =>
                     destruct e; discriminate
                 end ] ]).
  - intros backlog w s w' H. unfold BSocket_Listen in H.
    cbn zeta in H. eexists.
    split; [mrun; reflexivity|].
    destruct (Z.ltb_spec backlog 0); repeat split; lia.
Qed.

Lemma bind_and_listen_calls_witness :
  exists s w',
    BSocket_Listen Scenario.os_zero 128 (-1)
      (Sample.world (Sample.fresh BSOCKET_TYPE_STREAM false)) = Ok (s, w') /\
    os_log w' = [SYS_listen 3 128].
Proof.
  eexists. eexists. split; [cbv; reflexivity|].
  destruct (proj2 (@bind_and_listen_calls Posix Scenario.os_zero 128)
              (-1) (Sample.world (Sample.fresh BSOCKET_TYPE_STREAM false))
              _ _ eq_refl) as (passed & Hlog & _ & Hneg & _).
  etransitivity; [exact Hlog|]. rewrite Hneg by lia. reflexivity.
Defined.

(** ** Addresses from the operating system *)

(** X15. An OS address is translated only if its family is AF_INET or
    AF_INET6 and its length is the size of that family's structure.  The
    portable address obtained is then a valid one, and translating it back
    gives the OS address without its flow information and scope
    identifier: these two are lost, so two OS addresses that differ only
    there become the same portable address. *)
Theorem sys_addr_round_trip (plat : platform) (sa : sys_addr) (a : BAddr) :
  addr_sys_to_socket plat sa = Some a ->
  sys_addr_sized sa ->
  ((sa_family (addr sa) = AF_INET /\ len sa = sizeof_sockaddr_in) \/
   (sa_family (addr sa) = AF_INET6 plat /\ len sa = sizeof_sockaddr_in6)) /\
  BAddr_valid a /\
  addr_socket_to_sys plat a = Some (forget_routing sa) /\
  addr_sys_to_socket plat (forget_routing sa) = Some a.
Proof.
  unfold addr_sys_to_socket, forget_routing, sys_addr_sized.
  destruct sa as [n [s4 | s6]]; cbn [addr len sa_family].
  - destruct (Z.eqb_spec (sin_family s4) AF_INET) as [Ef | Ef].
    + destruct (Z.eqb_spec n sizeof_sockaddr_in) as [-> | En];
        [|discriminate].
      intros E _. inversion E; subst a.
      destruct s4 as [fam port ip]. cbn in Ef. subst fam. cbn.
      repeat split. left. split; reflexivity.
    + destruct (sin_family s4 =? AF_INET6 plat); discriminate.
  - destruct (Z.eqb_spec (sin6_family s6) AF_INET) as [Ef | Ef];
      [discriminate|].
    destruct (Z.eqb_spec (sin6_family s6) (AF_INET6 plat)) as [Ef6 | Ef6];
      [|discriminate].
    destruct (Z.eqb_spec n sizeof_sockaddr_in6) as [-> | En]; [|discriminate].
    intros E Hlen. inversion E; subst a. cbn [BAddr_valid addr_socket_to_sys].
    rewrite !memcpy16_full by (rewrite ?memcpy16_full; exact Hlen).
    split; [right; split; [exact Ef6 | reflexivity]|].
    split; [exact Hlen|]. rewrite <- Ef6.
    split; [reflexivity|].
    cbn [addr len sa_family sin6_family sin6_port sin6_addr].
    destruct (Z.eqb_spec (sin6_family s6) AF_INET) as [C | _];
      [contradiction|].
    rewrite Z.eqb_refl. reflexivity.
Qed.

Lemma sys_addr_round_trip_witness :
  addr_socket_to_sys Posix Sample.loopback =
  Some (forget_routing Sample.loopback_sys).
Proof.
  apply (@sys_addr_round_trip Posix Sample.loopback_sys Sample.loopback
           eq_refl I).
Defined.

(** ** Completion of a connection attempt *)

Lemma fd_handler_completion os hb events w tr w' :
  file_descriptor_handler os hb events w = Ok (tr, w') ->
  fd_ready (waitEvents (bs w)) events BSOCKET_CONNECT = true ->
  let q := SYS_getsockopt_SO_ERROR (socket (bs w)) in
  connecting_status (bs w) = 1 /\
  call_handlers hb
    (gather (fd_ready (waitEvents (bs w)) events BSOCKET_READ)
       (fd_ready (waitEvents (bs w)) events BSOCKET_WRITE)
       (fd_ready (waitEvents (bs w)) events BSOCKET_ACCEPT)
       (fd_ready (waitEvents (bs w)) events BSOCKET_CONNECT))
    {| bs := set_connecting_result
               (connect_outcome (r_soerror (os (os_log w) q)))
               (set_connecting_status 2 (bs w));
       os_log := q :: os_log w |} = Ok (tr, w').
Proof.
  intros H Hc q. unfold file_descriptor_handler in H.
  apply bind_ok in H. destruct H as (b & w0 & Hb & H).
  apply get_bs_ok in Hb. destruct Hb as [-> ->].
  cbn beta iota zeta in H.
  change (has_flag events BREACTOR_READ)
    with (has_flag events (readiness_of BSOCKET_READ)) in H.
  change (has_flag events BREACTOR_WRITE)
    with (has_flag events (readiness_of BSOCKET_WRITE)) in H.
  unfold gather. unfold fd_ready in *.
  change (readiness_of BSOCKET_ACCEPT) with (readiness_of BSOCKET_READ).
  change (readiness_of BSOCKET_CONNECT)
    with (readiness_of BSOCKET_WRITE) in *.
  rewrite Hc in *.
  apply bind_ok in H. destruct H as (? & w1 & Ha & H).
  apply ASSERT_ok in Ha. destruct Ha as [Hs ->].
  apply bind_ok in H. destruct H as (? & w1 & Hm & H).
  apply modify_bs_ok in Hm. subst w1.
  apply bind_ok in H. destruct H as (r & w1 & Hr & H).
  apply os_call_ok in Hr. destruct Hr as [-> ->].
  apply bind_ok in H. destruct H as (? & w1 & Ha & H).
  apply ASSERT_ok in Ha. destruct Ha as [_ ->].
  apply bind_ok in H. destruct H as (? & w1 & Hm & H).
  apply modify_bs_ok in Hm. subst w1.
  split; [now apply Z.eqb_eq | exact H].
Qed.

Lemma handle_handler_completion os hb w tr w' :
  handle_handler os hb w = Ok (tr, w') ->
  let q := SYS_WSAEnumNetworkEvents (socket (bs w)) (event (bs w)) in
  let net := r_events (os (os_log w) q) in
  wsa_ready (waitEvents (bs w)) net BSOCKET_CONNECT = true ->
  connecting_status (bs w) = 1 /\
  call_handlers hb
    (gather (wsa_ready (waitEvents (bs w)) net BSOCKET_READ)
       (wsa_ready (waitEvents (bs w)) net BSOCKET_WRITE)
       (wsa_ready (waitEvents (bs w)) net BSOCKET_ACCEPT)
       (wsa_ready (waitEvents (bs w)) net BSOCKET_CONNECT))
    {| bs := set_connecting_result
               (connect_outcome (r_soerror (os (os_log w) q)))
               (set_connecting_status 2 (bs w));
       os_log := q :: os_log w |} = Ok (tr, w').
Proof.
  intros H q net Hc. unfold handle_handler in H.
  apply bind_ok in H. destruct H as (b & w0 & Hb & H).
  apply get_bs_ok in Hb. destruct Hb as [-> ->].
  apply bind_ok in H. destruct H as (r & w1 & Hr & H).
  apply os_call_ok in Hr. destruct Hr as [-> ->].
  apply bind_ok in H. destruct H as (? & w1 & Ha & H).
  apply ASSERT_ok in Ha. destruct Ha as [_ ->].
  cbn beta iota zeta in H. cbn [bs os_log] in H.
  fold q in H. fold net in H.
  unfold gather. unfold wsa_ready in *.
  change (wsa_signalled net BSOCKET_READ)
    with (has_flag net FD_READ || has_flag net FD_CLOSE).
  change (wsa_signalled net BSOCKET_WRITE)
    with (has_flag net FD_WRITE || has_flag net FD_CLOSE).
  change (wsa_signalled net BSOCKET_ACCEPT) with (has_flag net FD_ACCEPT).
  change (wsa_signalled net BSOCKET_CONNECT)
    with (has_flag net FD_CONNECT) in *.
  rewrite Hc in *.
  apply bind_ok in H. destruct H as (? & w1 & Ha & H).
  apply ASSERT_ok in Ha. destruct Ha as [Hs ->].
  apply bind_ok in H. destruct H as (? & w1 & Hm & H).
  apply modify_bs_ok in Hm. subst w1.
  apply bind_ok in H. destruct H as (? & w1 & Hm & H).
  apply modify_bs_ok in Hm. subst w1.
  split; [now apply Z.eqb_eq | exact H].
Qed.

(** A dispatch on a live socket in which only CONNECT is ready calls the
    handler of CONNECT and nothing else. *)
Lemma only_connect_dispatch hb (ready : Z -> bool) w1 tr w' :
  call_handlers hb
    (gather (ready BSOCKET_READ) (ready BSOCKET_WRITE)
       (ready BSOCKET_ACCEPT) (ready BSOCKET_CONNECT)) w1 = Ok (tr, w') ->
  ready BSOCKET_READ = false -> ready BSOCKET_WRITE = false ->
  ready BSOCKET_ACCEPT = false -> ready BSOCKET_CONNECT = true ->
  global_handler (bs w1) = None ->
  dead (bs w1) = false ->
  exists inv,
    tr = [inv] /\ inv_events inv = BSOCKET_CONNECT /\
    array4_get (handlers (bs w1)) HANDLER_CONNECT = Some (inv_handler inv) /\
    hb (inv_handler inv) (inv_user inv) BSOCKET_CONNECT (reset_recv_num w1) =
    Ok (tt, w').
Proof.
  intros H Hr Hw Ha Hc Hg Halive. apply call_handlers_run in H.
  rewrite Hg in H. destruct H as (Hch & rest & Hord & Hdead).
  rewrite dispatch_order_gather in Hord. unfold event_flags in Hord.
  cbn [filter] in Hord. rewrite Hr, Hw, Ha, Hc in Hord.
  destruct tr as [|inv tr].
  - inversion Hch; subst. cbn [map app] in Hord. subst rest.
    assert (E : dead (bs (reset_recv_num w1)) = true)
      by (apply Hdead; discriminate).
    cbn in E. congruence.
  - cbn [map app] in Hord. inversion Hord as [[He Ht]].
    symmetry in Ht. apply app_eq_nil in Ht. destruct Ht as [Ht _].
    destruct tr; [|discriminate Ht].
    inversion Hch as [|? ? ? ? Hsrc Hrun _ Hrest]; subst.
    inversion Hrest; subst.
    exists inv. split; [reflexivity|]. split; [auto|].
    destruct Hsrc as (i & Hi & Hh & _). rewrite <- He in Hi.
    inversion Hi; subst i. cbn [reset_recv_num bs handlers set_recv_num] in Hh.
    split; [exact Hh|]. rewrite <- He in Hrun. exact Hrun.
Qed.

Lemma exclusive_connect wait :
  families_exclusive wait = true ->
  has_flag wait BSOCKET_CONNECT = true ->
  has_flag wait BSOCKET_READ = false /\
  has_flag wait BSOCKET_WRITE = false /\
  has_flag wait BSOCKET_ACCEPT = false.
Proof.
  unfold families_exclusive.
  destruct (has_flag wait BSOCKET_READ), (has_flag wait BSOCKET_WRITE),
    (has_flag wait BSOCKET_ACCEPT), (has_flag wait BSOCKET_CONNECT);
    cbn; intros; try discriminate; auto.
Qed.

Lemma get_result_completed w q outcome :
  BSocket_GetConnectResult (completed_start w q outcome) =
  Ok (outcome,
      {| bs := set_connecting_status 0 (bs (completed_start w q outcome));
         os_log := q :: os_log w |}).
Proof. reflexivity. Qed.

(** X16. On the POSIX backend, when the descriptor of a live socket with
    per-event handlers becomes writable while CONNECT is the enabled
    family, an attempt was in progress (status 1), SO_ERROR is read once,
    and the handler of CONNECT is the one handler called.  It starts in a
    state where the attempt is completed with the outcome the [switch]
    makes of SO_ERROR, so that [BSocket_GetConnectResult] called there
    returns that outcome and puts the status back to 0. *)
Theorem fd_handler_completes_connect
  (os : list syscall -> syscall -> os_reply)
  (hb : BSocket_handler -> Z -> Z -> M unit) (events : Z) (w : World)
  (tr : list invocation) (w' : World) :
  file_descriptor_handler os hb events w = Ok (tr, w') ->
  fd_ready (waitEvents (bs w)) events BSOCKET_CONNECT = true ->
  families_exclusive (waitEvents (bs w)) = true ->
  global_handler (bs w) = None ->
  dead (bs w) = false ->
  let q := SYS_getsockopt_SO_ERROR (socket (bs w)) in
  let outcome := connect_outcome (r_soerror (os (os_log w) q)) in
  connecting_status (bs w) = 1 /\
  (exists inv,
     tr = [inv] /\ inv_events inv = BSOCKET_CONNECT /\
     array4_get (handlers (bs w)) HANDLER_CONNECT = Some (inv_handler inv) /\
     hb (inv_handler inv) (inv_user inv) BSOCKET_CONNECT
       (completed_start w q outcome) = Ok (tt, w')) /\
  BSocket_GetConnectResult (completed_start w q outcome) =
  Ok (outcome,
      {| bs := set_connecting_status 0 (bs (completed_start w q outcome));
         os_log := q :: os_log w |}).
Proof.
  intros H Hc Hx Hg Halive q outcome.
  pose proof (fd_handler_completion _ _ _ _ H Hc) as [Hs Hrun].
  split; [exact Hs|]. split; [|apply get_result_completed].
  assert (Hon : has_flag (waitEvents (bs w)) BSOCKET_CONNECT = true).
  { unfold fd_ready in Hc. apply andb_true_iff in Hc. tauto. }
  destruct (exclusive_connect _ Hx Hon) as (Er & Ew & Ea).
  apply (@only_connect_dispatch hb (fd_ready (waitEvents (bs w)) events))
    in Hrun; try assumption;
    try (unfold fd_ready; rewrite ?Er, ?Ew, ?Ea; reflexivity).
Qed.

Lemma fd_handler_completes_connect_witness :
  exists tr w',
    file_descriptor_handler
      (Sample.os_always
         {| r_ret := 0; r_errno := E_ok; r_bytes := 0;
            r_soerror := ECONNREFUSED; r_events := 0;
            r_addr := Sample.loopback_sys; r_control := no_control |})
      Sample.quiet BREACTOR_WRITE
      (Sample.world
         (set_connecting_status 1
            (set_waitEvents BSOCKET_CONNECT
               (set_handlers
                  {| slot0 := None; slot1 := None; slot2 := None;
                     slot3 := Some 9 |}
                  (Sample.fresh BSOCKET_TYPE_STREAM false))))) =
    Ok (tr, w') /\
    connecting_result (bs w') = BSOCKET_ERROR_CONNECTION_REFUSED.
Proof.
  assert (R : exists tr w',
    file_descriptor_handler
      (Sample.os_always
         {| r_ret := 0; r_errno := E_ok; r_bytes := 0;
            r_soerror := ECONNREFUSED; r_events := 0;
            r_addr := Sample.loopback_sys; r_control := no_control |})
      Sample.quiet BREACTOR_WRITE
      (Sample.world
         (set_connecting_status 1
            (set_waitEvents BSOCKET_CONNECT
               (set_handlers
                  {| slot0 := None; slot1 := None; slot2 := None;
                     slot3 := Some 9 |}
                  (Sample.fresh BSOCKET_TYPE_STREAM false))))) =
    Ok (tr, w')).
  { eexists. eexists. vm_compute. reflexivity. }
  destruct R as (tr & w' & H). exists tr, w'. split; [exact H|].
  destruct (@fd_handler_completes_connect _ _ _ _ _ _ H
              eq_refl eq_refl eq_refl eq_refl)
    as (_ & (inv & _ & _ & _ & Hrun) & _).
  inversion Hrun. reflexivity.
Defined.

(** X17. On the Windows backend, when the network events enumerated for a
    live socket with per-event handlers contain FD_CONNECT while CONNECT is
    the enabled family, an attempt was in progress (status 1) and the
    handler of CONNECT is the one handler called.  It starts in a state
    where the attempt is completed with the outcome the [switch] makes of
    the error code reported for FD_CONNECT, so that
    [BSocket_GetConnectResult] called there returns that outcome and puts
    the status back to 0. *)
Theorem handle_handler_completes_connect
  (os : list syscall -> syscall -> os_reply)
  (hb : BSocket_handler -> Z -> Z -> M unit) (w : World)
  (tr : list invocation) (w' : World) :
  handle_handler os hb w = Ok (tr, w') ->
  let q := SYS_WSAEnumNetworkEvents (socket (bs w)) (event (bs w)) in
  let outcome := connect_outcome (r_soerror (os (os_log w) q)) in
  wsa_ready (waitEvents (bs w)) (r_events (os (os_log w) q))
    BSOCKET_CONNECT = true ->
  families_exclusive (waitEvents (bs w)) = true ->
  global_handler (bs w) = None ->
  dead (bs w) = false ->
  connecting_status (bs w) = 1 /\
  (exists inv,
     tr = [inv] /\ inv_events inv = BSOCKET_CONNECT /\
     array4_get (handlers (bs w)) HANDLER_CONNECT = Some (inv_handler inv) /\
     hb (inv_handler inv) (inv_user inv) BSOCKET_CONNECT
       (completed_start w q outcome) = Ok (tt, w')) /\
  BSocket_GetConnectResult (completed_start w q outcome) =
  Ok (outcome,
      {| bs := set_connecting_status 0 (bs (completed_start w q outcome));
         os_log := q :: os_log w |}).
Proof.
  intros H q outcome Hc Hx Hg Halive.
  pose proof (handle_handler_completion _ _ _ H Hc) as [Hs Hrun].
  split; [exact Hs|]. split; [|apply get_result_completed].
  assert (Hon : has_flag (waitEvents (bs w)) BSOCKET_CONNECT = true).
  { unfold wsa_ready in Hc. apply andb_true_iff in Hc. tauto. }
  destruct (exclusive_connect _ Hx Hon) as (Er & Ew & Ea).
  apply (@only_connect_dispatch hb
           (wsa_ready (waitEvents (bs w)) (r_events (os (os_log w) q))))
    in Hrun; try assumption;
    try (unfold wsa_ready; rewrite ?Er, ?Ew, ?Ea; reflexivity).
Qed.

Lemma handle_handler_completes_connect_witness :
  exists tr w',
    handle_handler
      (Sample.os_always
         {| r_ret := 0; r_errno := E_ok; r_bytes := 0;
            r_soerror := ETIMEDOUT; r_events := FD_CONNECT;
            r_addr := Sample.loopback_sys; r_control := no_control |})
      Sample.quiet
      (Sample.world
         (set_connecting_status 1
            (set_waitEvents BSOCKET_CONNECT
               (set_handlers
                  {| slot0 := None; slot1 := None; slot2 := None;
                     slot3 := Some 9 |}
                  (Sample.fresh BSOCKET_TYPE_STREAM false))))) =
    Ok (tr, w') /\
    connecting_result (bs w') = BSOCKET_ERROR_CONNECTION_TIMED_OUT.
Proof.
  assert (R : exists tr w',
    handle_handler
      (Sample.os_always
         {| r_ret := 0; r_errno := E_ok; r_bytes := 0;
            r_soerror := ETIMEDOUT; r_events := FD_CONNECT;
            r_addr := Sample.loopback_sys; r_control := no_control |})
      Sample.quiet
      (Sample.world
         (set_connecting_status 1
            (set_waitEvents BSOCKET_CONNECT
               (set_handlers
                  {| slot0 := None; slot1 := None; slot2 := None;
                     slot3 := Some 9 |}
                  (Sample.fresh BSOCKET_TYPE_STREAM false))))) =
    Ok (tr, w')).
  { eexists. eexists. vm_compute. reflexivity. }
  destruct R as (tr & w' & H). exists tr, w'. split; [exact H|].
  destruct (@handle_handler_completes_connect _ _ _ _ _ H
              eq_refl eq_refl eq_refl eq_refl)
    as (_ & (inv & _ & _ & _ & Hrun) & _).
  inversion Hrun. reflexivity.
Defined.

(** * The file module *)

Section FileOpenFacts.

Import FileOpen.

Lemma byte_eqb_eq (a b : byte) : Byte.eqb a b = true -> a = b.
Proof. apply Byte.byte_dec_bl. Qed.

(** X18. Called on a string with its length and a buffer of at least 3
    bytes (the caller's has 5), [parse_mode] returns 1 exactly for the six
    strings r, w, a, r+, w+, a+ and 0 otherwise; on success the buffer
    starts with the string followed by a NUL, so that as a C string it is
    the string given; in either case the buffer keeps its size and nothing
    beyond its first 3 bytes is touched. *)
Theorem parse_mode_accepts (data out : list byte) :
  (3 <= length out)%nat ->
  let r := parse_mode data (N.of_nat (length data)) out in
  (fst r = 1 <-> In data accepted_modes) /\
  (fst r = 1 \/ fst r = 0) /\
  (fst r = 1 ->
   firstn (S (length data)) (snd r) = data ++ [NUL] /\
   c_string (snd r) = data) /\
  length (snd r) = length out /\
  skipn 3 (snd r) = skipn 3 out.
Proof.
  intro Hout.
  destruct out as [|o0 [|o1 [|o2 out]]]; cbn [length] in Hout; try lia.
  clear Hout.
  destruct data as [|c [|d [|e rest]]].
  - cbn. repeat split; auto; try discriminate.
    intros [H | [H | [H | [H | [H | [H | []]]]]]]; discriminate H.
  - unfold parse_mode. cbn [length N.of_nat nth].
    change (N.pos (Pos.of_succ_nat 0) =? 0)%N with false.
    cbn [N.sub Pos.of_succ_nat Pos.pred_N N.eqb].
    destruct (Byte.eqb c char_r) eqn:Er;
      [apply byte_eqb_eq in Er; subst c|];
      [cbn; repeat split; auto|].
    destruct (Byte.eqb c char_w) eqn:Ew;
      [apply byte_eqb_eq in Ew; subst c|];
      [cbn; repeat split; auto|].
    destruct (Byte.eqb c char_a) eqn:Ea;
      [apply byte_eqb_eq in Ea; subst c|];
      [cbn; repeat split; auto 6|].
    cbn. repeat split; auto; try discriminate.
    intros [H | [H | [H | [H | [H | [H | []]]]]]];
      inversion H; subst c; discriminate.
  - unfold parse_mode. cbn [length N.of_nat nth].
    change (N.pos (Pos.of_succ_nat 1) =? 0)%N with false.
    change (N.pos (Pos.of_succ_nat 1) - 1 =? 0)%N with false.
    change (N.pos (Pos.of_succ_nat 1) - 1 - 1 =? 0)%N with true.
    destruct (Byte.eqb d char_plus) eqn:Ep.
    + apply byte_eqb_eq in Ep. subst d.
      destruct (Byte.eqb c char_r) eqn:Er;
        [apply byte_eqb_eq in Er; subst c|];
        [cbn; repeat split; auto 8|].
      destruct (Byte.eqb c char_w) eqn:Ew;
        [apply byte_eqb_eq in Ew; subst c|];
        [cbn; repeat split; auto 8|].
      destruct (Byte.eqb c char_a) eqn:Ea;
        [apply byte_eqb_eq in Ea; subst c|];
        [cbn; repeat split; auto 8|].
      cbn. repeat split; auto; try discriminate.
      intros [H | [H | [H | [H | [H | [H | []]]]]]];
        inversion H; subst c; discriminate.
    + assert (Hno : ~ In [c; d] accepted_modes).
      { intros [H | [H | [H | [H | [H | [H | []]]]]]];
          inversion H; subst d; discriminate. }
      destruct (Byte.eqb c char_r || Byte.eqb c char_w || Byte.eqb c char_a);
        cbn; repeat split; auto; try discriminate;
        intro H; exfalso; apply Hno; exact H.
  - assert (Hno : ~ In (c :: d :: e :: rest) accepted_modes).
    { intros [H | [H | [H | [H | [H | [H | []]]]]]]; discriminate H. }
    unfold parse_mode. cbn [length nth].
    assert (E0 : (N.of_nat (S (S (S (length rest)))) =? 0)%N = false)
      by (apply N.eqb_neq; lia).
    assert (E1 : (N.of_nat (S (S (S (length rest)))) - 1 =? 0)%N = false)
      by (apply N.eqb_neq; lia).
    assert (E2 : (N.of_nat (S (S (S (length rest)))) - 1 - 1 =? 0)%N = false)
      by (apply N.eqb_neq; lia).
    rewrite E0, E1, E2.
    destruct (Byte.eqb c char_r || Byte.eqb c char_w || Byte.eqb c char_a);
      [destruct (Byte.eqb d char_plus)|];
      cbn; repeat split; auto; try discriminate;
      intro H; exfalso; apply Hno; exact H.
Qed.

Lemma parse_mode_accepts_witness :
  fst (parse_mode [char_r; char_plus] 2 [NUL; NUL; NUL; NUL; NUL]) = 1.
Proof.
  apply (@parse_mode_accepts [char_r; char_plus] [NUL; NUL; NUL; NUL; NUL]).
  - cbn. lia.
  - cbn. auto.
Defined.

(** X19. The position computed for fseeko is the number the sign and the
    magnitude stand for, whenever that number fits an [off_t] of the size
    at hand; otherwise the statement fails.  The value negated on the way
    fits an [off_t] too, so nothing overflows. *)
Theorem seek_position_exact (sizeof_off_t : Z) (position_sign : Z)
  (position_mag : N) :
  let v := signmag_value position_sign position_mag in
  seek_position sizeof_off_t position_sign position_mag =
  (if (off_t_min sizeof_off_t <=? v) && (v <=? off_t_max sizeof_off_t)
   then Some v else None) /\
  (forall p,
     seek_position sizeof_off_t position_sign position_mag = Some p ->
     p < 0 -> 0 <= Z.of_N position_mag - 1 <= off_t_max sizeof_off_t).
Proof.
  unfold seek_position, signmag_value, off_t_min, off_t_max, INT64_MIN,
    INT64_MAX, INT32_MIN, INT32_MAX.
  cbn zeta.
  destruct (sizeof_off_t =? 8);
    destruct (Z.ltb_spec position_sign 0);
    destruct (Z.gtb_spec (Z.of_N position_mag) 0); cbn [andb];
    repeat match goal with
           | |- context [?a >? ?b] => destruct (Z.gtb_spec a b)
           | |- context [?a <=? ?b] => destruct (Z.leb_spec a b)
           end; cbn [andb];
    (split; [first [reflexivity | f_equal; lia | exfalso; lia]
            | intros p Hp Hneg; inversion Hp; lia ]).
Qed.

Lemma seek_position_exact_witness :
  seek_position 8 (-1) 5 = Some (-5) /\
  seek_position 4 1 2147483648 = None.
Proof.
  split.
  - exact (proj1 (seek_position_exact 8 (-1) 5)).
  - exact (proj1 (seek_position_exact 4 1 2147483648)).
Defined.

Lemma read_loop_invariant env fuel :
  forall capacity data calls,
    START_READ_SIZE <= capacity <= MAX_READ_SIZE ->
    Z.of_nat (length data) < capacity ->
    data = delivered env calls ->
    Forall (fun n => 0 < n) calls ->
    MAX_READ_SIZE - Z.of_nat (length data) < Z.of_nat fuel ->
    exists r,
      read_loop env fuel capacity data calls = Some r /\
      loop_result_ok env r.
Proof.
  unfold START_READ_SIZE, MAX_READ_SIZE.
  induction fuel as [|fuel IH]; intros capacity data calls Hc Hl Hd Hp Hf.
  - lia.
  - cbn [read_loop].
    set (request := capacity - Z.of_nat (length data)).
    set (chunk := fread env (length calls) request).
    assert (Hp' : Forall (fun n => 0 < n) (request :: calls))
      by (constructor; [unfold request; lia | exact Hp]).
    assert (Hd' : data ++ chunk = delivered env (request :: calls))
      by (cbn [delivered]; now rewrite <- Hd).
    destruct (Z.eqb_spec (Z.of_nat (length chunk)) 0) as [E0 | E0].
    + eexists. split; [reflexivity|]. cbn [loop_result_ok].
      unfold MAX_READ_SIZE. split; [lia|]. split; [|exact Hp'].
      rewrite <- Hd'. destruct chunk; [now rewrite app_nil_r|].
      cbn [length] in E0. lia.
    + destruct (Z.leb_spec (Z.of_nat (length chunk)) request) as [Hle | Hgt];
        cbn [negb].
      * assert (Hlen : Z.of_nat (length (data ++ chunk)) =
                       Z.of_nat (length data) + Z.of_nat (length chunk))
          by (rewrite length_app; lia).
        destruct (Z.eqb_spec
                    (Z.of_nat (length data) + Z.of_nat (length chunk))
                    capacity) as [Efull | Efull].
        -- unfold MAX_READ_SIZE.
           change (8192 / 2) with 4096.
           destruct (Z.gtb_spec capacity 4096) as [Hbig | Hsmall].
           ++ eexists. split; [reflexivity|]. cbn [loop_result_ok].
              unfold MAX_READ_SIZE. repeat split; try lia; assumption.
           ++ destruct (BRealloc_ok env (capacity * 2)).
              ** apply IH; try assumption; lia.
              ** eexists. split; [reflexivity|]. exact Hp'.
        -- apply IH; try assumption; unfold request in *; lia.
      * eexists. split; [reflexivity|]. cbn [loop_result_ok].
        exists (length calls), request. exact Hgt.
Qed.

Lemma read_loop_returns (env : read_env) (fuel : nat) :
  MAX_READ_SIZE < Z.of_nat fuel ->
  exists r,
    read_loop env fuel START_READ_SIZE [] [] = Some r /\
    loop_result_ok env r.
Proof.
  intro Hfuel. apply read_loop_invariant.
  - unfold START_READ_SIZE, MAX_READ_SIZE. lia.
  - unfold START_READ_SIZE. cbn. lia.
  - reflexivity.
  - constructor.
  - unfold MAX_READ_SIZE in *. cbn [length]. lia.
Qed.

Lemma read_func_new_total (env : read_env) (fuel : nat) (fh : bool) :
  MAX_READ_SIZE < Z.of_nat fuel ->
  exists o, read_func_new env fuel fh = Some o.
Proof.
  intro Hfuel.
  destruct (@read_loop_returns env fuel Hfuel) as (r & Hr & _).
  unfold read_func_new. rewrite Hr.
  destruct fh, (BAlloc_ok env START_READ_SIZE), r; cbn [negb];
    try (eexists; reflexivity).
  destruct ((Z.of_nat (length data) =? 0) && negb (feof env));
    eexists; reflexivity.
Qed.

(** X20. The reading loop of [file_open::read] ends within 8193 turns
    whatever fread and the allocator answer.  It never asks fread for 0
    bytes, so a count of 0 always means that nothing more could be read.
    The data it ends with is what the calls of fread delivered, in order,
    and is never longer than the buffer, which never grows beyond
    MAX_READ_SIZE; the statement triggers the error of the open instance
    only when nothing was read and the end of the file was not reached. *)
Theorem read_loop_bounded (env : read_env) (fuel : nat) (fh : bool) :
  MAX_READ_SIZE < Z.of_nat fuel ->
  (exists r,
     read_loop env fuel START_READ_SIZE [] [] = Some r /\
     loop_result_ok env r) /\
  exists o,
    read_func_new env fuel fh = Some o /\
    match o with
    | Read_up data calls =>
        Z.of_nat (length data) <= MAX_READ_SIZE /\
        data = delivered env calls /\
        Forall (fun n => 0 < n) calls /\
        (data = [] -> feof env = true)
    | Read_trigger_error calls =>
        fh = true /\ feof env = false /\ delivered env calls = [] /\
        Forall (fun n => 0 < n) calls
    | Read_dead calls => Forall (fun n => 0 < n) calls
    | Read_abort => True
    end.
Proof.
  intro Hfuel. split; [now apply read_loop_returns|].
  destruct (@read_loop_returns env fuel Hfuel) as (r & Hr & Hok).
  unfold read_func_new.
  destruct fh; cbn [negb]; [|eexists; split; [reflexivity | constructor]].
  destruct (BAlloc_ok env START_READ_SIZE); cbn [negb];
    [|eexists; split; [reflexivity | constructor]].
  rewrite Hr. destruct r as [capacity data calls | calls |].
  - destruct Hok as (Hlen & Hd & Hp).
    destruct (Z.eqb_spec (Z.of_nat (length data)) 0) as [E | E];
      cbn [andb].
    + destruct (feof env) eqn:Ef; cbn [negb];
        (eexists; split; [reflexivity|]).
      * repeat split; auto; lia.
      * repeat split; auto. rewrite <- Hd.
        destruct data; [reflexivity | discriminate E].
    + eexists. split; [reflexivity|]. repeat split; auto; try lia.
      intros ->. now contradiction E.
  - eexists. split; [reflexivity | exact Hok].
  - eexists. split; [reflexivity | exact I].
Qed.

Lemma read_loop_bounded_witness :
  exists o,
    read_func_new
      {| fread := fun k n => if (k =? 0)%nat then [char_r; char_w] else [];
         feof := true;
         BAlloc_ok := fun _ => true;
         BRealloc_ok := fun _ => true |} (Z.to_nat 8193) true = Some o.
Proof.
  destruct (@read_loop_bounded
              {| fread := fun k n =>
                            if (k =? 0)%nat then [char_r; char_w] else [];
                 feof := true;
                 BAlloc_ok := fun _ => true;
                 BRealloc_ok := fun _ => true |} (Z.to_nat 8193) true)
    as (_ & o & Ho & _).
  - unfold MAX_READ_SIZE. lia.
  - exists o. exact Ho.
Defined.

Lemma write_loop_invariant fwrite fuel :
  forall data calls,
    (length data < fuel)%nat ->
    exists o,
      write_loop fwrite fuel data calls = Some o /\
      match o with
      | Write_up calls' =>
          written_bytes calls' = written_bytes calls ++ data
      | Write_trigger_error calls' =>
          exists rest earlier,
            calls' = (rest, 0%N) :: earlier /\ rest <> [] /\
            written_bytes calls' ++ rest = written_bytes calls ++ data
      | Write_abort =>
          exists k rest, (N.of_nat (length rest) < fwrite k rest)%N
      end.
Proof.
  induction fuel as [|fuel IH]; intros data calls Hf; [lia|].
  cbn [write_loop].
  destruct (N.ltb_spec 0 (N.of_nat (length data))) as [Hpos | Hzero].
  - destruct (N.eqb_spec (fwrite (length calls) data) 0) as [E0 | E0].
    + eexists. split; [reflexivity|].
      exists data, calls. split; [now rewrite E0|].
      split; [destruct data; [cbn in Hpos; lia | discriminate]|].
      rewrite E0. cbn [written_bytes N.to_nat firstn].
      now rewrite app_nil_r.
    + destruct (N.leb_spec (fwrite (length calls) data)
                  (N.of_nat (length data))) as [Hle | Hgt]; cbn [negb].
      * destruct (IH (skipn (N.to_nat (fwrite (length calls) data)) data)
                    ((data, fwrite (length calls) data) :: calls))
          as (o & Ho & Hspec).
        { rewrite length_skipn. lia. }
        exists o. split; [exact Ho|].
        destruct o as [calls' | calls' |].
        -- rewrite Hspec. cbn [written_bytes].
           now rewrite <- app_assoc, firstn_skipn.
        -- destruct Hspec as (rest & earlier & Hc & Hne & Hb).
           exists rest, earlier. split; [exact Hc|]. split; [exact Hne|].
           rewrite Hb. cbn [written_bytes].
           now rewrite <- app_assoc, firstn_skipn.
        -- exact Hspec.
      * eexists. split; [reflexivity|]. exists (length calls), data. exact Hgt.
  - eexists. split; [reflexivity|].
    destruct data; [now rewrite app_nil_r | cbn in Hzero; lia].
Qed.

(** X21. The writing loop of [file_open::write] ends within one turn per
    byte, plus one, whatever fwrite answers.  When the statement goes up,
    the bytes handed to the file by the successive calls are exactly the
    data, each byte once and in order, however short the writes were.  When
    a call writes nothing the error of the open instance is triggered, and
    what was written before that call together with what it was handed is
    the data. *)
Theorem write_loop_complete (fwrite : nat -> list byte -> N) (fuel : nat)
  (data : list byte) :
  (length data < fuel)%nat ->
  exists o,
    write_loop fwrite fuel data [] = Some o /\
    match o with
    | Write_up calls => written_bytes calls = data
    | Write_trigger_error calls =>
        exists rest earlier,
          calls = (rest, 0%N) :: earlier /\ rest <> [] /\
          written_bytes earlier ++ rest = data
    | Write_abort =>
        exists k rest, (N.of_nat (length rest) < fwrite k rest)%N
    end.
Proof.
  intro Hf.
  destruct (@write_loop_invariant fwrite fuel data [] Hf)
    as (o & Ho & Hspec).
  exists o. split; [exact Ho|].
  destruct o as [calls | calls |]; [exact Hspec | | exact Hspec].
  destruct Hspec as (rest & earlier & Hc & Hne & Hb).
  exists rest, earlier. split; [exact Hc|]. split; [exact Hne|].
  rewrite Hc in Hb. cbn [written_bytes N.to_nat firstn] in Hb.
  now rewrite app_nil_r in Hb.
Qed.

Lemma write_loop_complete_witness :
  exists o,
    write_loop (fun _ _ => 1%N) 4 [char_r; char_w; char_a] [] = Some o /\
    match o with
    | Write_up calls => written_bytes calls = [char_r; char_w; char_a]
    | _ => True
    end.
Proof.
  destruct (@write_loop_complete (fun _ _ => 1%N) 4
              [char_r; char_w; char_a]) as (o & Ho & Hspec).
  - cbn. lia.
  - exists o. split; [exact Ho|].
    destruct o; [exact Hspec | exact I | exact I].
Defined.


Lemma handle_after_app open l1 l2 :
  handle_after open (l1 ++ l2) = handle_after (handle_after open l1) l2.
Proof.
  revert open. induction l1 as [|e l1 IH]; intro open; [reflexivity|].
  destruct e; cbn [app handle_after]; apply IH.
Qed.

Lemma disciplined_app open l1 l2 :
  disciplined open (l1 ++ l2) =
  disciplined open l1 && disciplined (handle_after open l1) l2.
Proof.
  revert open. induction l1 as [|e l1 IH]; intro open; [reflexivity|].
  cbn [app disciplined]. rewrite IH, <- andb_assoc. f_equal. f_equal.
  destruct e; reflexivity.
Qed.

Lemma holds_same h : holds (Some h) h = true.
Proof. apply Z.eqb_refl. Qed.

Lemma reads_disciplined h l :
  disciplined (Some h) (map (Ev_fread h) l) = true /\
  handle_after (Some h) (map (Ev_fread h) l) = Some h.
Proof.
  induction l as [|n l [IH1 IH2]]; [split; reflexivity|].
  cbn [map disciplined handle_after]. rewrite holds_same, IH1, IH2.
  split; reflexivity.
Qed.

Lemma writes_disciplined h (l : list (list byte * N)) :
  disciplined (Some h) (map (fun c => Ev_fwrite h (fst c)) l) = true /\
  handle_after (Some h) (map (fun c => Ev_fwrite h (fst c)) l) = Some h.
Proof.
  induction l as [|n l [IH1 IH2]]; [split; reflexivity|].
  cbn [map disciplined handle_after]. rewrite holds_same, IH1, IH2.
  split; reflexivity.
Qed.

Lemma statement_kept sizeof_off_t st o :
  run_statement sizeof_off_t st o <> No_fuel /\
  forall o' log,
    run_statement sizeof_off_t st o = Done o' log -> kept o log o'.
Proof.
  unfold kept. destruct o as [[h|]]; destruct st as [env | data fwrite
    | parsed whence_arg fseeko | fclose]; cbn [run_statement].
  - (* read, open *)
    unfold read_statement. cbn [is_error fh negb].
    destruct (@read_func_new_total env (Z.to_nat (MAX_READ_SIZE + 1)) true)
      as (out & Hout); [unfold MAX_READ_SIZE; lia|].
    rewrite Hout. unfold read_events, feof_event, trigger_error, fail0.
    cbn [fh fst snd].
    destruct (reads_disciplined h (rev
      match out with
      | Read_up _ calls | Read_dead calls | Read_trigger_error calls => calls
      | Read_abort => []
      end)) as [D A].
    destruct out as [data calls | calls | calls |];
      (split; [discriminate|]); intros o' log E; inversion E; subst;
      rewrite !disciplined_app, !handle_after_app, D, A.
    + destruct (Z.of_nat (length data) =? 0); cbn; rewrite ?Z.eqb_refl;
        split; reflexivity.
    + split; reflexivity.
    + cbn. rewrite ?Z.eqb_refl. split; reflexivity.
  - (* write, open *)
    unfold write_func_new. cbn [fh].
    destruct (@write_loop_invariant fwrite (S (length data)) data [])
      as (out & Hout & _); [lia|].
    rewrite Hout. unfold write_events, trigger_error, fail0. cbn [fh fst snd].
    destruct (writes_disciplined h (rev
      match out with
      | Write_up calls | Write_trigger_error calls => calls
      | Write_abort => []
      end)) as [D A].
    destruct out as [calls | calls |];
      (split; [discriminate|]); intros o' log E; inversion E; subst;
      rewrite !disciplined_app, !handle_after_app, D, A.
    + split; reflexivity.
    + cbn. rewrite ?Z.eqb_refl. split; reflexivity.
  - (* seek, open *)
    split; [discriminate|]. intros o' log E. inversion E; subst. clear E.
    unfold seek_func_new, trigger_error, fail0. cbn [fh fst snd].
    destruct parsed as [[sign mag]|]; [|split; reflexivity].
    destruct (parse_whence whence_arg); [|split; reflexivity].
    destruct (seek_position sizeof_off_t sign mag); [|split; reflexivity].
    destruct (fseeko h z0 z <? 0); cbn; rewrite ?Z.eqb_refl;
      split; reflexivity.
  - (* close, open *)
    split; [discriminate|]. intros o' log E. inversion E; subst. clear E.
    unfold close_func_new, trigger_error, fail0. cbn [fh fst snd].
    destruct (negb (fclose h =? 0)); cbn; rewrite ?Z.eqb_refl;
      split; reflexivity.
  - (* read, in error *)
    unfold read_statement. cbn.
    split; [discriminate|]. intros o' log E. inversion E. split; reflexivity.
  - unfold write_func_new. cbn.
    split; [discriminate|]. intros o' log E. inversion E. split; reflexivity.
  - split; [discriminate|]. intros o' log E. inversion E; subst. clear E.
    unfold seek_func_new, fail0. cbn [fh fst snd].
    destruct parsed as [[sign mag]|]; [|split; reflexivity].
    destruct (parse_whence whence_arg); [|split; reflexivity].
    destruct (seek_position sizeof_off_t sign mag); split; reflexivity.
  - split; [discriminate|]. intros o' log E. inversion E. split; reflexivity.
Qed.

Lemma statements_kept sizeof_off_t sts :
  forall o,
    run_statements sizeof_off_t sts o <> No_fuel /\
    forall o' log,
      run_statements sizeof_off_t sts o = Done o' log -> kept o log o'.
Proof.
  induction sts as [|st sts IH]; intro o; cbn [run_statements].
  - split; [discriminate|]. intros o' log E. inversion E. split; reflexivity.
  - destruct (statement_kept sizeof_off_t st o) as [Hf Hk].
    destruct (run_statement sizeof_off_t st o) as [o1 log1 | |].
    + destruct (IH o1) as [Hf1 Hk1]. destruct (Hk o1 log1 eq_refl) as [D A].
      destruct (run_statements sizeof_off_t sts o1) as [o2 log2 | |].
      * split; [discriminate|]. intros o' log E. inversion E; subst.
        destruct (Hk1 o' log2 eq_refl) as [D2 A2]. unfold kept.
        rewrite disciplined_app, handle_after_app, D, A, D2, A2.
        split; reflexivity.
      * split; [discriminate|]. discriminate.
      * now contradiction Hf1.
    + split; [discriminate|]. discriminate.
    + now contradiction Hf.
Qed.

(** X22. Through the whole life of an open instance, whatever statements
    act on it and whatever the C library answers, the loops of read and
    write always come to an end, and file handles are used properly: a
    handle is read, written, positioned and closed only while it is open,
    it is never closed twice, and when the instance has died no file is
    left open.  In particular, once the instance is in error a statement
    touches no file. *)
Theorem file_handle_discipline (sizeof_off_t : Z)
  (filename mode_arg mode_buf : list byte) (null_terminate_ok : bool)
  (fopen : list byte -> list byte -> option Z) (sts : list statement) :
  session sizeof_off_t filename mode_arg mode_buf null_terminate_ok fopen sts
  <> Session_no_fuel /\
  forall log,
    session sizeof_off_t filename mode_arg mode_buf null_terminate_ok fopen
      sts = Session_log log ->
    disciplined None log = true /\ handle_after None log = None.
Proof.
  unfold session, open_func_new.
  destruct (fst (parse_mode mode_arg (N.of_nat (length mode_arg)) mode_buf)
            =? 0).
  { split; [discriminate|]. intros log E. inversion E. split; reflexivity. }
  destruct null_terminate_ok; cbn [negb].
  2: { split; [discriminate|]. intros log E. inversion E. split; reflexivity. }
  set (mode := c_string _). set (o := {| fh := fopen filename mode |}).
  destruct (statements_kept sizeof_off_t sts o) as [Hf Hk].
  destruct (run_statements sizeof_off_t sts o) as [o1 log1 | |].
  - destruct (Hk o1 log1 eq_refl) as [D A]. cbn [fh o] in D, A.
    split; [discriminate|]. intros log E. inversion E; subst log. clear E.
    cbn [app disciplined handle_after andb].
    rewrite disciplined_app, handle_after_app, D, A.
    unfold open_func_die. destruct (fh o1) as [h|]; cbn;
      rewrite ?Z.eqb_refl; split; reflexivity.
  - split; [discriminate|]. discriminate.
  - now contradiction Hf.
Qed.

Lemma file_handle_discipline_witness :
  exists log,
    session 8 [char_a] [char_r] [NUL; NUL; NUL; NUL; NUL] true
      (fun _ _ => Some 4)
      [St_write [char_w] (fun _ _ => 0%N); St_close (fun _ => 0)] =
    Session_log log /\
    disciplined None log = true.
Proof.
  eexists. split; [vm_compute; reflexivity|].
  apply (@file_handle_discipline 8 [char_a] [char_r]
           [NUL; NUL; NUL; NUL; NUL] true (fun _ _ => Some 4)
           [St_write [char_w] (fun _ _ => 0%N); St_close (fun _ => 0)]).
  vm_compute. reflexivity.
Defined.

End FileOpenFacts.
